(** * LoRA fine-tuning driver (finetune/lora.py): a shallow embedding

    The script drives low-rank-adapter fine-tuning: [setup] picks precision
    plugin and strategy, [main] builds model and optimizer, [train] runs the
    accumulation loop with linear warm-up, [validate] averages the loss of
    [eval_iters] random batches and prints one generated sample, and
    [get_batch] draws and right-pads a micro-batch.

    Python values are modelled as follows.
    - integers and tensor elements are [Z]; lengths and counters are [nat];
    - a 1-D tensor is a [list Z], a 2-D tensor the list of its rows;
    - a Python float is a binary64 [float]: the learning rates are computed
      and compared as the interpreter does;
    - a loss is a scalar tensor, of the type [Scalar] that torch's kernels
      produce and consume;
    - a raised exception is [Raise cls], [cls] being the Python class name;
    - the global torch generator, the model object, the optimizer and the
      record of collaborator calls are fields of a [World] that is threaded
      through every call and survives a raised exception, as in Python. *)

From Stdlib Require Import Floats.
From Stdlib Require Import String ZArith Bool Arith Lia List.
Import ListNotations.

Local Open Scope string_scope.
Local Open Scope nat_scope.
Local Open Scope list_scope.

(** ** Exceptions *)

Inductive result (A : Type) : Type :=
| Ok (a : A)
| Raise (cls : string).
Arguments Ok {A} a.
Arguments Raise {A} cls.

Definition rbind {A B} (r : result A) (k : A -> result B) : result B :=
  match r with
  | Ok a => k a
  | Raise e => Raise e
  end.

Declare Scope result_scope.
Delimit Scope result_scope with result.
Notation "x <- e ;; k" := (rbind e (fun x => k))
  (at level 61, e at next level, right associativity) : result_scope.

Declare Scope M_scope.
Delimit Scope M_scope with M.

(** [[f(a) for a in l]], stopping at the first exception. *)
Fixpoint map_result {A B} (f : A -> result B) (l : list A) : result (list B) :=
  match l with
  | [] => Ok []
  | a :: l' =>
      match f a with
      | Raise e => Raise e
      | Ok b =>
          match map_result f l' with
          | Raise e => Raise e
          | Ok bs => Ok (b :: bs)
          end
      end
  end.

(** ** Python and torch primitives used by the script *)

(** [l[i]] on a Python list: negative indices count from the end. *)
Definition list_getitem {A} (l : list A) (i : Z) : result A :=
  let n := Z.of_nat (length l) in
  let j := if (i <? 0)%Z then (i + n)%Z else i in
  if ((0 <=? j) && (j <? n))%Z then
    match nth_error l (Z.to_nat j) with
    | Some a => Ok a
    | None => Raise "IndexError"
    end
  else Raise "IndexError".

(** [max(...)] over a generator of lengths: [ValueError] when it is empty. *)
Definition py_max (l : list nat) : result nat :=
  match l with
  | [] => Raise "ValueError"
  | a :: l' => Ok (fold_left Nat.max l' a)
  end.

(** [l.index(v)]: position of the first occurrence. *)
Fixpoint list_index (v : nat) (l : list nat) : result nat :=
  match l with
  | [] => Raise "ValueError"
  | a :: l' =>
      if a =? v then Ok 0
      else match list_index v l' with
           | Ok k => Ok (S k)
           | Raise e => Raise e
           end
  end.

(** [a % b] on non-negative integers. *)
Definition py_mod (a b : nat) : result nat :=
  if b =? 0 then Raise "ZeroDivisionError" else Ok (a mod b).

(** [l[k] = v] for an index within the list. *)
Fixpoint list_set {A} (l : list A) (k : nat) (v : A) : list A :=
  match l, k with
  | [], _ => []
  | _ :: t, O => v :: t
  | a :: t, S k' => a :: list_set t k' v
  end.

(** [l[-1] = f(l[-1])] on a Python list. *)
Fixpoint update_last {A} (f : A -> A) (l : list A) : result (list A) :=
  match l with
  | [] => Raise "IndexError"
  | [a] => Ok [f a]
  | a :: l' =>
      match update_last f l' with
      | Ok r => Ok (a :: r)
      | Raise e => Raise e
      end
  end.

(** [float(n)] as Python converts an integer operand of a float operation:
    rounded to the nearest binary64, ties to even, and [OverflowError] when
    the integer is beyond the range of binary64. *)
Definition float_of_nat (n : nat) : float :=
  SF2Prim (binary_normalize prec emax (Z.of_nat n) 0 false).

Definition py_float (n : nat) : result float :=
  match binary_normalize prec emax (Z.of_nat n) 0 false with
  | S754_infinity _ => Raise "OverflowError"
  | sf => Ok (SF2Prim sf)
  end.

(** [t.size(1)] of a stacked 2-D tensor. *)
Definition size1 (t : list (list Z)) : nat :=
  match t with
  | [] => 0
  | r :: _ => length r
  end.

(** A Python integer that an int64 tensor can hold. *)
Definition fits_int64 (v : Z) : bool :=
  ((- 2 ^ 63 <=? v) && (v <? 2 ^ 63))%Z.

(** [ix[0] = v] on a 1-D int64 tensor: torch converts the value first and
    refuses an integer outside the int64 range, then looks up the slot. *)
Definition tensor_setitem0 (ix : list Z) (v : Z) : result (list Z) :=
  if fits_int64 v then
    match ix with
    | [] => Raise "IndexError"
    | _ :: rest => Ok (v :: rest)
    end
  else Raise "RuntimeError".

(** [torch.full((n,), pad_id)]: a negative dimension is refused. *)
Definition torch_full (n : Z) (pad_id : Z) : result (list Z) :=
  if (n <? 0)%Z then Raise "RuntimeError"
  else Ok (repeat pad_id (Z.to_nat n)).

(** [torch.stack] of 1-D tensors: needs a non-empty list of equal sizes. *)
Definition torch_stack (rows : list (list Z)) : result (list (list Z)) :=
  match rows with
  | [] => Raise "RuntimeError"
  | r :: rest =>
      if forallb (fun r' => length r' =? length r) rest then Ok rows
      else Raise "RuntimeError"
  end.

(** Shape of a 2-D tensor, when its rows agree. *)
Definition shape (t : list (list Z)) : option (nat * nat) :=
  match t with
  | [] => Some (0, 0)
  | r :: rest =>
      if forallb (fun r' => length r' =? length r) rest
      then Some (length t, length r) else None
  end.

(** [s in p] on strings, and [p[n:]]. *)
Fixpoint str_contains (s p : string) : bool :=
  String.prefix s p ||
  match p with
  | EmptyString => false
  | String _ p' => str_contains s p'
  end.

Fixpoint str_drop (n : nat) (p : string) : string :=
  match n, p with
  | O, _ => p
  | S n', EmptyString => EmptyString
  | S n', String _ p' => str_drop n' p'
  end.

(** ** Hyperparameters: the module-level constants *)

Record HParams := {
  eval_interval : nat;
  save_interval : nat;
  eval_iters : nat;
  eval_max_new_tokens : nat;
  log_interval : nat;
  devices : nat;
  learning_rate : float;
  batch_size : nat;
  micro_batch_size : nat;
  max_iters : nat;
  warmup_steps : nat;
  prompt_type : string
}.

(** [gradient_accumulation_iters = batch_size // micro_batch_size]; the
    module asserts it is positive right after computing it. *)
Definition gradient_accumulation_iters (h : HParams) : nat :=
  batch_size h / micro_batch_size h.

(** The values the script ships with.  ([weight_decay] and the [lora_*]
    constants only parametrise the optimizer and the model.) *)
Definition hparams : HParams := {|
  eval_interval := 30;
  save_interval := 100;
  eval_iters := 300;
  eval_max_new_tokens := 512;
  log_interval := 100;
  devices := 1;
  learning_rate := 0x1.a36e2eb1c432dp-14;   (* the double of 1e-4 *)
  batch_size := 96;
  micro_batch_size := 3;
  max_iters := 12 * 1000;
  warmup_steps := 100;
  prompt_type := "alpaca"
|}.

(** ** Data *)

Record Example := { input_ids : list Z; labels : list Z }.

Definition Tensor2 := list (list Z).

(** [get_longest_seq_length] *)
Definition get_longest_seq_length (data : list Example) : result (nat * nat) :=
  let lengths := map (fun d => length (input_ids d)) data in
  (longest_seq_length <- py_max lengths ;;
   longest_seq_ix <- list_index longest_seq_length lengths ;;
   Ok (longest_seq_length, longest_seq_ix))%result.

(** ** Collaborators

    What the script imports and calls but does not define: the torch
    generator, the model, the loss kernel, the optimizer, the tokenizer, the
    prompt template, the sampler used for the qualitative example, the
    bitsandbytes plugin and Lightning's [Fabric].  Each is an operation of
    the interface below; the ones that can raise return a [result]. *)

Inductive dtype := float16 | bfloat16 | float32.

Inductive strategy_t := StrategyFSDP | StrategyAuto.

(** The first argument of [chunked_cross_entropy]: one tensor of shape
    (batch, positions, vocabulary) given as rows of per-position score
    vectors, or the list of chunks along the position axis that
    [model(..., lm_head_chunk_size=128)] returns. *)
Inductive logits_t (Vec : Type) :=
| Whole (t : list (list Vec))
| Chunked (cs : list (list (list Vec))).
Arguments Whole {Vec} t.
Arguments Chunked {Vec} cs.

Class Env := {
  (* torch generator: opaque state, the raw integer it yields next *)
  Gen : Type;
  raw : Gen -> Z * Gen;
  manual_seed : Z -> Gen;
  global_rank : nat;
  (* model *)
  Params : Type;
  Grad : Type;
  Vec : Type;
  GPT_init : Params;
  block_size : nat;
  (* model(input_ids) and model(input_ids, lm_head_chunk_size=c); the
     arguments before the batch are the weights, the train/eval flag and
     [max_seq_length] *)
  forward : Params -> bool -> nat -> Tensor2 -> result (list (list Vec));
  forward_chunked : Params -> bool -> nat -> Tensor2 -> nat
                    -> result (list (list (list Vec)));
  set_kv_cache : Params -> nat -> nat -> result unit;
  (* scalar tensors: the loss of a batch; the entry of [torch.zeros(n)];
     the value an entry of that float32 tensor takes on [t[k] = x]; and
     [t.mean()] of the float32 tensor with the entries given *)
  Scalar : Type;
  chunked_cross_entropy : logits_t Vec -> Tensor2 -> nat -> result Scalar;
  float32_zero : Scalar;
  to_float32 : Scalar -> Scalar;
  tensor_mean : list Scalar -> Scalar;
  grad_zero : Grad;
  backward : Params -> Tensor2 -> Tensor2 -> nat -> Grad -> Grad;
  (* optimizer *)
  OptState : Type;
  AdamW_init : Params -> OptState;
  optimizer_step : list float -> OptState -> Params -> Grad
                   -> OptState * Params;
  (* tokenizer, prompt template, generation *)
  generate_prompt : string -> string -> string -> result string;
  encode : string -> result (list Z);
  decode : list Z -> result string;
  generate : Params -> list Z -> nat -> float -> Gen
             -> result (list Z) * Gen;
  (* precision plugin *)
  Plugin : Type;
  BitsandbytesPrecision : string -> dtype -> result Plugin;
  (* L.Fabric(devices, strategy, precision, plugins): the connector refuses
     a precision argument that comes together with a precision plugin *)
  Fabric_init : nat -> strategy_t -> option string -> option Plugin
                -> result unit;
  Fabric_precision_conflict :
    forall d s p pl, Fabric_init d s (Some p) (Some pl) = Raise "ValueError"
}.

(** ** The batch sampler *)

Section Sampler.

Context {E : Env}.
Variable h : HParams.

(** [torch.randint(high, (n,))] reduces each raw draw modulo [high], and
    refuses an empty range before it touches the generator. *)
Fixpoint draws (high : Z) (n : nat) (g : Gen) : list Z * Gen :=
  match n with
  | O => ([], g)
  | S n' =>
      let (r, g1) := raw g in
      let (rest, g2) := draws high n' g1 in
      ((r mod high)%Z :: rest, g2)
  end.

Definition torch_randint (high : nat) (n : nat) (g : Gen)
  : result (list Z) * Gen :=
  if high =? 0 then (Raise "RuntimeError", g)
  else let (ix, g') := draws (Z.of_nat high) n g in (Ok ix, g').

(** [pad_right], the closure of [get_batch]; [max_len] is its captured
    variable. *)
Definition pad_right (max_len : nat) (x : list Z) (pad_id : Z)
  : result (list Z) :=
  let n := (Z.of_nat max_len - Z.of_nat (length x))%Z in
  (p <- torch_full n pad_id ;; Ok (x ++ p))%result.

(** Everything [get_batch] does once the indices are fixed.  Moving the
    two tensors to the device does not change their contents. *)
Definition collate (data : list Example) (ix : list Z)
  : result (Tensor2 * Tensor2) :=
  (inputs <- map_result
               (fun i => d <- list_getitem data i ;; Ok (input_ids d)) ix ;;
   labs <- map_result
               (fun i => d <- list_getitem data i ;; Ok (labels d)) ix ;;
   max_len <- py_max (map (@length Z) inputs) ;;
   xs <- map_result (fun x => pad_right max_len x 0%Z) inputs ;;
   x <- torch_stack xs ;;
   ys <- map_result (fun x => pad_right max_len x (-1)%Z) labs ;;
   y <- torch_stack ys ;;
   Ok (x, y))%result.

(** The index tensor after the optional [ix[0] = longest_seq_ix]. *)
Definition batch_indices (ix : list Z) (longest_seq_ix : option Z)
  : result (list Z) :=
  match longest_seq_ix with
  | Some l => tensor_setitem0 ix l
  | None => Ok ix
  end.

Definition get_batch (data : list Example) (longest_seq_ix : option Z)
                     (g : Gen) : result (Tensor2 * Tensor2) * Gen :=
  match torch_randint (length data) (micro_batch_size h) g with
  | (Raise e, g') => (Raise e, g')
  | (Ok ix, g') =>
      ((ix' <- batch_indices ix longest_seq_ix ;; collate data ix')%result,
       g')
  end.

End Sampler.

(** ** Collaborator calls that leave a mark *)

Inductive ckpt_path :=
| IterCkpt (iter_num : nat)      (* out_dir / iter-{iter_num:06d}-ckpt.pth *)
| FinalCkpt.                     (* out_dir / lit_model_lora_finetuned.pth *)

Inductive event :=
| EvPlugin (mode : string) (d : dtype)
| EvFSDP
| EvFabric
| EvLaunch
| EvGPT
| EvOptimizer (paged : bool)
| EvLoadCheckpoint
| EvSeed (s : Z)
| EvEval
| EvTrain
| EvGetBatch (longest_seq_ix : option Z)
| EvForward
| EvBackward (no_sync : bool)
| EvLr
| EvStep
| EvZeroGrad
| EvFlops
| EvMonitor (samples : nat)
| EvPrint (s : string)
| EvPrintIter (iter_num step_count : nat)
| EvPrintVal (iter_num : nat)
| EvGenerate
| EvBarrier
| EvSave (p : ckpt_path).

(** ** The world and its monad *)

Section Driver.

Context {E : Env}.
Variable h : HParams.

Record Model := {
  training : bool;
  kv_cache : bool;
  max_seq_length : nat;
  params : Params;
  grad : Grad
}.

(** One learning rate per parameter group, and the optimizer's own state. *)
Record Optimizer := {
  param_groups : list float;
  opt_state : OptState
}.

Record Fabric := {
  f_devices : nat;
  f_strategy : strategy_t;
  f_precision : option string;
  f_plugins : option Plugin
}.

(** [log] holds the most recent call first. *)
Record World := {
  gen : Gen;
  model : Model;
  optimizer : Optimizer;
  inference_mode : bool;
  log : list event
}.

Definition set_gen (g : Gen) (w : World) : World :=
  {| gen := g; model := model w; optimizer := optimizer w;
     inference_mode := inference_mode w; log := log w |}.
Definition set_model (m : Model) (w : World) : World :=
  {| gen := gen w; model := m; optimizer := optimizer w;
     inference_mode := inference_mode w; log := log w |}.
Definition set_optimizer (o : Optimizer) (w : World) : World :=
  {| gen := gen w; model := model w; optimizer := o;
     inference_mode := inference_mode w; log := log w |}.
Definition set_inference_mode (b : bool) (w : World) : World :=
  {| gen := gen w; model := model w; optimizer := optimizer w;
     inference_mode := b; log := log w |}.
Definition set_log (l : list event) (w : World) : World :=
  {| gen := gen w; model := model w; optimizer := optimizer w;
     inference_mode := inference_mode w; log := l |}.

Definition set_training (b : bool) (m : Model) : Model :=
  {| training := b; kv_cache := kv_cache m;
     max_seq_length := max_seq_length m; params := params m;
     grad := grad m |}.
Definition set_kv (b : bool) (m : Model) : Model :=
  {| training := training m; kv_cache := b;
     max_seq_length := max_seq_length m; params := params m;
     grad := grad m |}.
Definition set_max_seq_length (n : nat) (m : Model) : Model :=
  {| training := training m; kv_cache := kv_cache m;
     max_seq_length := n; params := params m; grad := grad m |}.
Definition set_params (p : Params) (m : Model) : Model :=
  {| training := training m; kv_cache := kv_cache m;
     max_seq_length := max_seq_length m; params := p; grad := grad m |}.
Definition set_grad (g : Grad) (m : Model) : Model :=
  {| training := training m; kv_cache := kv_cache m;
     max_seq_length := max_seq_length m; params := params m; grad := g |}.

(** A computation maps a world to a value or an exception, and a world:
    what was done before an exception was raised stays done. *)
Definition M (A : Type) : Type := World -> result A * World.

Definition ret {A} (a : A) : M A := fun w => (Ok a, w).
Definition raise {A} (cls : string) : M A := fun w => (Raise cls, w).
Definition bind {A B} (m : M A) (k : A -> M B) : M B :=
  fun w =>
    match m w with
    | (Ok a, w') => k a w'
    | (Raise e, w') => (Raise e, w')
    end.
Definition lift {A} (r : result A) : M A := fun w => (r, w).
Definition tick (e : event) : M unit :=
  fun w => (Ok tt, set_log (e :: log w) w).
Definition modify_model (f : Model -> Model) : M unit :=
  fun w => (Ok tt, set_model (f (model w)) w).
Definition modify_optimizer (f : Optimizer -> Optimizer) : M unit :=
  fun w => (Ok tt, set_optimizer (f (optimizer w)) w).
Definition with_gen {A} (f : Gen -> result A * Gen) : M A :=
  fun w => let (r, g) := f (gen w) in (r, set_gen g w).
Definition get_model : M Model := fun w => (Ok (model w), w).


Notation "x <- e ;; k" := (bind e (fun x => k))
  (at level 61, e at next level, right associativity) : M_scope.
Notation "e ;; k" := (bind e (fun _ => k))
  (at level 61, right associativity) : M_scope.

(** [for i in range(start, start + count)], with the variables the body
    updates as loop state. *)
Fixpoint for_loop {St} (start count : nat) (body : nat -> St -> M St)
                  (s : St) : M St :=
  match count with
  | O => ret s
  | S c => (s' <- body start s ;; for_loop (S start) c body s')%M
  end.

Definition for_range {St} (n : nat) (body : nat -> St -> M St) (s : St)
  : M St := for_loop 0 n body s.

Definition model_eval : M unit :=
  (tick EvEval ;; modify_model (set_training false))%M.
Definition model_train : M unit :=
  (tick EvTrain ;; modify_model (set_training true))%M.

(** A call of [get_batch] on the global generator. *)
Definition call_get_batch (data : list Example) (longest_seq_ix : option Z)
  : M (Tensor2 * Tensor2) :=
  (tick (EvGetBatch longest_seq_ix) ;;
   with_gen (get_batch h data longest_seq_ix))%M.

Definition save_lora_checkpoint (file_path : ckpt_path) : M unit :=
  tick (EvSave file_path).

(** ** validate *)

Definition instruction : string :=
  "Réponds clairement à la question en te basant exclusivement sur le paragraphe associé".
Definition inn : string :=
  "Napoléon est arrivé au pouvoir en peu d'années. Une révolution l'a enfanté, un peuple l'a choisi, un pape l'a couronné. Il a agrandi les frontières de son Empire, comme Charlemagne et Louis XIV, et construit son État au centre de l'Europe.".

(** One pass of the loss loop: [losses[k] = ...]. *)
Definition validate_step (val_data : list Example) (k : nat)
                         (losses : list Scalar) : M (list Scalar) :=
  (b <- call_get_batch val_data None ;;
   m <- get_model ;;
   tick EvForward ;;
   logits <- lift (forward (params m) (training m) (max_seq_length m)
                           (fst b)) ;;
   loss <- lift (chunked_cross_entropy
                   (Whole (map (@removelast Vec) logits))
                   (map (@tl Z) (snd b)) 0) ;;
   ret (list_set losses k (to_float32 loss)))%M.

(** The body of [validate], below its decorator. *)
Definition validate_body (val_data : list Example) : M Scalar :=
  (tick (EvPrint "Validating ...") ;;
   model_eval ;;
   losses <- for_range (eval_iters h) (validate_step val_data)
                       (repeat float32_zero (eval_iters h)) ;;
   let val_loss := tensor_mean losses in
   (* produce an example *)
   tick (EvPrint instruction) ;;
   prompt <- lift (generate_prompt instruction inn (prompt_type h)) ;;
   encoded <- lift (encode prompt) ;;
   m <- get_model ;;
   lift (set_kv_cache (params m) (max_seq_length m) 1) ;;
   modify_model (set_kv true) ;;
   tick EvGenerate ;;
   output <- with_gen (generate (params m) encoded
                         (length encoded + eval_max_new_tokens h)
                         0x1.999999999999ap-1) ;;
   modify_model (set_kv false) ;;
   output <- lift (decode output) ;;
   tick (EvPrint output) ;;
   model_train ;;
   ret val_loss)%M.

(** [@torch.inference_mode()]: the decorator enters the mode, runs the
    body and restores the previous mode on return and on exception. *)
Definition validate (val_data : list Example) : M Scalar :=
  fun w =>
    let prev := inference_mode w in
    let (r, w') := validate_body val_data (set_inference_mode true w) in
    (r, set_inference_mode prev w').

(** ** train *)

Record LoopState := { step_count : nat; total_lengths : nat }.

(** [for param_group in optimizer.param_groups: param_group["lr"] = lr] *)
Definition set_lr (lr : float) : M unit :=
  (tick EvLr ;;
   modify_optimizer (fun o =>
     {| param_groups := map (fun _ => lr) (param_groups o);
        opt_state := opt_state o |}))%M.

(** [learning_rate * step_count / warmup_steps]: each integer operand is
    converted when its operation is reached, and a float division by zero
    raises. *)
Definition warmup_lr (step_count : nat) : result float :=
  (a <- py_float step_count ;;
   let product := (learning_rate h * a)%float in
   b <- py_float (warmup_steps h) ;;
   if is_zero b then Raise "ZeroDivisionError"
   else Ok (product / b)%float)%result.

(** [optimizer.step()]: the optimizer reads its rates, its state, the
    weights and their gradients, and replaces state and weights. *)
Definition apply_step : M unit :=
  fun w =>
    let o := optimizer w in
    let m := model w in
    let (s', p') :=
      optimizer_step (param_groups o) (opt_state o) (params m) (grad m) in
    (Ok tt,
     set_model (set_params p' m)
       (set_optimizer {| param_groups := param_groups o;
                         opt_state := s' |} w)).

Definition do_optimizer_step : M unit := (tick EvStep ;; apply_step)%M.

Definition zero_grad : M unit :=
  (tick EvZeroGrad ;; modify_model (set_grad grad_zero))%M.

(** The blocks of one pass of the training loop, in source order. *)

(** [if step_count <= warmup_steps: ...] *)
Definition warmup_update (step_count : nat) : M unit :=
  if step_count <=? warmup_steps h then
    (* linear warmup *)
    (lr <- lift (warmup_lr step_count) ;;
     set_lr lr)%M
  else ret tt.

(** [with fabric.no_backward_sync(model, enabled=is_accumulating): ...] *)
Definition forward_backward (input_ids targets : Tensor2)
                            (is_accumulating : bool) : M Scalar :=
  (m <- get_model ;;
   tick EvForward ;;
   logits <- lift (forward_chunked (params m) (training m)
                     (max_seq_length m) input_ids 128) ;;
   (* shift the targets such that output n predicts token n+1 *)
   logits <- lift (update_last (map (@removelast Vec)) logits) ;;
   loss <- lift (chunked_cross_entropy (Chunked logits)
                   (map (@tl Z) targets) 128) ;;
   tick (EvBackward is_accumulating) ;;
   modify_model (fun m =>
     set_grad (backward (params m) input_ids targets
                 (gradient_accumulation_iters h) (grad m)) m) ;;
   ret loss)%M.

(** [if not is_accumulating: optimizer.step(); optimizer.zero_grad();
    step_count += 1]; the value is the new [step_count]. *)
Definition optimizer_update (is_accumulating : bool) (step_count : nat)
  : M nat :=
  if negb is_accumulating then
    (do_optimizer_step ;;
     zero_grad ;;
     ret (step_count + 1))%M
  else ret step_count.

(** [if iter_num % log_interval == 0: fabric.print(...)] *)
Definition log_progress (iter_num step_count : nat) : M unit :=
  (r <- lift (py_mod iter_num (log_interval h)) ;;
   if r =? 0 then tick (EvPrintIter iter_num step_count) else ret tt)%M.

(** [if not is_accumulating and step_count % eval_interval == 0: ...] *)
Definition periodic_eval (val_data : list Example) (is_accumulating : bool)
                         (iter_num step_count : nat) : M unit :=
  if negb is_accumulating then
    (r <- lift (py_mod step_count (eval_interval h)) ;;
     if r =? 0 then
       validate val_data ;;
       tick (EvPrintVal iter_num) ;;
       tick EvBarrier
     else ret tt)%M
  else ret tt.

(** [if not is_accumulating and step_count % save_interval == 0: ...] *)
Definition periodic_save (is_accumulating : bool) (iter_num step_count : nat)
  : M unit :=
  if negb is_accumulating then
    (r <- lift (py_mod step_count (save_interval h)) ;;
     if r =? 0 then save_lora_checkpoint (IterCkpt iter_num)
     else ret tt)%M
  else ret tt.

(** One pass of the training loop. *)
Definition train_iter (train_data val_data : list Example)
                      (longest_seq_ix : nat) (iter_num : nat)
                      (st : LoopState) : M LoopState :=
  (warmup_update (step_count st) ;;
   b <- call_get_batch train_data
          (if iter_num =? 0 then Some (Z.of_nat longest_seq_ix)
           else None) ;;
   let input_ids := fst b in
   let targets := snd b in
   r <- lift (py_mod (iter_num + 1) (gradient_accumulation_iters h)) ;;
   let is_accumulating := negb (r =? 0) in
   loss <- forward_backward input_ids targets is_accumulating ;;
   step_count' <- optimizer_update is_accumulating (step_count st) ;;
   let total_lengths' := total_lengths st + size1 input_ids in
   tick (EvMonitor ((iter_num + 1) * micro_batch_size h)) ;;
   log_progress iter_num step_count' ;;
   periodic_eval val_data is_accumulating iter_num step_count' ;;
   periodic_save is_accumulating iter_num step_count' ;;
   ret {| step_count := step_count'; total_lengths := total_lengths' |})%M.

(** The loop of [train] cut after [n] iterations. *)
Definition train_loop (train_data val_data : list Example)
                      (longest_seq_ix : nat) (n : nat) : M LoopState :=
  for_range n (train_iter train_data val_data longest_seq_ix)
            {| step_count := 0; total_lengths := 0 |}.

Definition train (train_data val_data : list Example) : M unit :=
  (r <- lift (get_longest_seq_length train_data) ;;
   let longest_seq_length := fst r in
   let longest_seq_ix := snd r in
   modify_model (set_max_seq_length longest_seq_length) ;;
   validate val_data ;;  (* sanity check *)
   tick EvFlops ;;
   train_loop train_data val_data longest_seq_ix (max_iters h) ;;
   ret tt)%M.

(** ** main

    Checking the checkpoint directory, creating [out_dir], reading the two
    data files and printing parameter counts act on the file system and the
    console only; the data read are the two arguments. *)

Definition seed_everything (s : Z) : M unit :=
  (tick (EvSeed s) ;; fun w => (Ok tt, set_gen (manual_seed s) w))%M.

Definition main (fabric : Fabric) (train_data val_data : list Example)
  : M unit :=
  (seed_everything 1337 ;;
   tick EvGPT ;;
   modify_model (fun _ =>
     {| training := true; kv_cache := false; max_seq_length := block_size;
        params := GPT_init; grad := grad_zero |}) ;;
   tick (EvOptimizer (match f_plugins fabric with
                      | Some _ => true
                      | None => false
                      end)) ;;
   modify_optimizer (fun _ =>
     {| param_groups := [learning_rate h];
        opt_state := AdamW_init GPT_init |}) ;;
   tick EvLoadCheckpoint ;;
   seed_everything (1337 + Z.of_nat global_rank) ;;
   train train_data val_data ;;
   (* Save the final LoRA checkpoint at the end of training *)
   save_lora_checkpoint FinalCkpt)%M.

(** ** setup *)

Definition dtype_of (precision : string) : result dtype :=
  if (precision =? "16-true")%string then Ok float16
  else if (precision =? "bf16-true")%string then Ok bfloat16
  else if (precision =? "32-true")%string then Ok float32
  else Raise "KeyError".

(** Truth value of an optional string. *)
Definition truthy (s : option string) : bool :=
  match s with
  | None => false
  | Some EmptyString => false
  | Some _ => true
  end.

(** The quantization block of [setup]: [None] for precision makes the
    membership test itself raise. *)
Definition select_plugins (precision quantize : option string)
  : M (option Plugin) :=
  match quantize with
  | Some q =>
      if String.prefix "bnb." q then
        match precision with
        | None => raise "TypeError"
        | Some p =>
            if str_contains "mixed" p then raise "ValueError"
            else
              (dtype <- lift (dtype_of p) ;;
               plugin <- lift (BitsandbytesPrecision (str_drop 4 q) dtype) ;;
               tick (EvPlugin (str_drop 4 q) dtype) ;;
               ret (Some plugin))%M
        end
      else ret None
  | None => ret None
  end.

Definition select_strategy (quantize : option string) : M strategy_t :=
  if 1 <? devices h then
    if truthy quantize then raise "NotImplementedError"
    else (tick EvFSDP ;; ret StrategyFSDP)%M
  else ret StrategyAuto.

(** [train_data] and [val_data] stand for the contents of the two files
    under [data_dir] that [main] loads. *)
Definition setup (precision quantize : option string)
                 (train_data val_data : list Example) : M unit :=
  (plugins <- select_plugins precision quantize ;;
   strategy <- select_strategy quantize ;;
   lift (Fabric_init (devices h) strategy precision plugins) ;;
   tick EvFabric ;;
   let fabric := {| f_devices := devices h; f_strategy := strategy;
                    f_precision := precision; f_plugins := plugins |} in
   tick EvLaunch ;;
   main fabric train_data val_data)%M.

End Driver.

(** ** Vocabulary of the statements *)

(** The example a valid Python index selects. *)
Definition valid_index (data : list Example) (i : Z) : Prop :=
  (- Z.of_nat (length data) <= i < Z.of_nat (length data))%Z.

Definition pick (data : list Example) (i : Z) : Example :=
  nth (Z.to_nat (if (i <? 0)%Z then (i + Z.of_nat (length data))%Z else i))
      data {| input_ids := []; labels := [] |}.

(** A sequence followed by its padding up to [max_len]. *)
Definition padded (pad_id : Z) (max_len : nat) (s : list Z) : list Z :=
  s ++ repeat pad_id (max_len - length s).

Definition same_lengths (data : list Example) : Prop :=
  forall d, In d data -> length (input_ids d) = length (labels d).

(** An override is an index of the data that an int64 tensor can hold. *)
Definition valid_override (data : list Example) (o : option Z) : Prop :=
  match o with
  | Some l => valid_index data l /\ fits_int64 l = true
  | None => True
  end.

(** The indices a call of [get_batch] uses, given the generator it starts
    from: the draw, with slot 0 overwritten by the override if there is one. *)
Definition used_indices {E : Env} (h : HParams) (data : list Example)
                        (o : option Z) (g : Gen) : list Z :=
  let ix := fst (draws (Z.of_nat (length data)) (micro_batch_size h) g) in
  match o with
  | Some l => l :: tl ix
  | None => ix
  end.

(** The next [n] raw integers of the generator, and the generator after
    them. *)
Fixpoint raws {E : Env} (n : nat) (g : Gen) : list Z * Gen :=
  match n with
  | O => ([], g)
  | S n' =>
      let (r, g1) := raw g in
      let (rest, g2) := raws n' g1 in
      (r :: rest, g2)
  end.

(** The index of the example that a raw integer selects. *)
Definition slot_index (data : list Example) (r : Z) : Z :=
  (r mod Z.of_nat (length data))%Z.

(** Width of the batch built from the examples at [ix]. *)
Definition width_of (data : list Example) (ix : list Z) : nat :=
  list_max (map (fun i => length (input_ids (pick data i))) ix).

(** A relation between the world before and the world after that every
    run of [m] satisfies, whatever its outcome. *)
Definition preserves {E : Env} {A} (R : World -> World -> Prop) (m : M A)
  : Prop :=
  forall w r w', m w = (r, w') -> R w w'.

(** [f] reads the same in both worlds. *)
Definition keeps {E : Env} {X} (f : World -> X) (w w' : World) : Prop :=
  f w' = f w.

(** The log grew, and only by events that satisfy [P]. *)
Definition logs {E : Env} (P : event -> Prop) (w w' : World) : Prop :=
  exists d, log w' = d ++ log w /\ Forall P d.

(** Calls of [optimizer.step()] and of [get_batch] recorded so far. *)
Definition is_step (e : event) : bool :=
  match e with EvStep => true | _ => false end.
Definition is_get_batch (e : event) : bool :=
  match e with EvGetBatch _ => true | _ => false end.
(** A call that returned. *)
Definition is_ok {A} (r : result A) : bool :=
  match r with Ok _ => true | Raise _ => false end.

(** The two calls of an optimizer update: [step()] and [zero_grad()]. *)
Definition is_update (e : event) : bool :=
  match e with EvStep | EvZeroGrad => true | _ => false end.
Definition steps_in (l : list event) : nat := length (filter is_step l).
Definition batches_in (l : list event) : nat :=
  length (filter is_get_batch l).

(** Events of evaluation: no optimizer call, no learning-rate write, no
    backward pass, no batch drawn with an override. *)
Definition quiet (e : event) : Prop :=
  match e with
  | EvStep | EvZeroGrad | EvLr | EvBackward _ | EvGetBatch (Some _) => False
  | _ => True
  end.

(** The loss [validate] computes for one batch. *)
Definition batch_loss {E : Env} (m : Model) (b : Tensor2 * Tensor2)
  : result Scalar :=
  (logits <- forward (params m) (training m) (max_seq_length m) (fst b) ;;
   chunked_cross_entropy (Whole (map (@removelast Vec) logits))
                         (map (@tl Z) (snd b)) 0)%result.

(** [n] calls of [get_batch] in a row, without override, each starting
    from the generator the previous one left. *)
Fixpoint successive_batches {E : Env} (h : HParams) (data : list Example)
         (n : nat) (g : Gen) : result (list (Tensor2 * Tensor2)) * Gen :=
  match n with
  | O => (Ok [], g)
  | S n' =>
      match get_batch h data None g with
      | (Raise e, g1) => (Raise e, g1)
      | (Ok b, g1) =>
          match successive_batches h data n' g1 with
          | (Raise e, g2) => (Raise e, g2)
          | (Ok bs, g2) => (Ok (b :: bs), g2)
          end
      end
  end.

(** The binary64 value of [learning_rate * step_count / warmup_steps]. *)
Definition warmup_value (h : HParams) (step_count : nat) : float :=
  (learning_rate h * float_of_nat step_count
   / float_of_nat (warmup_steps h))%float.

(** The rate the loop has written into every parameter group once it has
    started an iteration with [step_count] optimizer steps done. *)
Definition lr_at (h : HParams) (step_count : nat) : float :=
  warmup_value h (Nat.min step_count (warmup_steps h)).

(** ** Small collaborators, to run the script on concrete inputs *)

Module Toy.

(** A counter as generator: it yields its value and moves on. *)
Definition counter (g : Z) : Z * Z := (g, (g + 1)%Z).

(** A model that echoes its input, and like the real one refuses a
    sequence longer than [max_seq_length]. *)
Definition echo (p : unit) (training : bool) (max_seq_length : nat)
                (x : Tensor2) : result (list (list Z)) :=
  if forallb (fun r => length r <=? max_seq_length) x then Ok x
  else Raise "ValueError".

Definition echo_chunked (p : unit) (training : bool) (max_seq_length : nat)
                        (x : Tensor2) (c : nat)
  : result (list (list (list Z))) :=
  match echo p training max_seq_length x with
  | Ok t => Ok [t]
  | Raise e => Raise e
  end.

(** Scalars are binary32 numbers: an integer rounded to binary32, and the
    mean of a float32 tensor, its entries added up from the left and the
    sum divided by their number (nan for no entry at all). *)
Definition f32 (z : Z) : spec_float := binary_normalize 24 128 z 0 false.

Definition mean32 (l : list spec_float) : spec_float :=
  SFdiv 24 128 (fold_left (SFadd 24 128) l (S754_zero false))
        (f32 (Z.of_nat (length l))).

(** A loss that adds up the targets it is given, sentinels left out. *)
Definition target_sum (lg : logits_t Z) (targets : Tensor2) (c : nat)
  : result spec_float :=
  Ok (f32 (fold_right Z.add 0%Z
             (filter (fun t => negb (t =? -1)%Z) (concat targets)))).

(** A constructor of [Fabric] that refuses a precision argument next to a
    precision plugin and accepts everything else. *)
Definition fabric_init (d : nat) (s : strategy_t) (precision : option string)
                       (plugins : option unit) : result unit :=
  match precision, plugins with
  | Some _, Some _ => Raise "ValueError"
  | _, _ => Ok tt
  end.

Definition env : Env := {|
  Gen := Z;
  raw := counter;
  manual_seed := fun s => s;
  global_rank := 0;
  Params := unit;
  Grad := nat;
  Vec := Z;
  GPT_init := tt;
  block_size := 16;
  forward := echo;
  forward_chunked := echo_chunked;
  set_kv_cache := fun _ _ _ => Ok tt;
  Scalar := spec_float;
  chunked_cross_entropy := target_sum;
  float32_zero := S754_zero false;
  to_float32 := fun x => x;
  tensor_mean := mean32;
  grad_zero := 0;
  backward := fun _ _ _ _ g => S g;
  OptState := nat;
  AdamW_init := fun _ => 0;
  (* the state adds up the gradients it is stepped with *)
  optimizer_step := fun _ s p g => (s + g, p);
  generate_prompt := fun i x _ => Ok (i ++ x)%string;
  encode := fun _ => Ok [1; 2; 3]%Z;
  decode := fun _ => Ok EmptyString;
  generate := fun _ enc _ _ g => (Ok enc, g);
  Plugin := unit;
  BitsandbytesPrecision := fun _ _ => Ok tt;
  Fabric_init := fabric_init;
  Fabric_precision_conflict := fun _ _ _ _ => eq_refl
|}.

Definition small : HParams := {|
  eval_interval := 1;
  save_interval := 2;
  eval_iters := 2;
  eval_max_new_tokens := 4;
  log_interval := 1;
  devices := 1;
  learning_rate := 0x1.999999999999ap-4;   (* the double of 0.1 *)
  batch_size := 4;
  micro_batch_size := 2;
  max_iters := 4;
  warmup_steps := 2;
  prompt_type := "alpaca"
|}.

(** The same on two devices. *)
Definition two_devices : HParams := {|
  eval_interval := 1;
  save_interval := 2;
  eval_iters := 2;
  eval_max_new_tokens := 4;
  log_interval := 1;
  devices := 2;
  learning_rate := 0x1.999999999999ap-4;   (* the double of 0.1 *)
  batch_size := 4;
  micro_batch_size := 2;
  max_iters := 4;
  warmup_steps := 2;
  prompt_type := "alpaca"
|}.

(** Four examples of lengths 5, 5, 5 and 9. *)
Definition data : list Example :=
  [ {| input_ids := [11; 12; 13; 14; 15]%Z;
       labels := [-1; -1; 13; 14; 15]%Z |};
    {| input_ids := [21; 22; 23; 24; 25]%Z;
       labels := [-1; -1; -1; 24; 25]%Z |};
    {| input_ids := [31; 32; 33; 34; 35]%Z;
       labels := [-1; 32; 33; 34; 35]%Z |};
    {| input_ids := [41; 42; 43; 44; 45; 46; 47; 48; 49]%Z;
       labels := [-1; -1; -1; -1; 45; 46; 47; 48; 49]%Z |} ].

(** Three validation examples whose losses differ. *)
Definition val_data : list Example :=
  [ {| input_ids := [1; 2; 3]%Z; labels := [-1; 2; 3]%Z |};
    {| input_ids := [4; 5; 6]%Z; labels := [-1; 5; 6]%Z |};
    {| input_ids := [7; 8]%Z; labels := [-1; 8]%Z |} ].


(** A world as [main] leaves it before [train], generator at [g]. *)
Definition world (g : Z) : @World env :=
  @Build_World env g
    (@Build_Model env true false 16 tt 0)
    (@Build_Optimizer env [0x1.999999999999ap-4%float] 0)
    false [].

(** The same with a model that takes sequences of length 2 at most. *)
Definition narrow_world (g : Z) : @World env :=
  @Build_World env g
    (@Build_Model env true false 2 tt 0)
    (@Build_Optimizer env [0x1.999999999999ap-4%float] 0)
    false [].

End Toy.

(** ** Vocabulary of the further properties *)

(** Events counted by predicate. *)
Definition count_ev (p : event -> bool) (l : list event) : nat :=
  length (filter p l).

(** The marks of the three cadences of the loop: progress lines, periodic
    evaluations with their barrier, and checkpoints. *)
Definition is_print_iter (e : event) : bool :=
  match e with EvPrintIter _ _ => true | _ => false end.
Definition is_print_val (e : event) : bool :=
  match e with EvPrintVal _ => true | _ => false end.
Definition is_barrier (e : event) : bool :=
  match e with EvBarrier => true | _ => false end.
Definition is_iter_save (e : event) : bool :=
  match e with EvSave (IterCkpt _) => true | _ => false end.
Definition is_final_save (e : event) : bool :=
  match e with EvSave FinalCkpt => true | _ => false end.
Definition is_mark (e : event) : bool :=
  match e with
  | EvPrintIter _ _ | EvPrintVal _ | EvBarrier | EvSave _ => true
  | _ => false
  end.

(** What [train] and everything below it can record: nothing of [setup]
    or of the head of [main], and no final checkpoint. *)
Definition training_event (e : event) : Prop :=
  match e with
  | EvPlugin _ _ | EvFSDP | EvFabric | EvLaunch | EvGPT | EvOptimizer _
  | EvLoadCheckpoint | EvSeed _ | EvSave FinalCkpt => False
  | _ => True
  end.

(** What [validate] can record: prints, the two mode switches, batches
    drawn without override, forward passes and the generation. *)
Definition eval_event (e : event) : Prop :=
  match e with
  | EvPrint _ | EvEval | EvTrain | EvGetBatch None | EvForward
  | EvGenerate => True
  | _ => False
  end.





(** The labels of every example at [ix] fit the width of the batch. *)
Definition labels_fit (data : list Example) (ix : list Z) : bool :=
  forallb (fun i => length (labels (pick data i)) <=? width_of data ix) ix.

(** The world as the head of [main] leaves it for [train]. *)
Definition world_for_train {E : Env} (h : HParams) (paged : bool)
                           (w : World) : World :=
  {| gen := manual_seed (1337 + Z.of_nat global_rank);
     model := {| training := true; kv_cache := false;
                 max_seq_length := block_size; params := GPT_init;
                 grad := grad_zero |};
     optimizer := {| param_groups := [learning_rate h];
                     opt_state := AdamW_init GPT_init |};
     inference_mode := inference_mode w;
     log := EvSeed (1337 + Z.of_nat global_rank) :: EvLoadCheckpoint
            :: EvOptimizer paged :: EvGPT :: EvSeed 1337 :: log w |}.

Module Toy2.

(** Labels longer than any input: the second example cannot be padded. *)
Definition long_labels : list Example :=
  [ {| input_ids := [1; 2; 3]%Z; labels := [-1; 2; 3]%Z |};
    {| input_ids := [4; 5]%Z; labels := [-1; 5; 6; 7]%Z |} ].

(** Labels shorter than their inputs. *)
Definition short_labels : list Example :=
  [ {| input_ids := [1; 2; 3]%Z; labels := [3]%Z |};
    {| input_ids := [4; 5]%Z; labels := []%Z |} ].

(** No warm-up length. *)
Definition no_warmup : HParams := {|
  eval_interval := 1;
  save_interval := 2;
  eval_iters := 2;
  eval_max_new_tokens := 4;
  log_interval := 1;
  devices := 1;
  learning_rate := 0x1.999999999999ap-4;   (* the double of 0.1 *)
  batch_size := 4;
  micro_batch_size := 2;
  max_iters := 4;
  warmup_steps := 0;
  prompt_type := "alpaca"
|}.


(** Seven passes, accumulation width 2, evaluation every step,
    checkpoint every second step, a progress line every third pass. *)
Definition cadence : HParams := {|
  eval_interval := 1;
  save_interval := 2;
  eval_iters := 1;
  eval_max_new_tokens := 4;
  log_interval := 3;
  devices := 1;
  learning_rate := 0x1.999999999999ap-4;   (* the double of 0.1 *)
  batch_size := 4;
  micro_batch_size := 2;
  max_iters := 7;
  warmup_steps := 2;
  prompt_type := "alpaca"
|}.

End Toy2.

(** * Properties *)

(** ** Sampler *)

Section SamplerFacts.

Context {E : Env}.
Variable h : HParams.

Lemma draws_length (high : Z) (n : nat) (g : Gen) :
  length (fst (draws high n g)) = n.
Proof.
  revert g; induction n as [|n IH]; intros g; simpl; [reflexivity|].
  destruct (raw g) as [r g1]. specialize (IH g1).
  destruct (draws high n g1) as [rest g2]. simpl in *. now rewrite IH.
Qed.

Lemma draws_range (high : Z) (n : nat) (g : Gen) :
  (0 < high)%Z ->
  Forall (fun i => (0 <= i < high)%Z) (fst (draws high n g)).
Proof.
  intros Hh. revert g; induction n as [|n IH]; intros g; simpl.
  - constructor.
  - destruct (raw g) as [r g1]. specialize (IH g1).
    destruct (draws high n g1) as [rest g2]. simpl in *.
    constructor; [apply Z.mod_pos_bound; exact Hh | exact IH].
Qed.

Lemma list_getitem_pick (data : list Example) (i : Z) :
  valid_index data i -> list_getitem data i = Ok (pick data i).
Proof.
  unfold valid_index, list_getitem, pick. intros Hv.
  set (n := Z.of_nat (length data)) in *.
  set (j := if (i <? 0)%Z then (i + n)%Z else i).
  assert (Hj : (0 <= j < n)%Z).
  { subst j. destruct (Z.ltb_spec i 0); lia. }
  replace ((0 <=? j)%Z && (j <? n)%Z) with true
    by (symmetry; apply andb_true_intro; split;
        [apply Z.leb_le | apply Z.ltb_lt]; lia).
  assert (Hlt : Z.to_nat j < length data) by (subst n; lia).
  destruct (nth_error data (Z.to_nat j)) as [a|] eqn:Hn.
  - f_equal. symmetry. apply nth_error_nth. exact Hn.
  - apply nth_error_None in Hn. lia.
Qed.

Lemma pick_In (data : list Example) (i : Z) :
  valid_index data i -> In (pick data i) data.
Proof.
  unfold valid_index, pick. intros Hv. apply nth_In.
  destruct (Z.ltb_spec i 0); lia.
Qed.

Lemma map_result_map {A B} (f : A -> result B) (g : A -> B) (l : list A) :
  Forall (fun a => f a = Ok (g a)) l -> map_result f l = Ok (map g l).
Proof.
  induction 1 as [|a l Ha _ IH]; simpl; [reflexivity|].
  now rewrite Ha, IH.
Qed.

Lemma fold_left_max (l : list nat) (a : nat) :
  fold_left Nat.max l a = Nat.max a (list_max l).
Proof.
  revert a; induction l as [|b l IH]; intros a; simpl.
  - now rewrite Nat.max_0_r.
  - rewrite IH. now rewrite Nat.max_assoc.
Qed.

Lemma py_max_list_max (l : list nat) :
  l <> [] -> py_max l = Ok (list_max l).
Proof.
  destruct l as [|a l]; [congruence|]. intros _. simpl.
  now rewrite fold_left_max.
Qed.

Lemma list_max_attained (l : list nat) :
  l <> [] -> In (list_max l) l.
Proof.
  induction l as [|a l IH]; [congruence|]. intros _.
  destruct l as [|b l'].
  - left. simpl. now rewrite Nat.max_0_r.
  - change (list_max (a :: b :: l'))
      with (Nat.max a (list_max (b :: l'))).
    destruct (Nat.max_spec a (list_max (b :: l'))) as [[_ Hm]|[_ Hm]];
      rewrite Hm.
    + right. apply IH. discriminate.
    + now left.
Qed.

Lemma pad_right_padded (max_len : nat) (x : list Z) (pad_id : Z) :
  length x <= max_len -> pad_right max_len x pad_id = Ok (padded pad_id max_len x).
Proof.
  intros Hle. unfold pad_right, torch_full, padded.
  destruct (Z.ltb_spec (Z.of_nat max_len - Z.of_nat (length x)) 0);
    [lia|]. simpl. do 3 f_equal. lia.
Qed.

Lemma padded_length (pad_id : Z) (max_len : nat) (s : list Z) :
  length s <= max_len -> length (padded pad_id max_len s) = max_len.
Proof.
  intros Hle. unfold padded. rewrite length_app, repeat_length. lia.
Qed.

Lemma torch_stack_shape (rows : list (list Z)) (n : nat) :
  rows <> [] -> Forall (fun r => length r = n) rows ->
  torch_stack rows = Ok rows /\ shape rows = Some (length rows, n).
Proof.
  destruct rows as [|r rest]; [congruence|]. intros _ Hall.
  inversion Hall as [|? ? Hr Hrest]; subst.
  assert (Hb : forallb (fun r' => length r' =? length r) rest = true).
  { apply forallb_forall. intros r' Hin. apply Nat.eqb_eq.
    rewrite Forall_forall in Hrest. now apply Hrest. }
  unfold torch_stack, shape. rewrite Hb. split; reflexivity.
Qed.

Lemma padded_nth_own (pad_id : Z) (max_len : nat) (s : list Z) (j : nat) :
  j < length s -> nth_error (padded pad_id max_len s) j = nth_error s j.
Proof. intros Hj. unfold padded. now apply nth_error_app1. Qed.

Lemma padded_nth_pad (pad_id : Z) (max_len : nat) (s : list Z) (j : nat) :
  length s <= j < max_len ->
  nth_error (padded pad_id max_len s) j = Some pad_id.
Proof.
  intros [Hlo Hhi]. unfold padded. rewrite nth_error_app2 by exact Hlo.
  apply nth_error_repeat. lia.
Qed.

Lemma width_of_bound (data : list Example) (ix : list Z) (i : Z) :
  In i ix -> length (input_ids (pick data i)) <= width_of data ix.
Proof.
  intros Hin. unfold width_of.
  assert (H := proj1 (list_max_le
               (map (fun i => length (input_ids (pick data i))) ix)
               (list_max (map (fun i => length (input_ids (pick data i))) ix)))
               (Nat.le_refl _)).
  rewrite Forall_forall in H. apply H.
  apply in_map_iff. now exists i.
Qed.

Lemma collate_ok (data : list Example) (ix : list Z) :
  ix <> [] -> Forall (valid_index data) ix -> same_lengths data ->
  collate data ix =
    Ok (map (fun i => padded 0 (width_of data ix) (input_ids (pick data i))) ix,
        map (fun i => padded (-1) (width_of data ix) (labels (pick data i))) ix).
Proof.
  intros Hne Hval Hsame. unfold collate.
  rewrite (map_result_map _ (fun i => input_ids (pick data i))).
  2:{ eapply Forall_impl; [|exact Hval]. intros i Hi. simpl.
      now rewrite (list_getitem_pick _ _ Hi). }
  rewrite (map_result_map _ (fun i => labels (pick data i))).
  2:{ eapply Forall_impl; [|exact Hval]. intros i Hi. simpl.
      now rewrite (list_getitem_pick _ _ Hi). }
  cbn [rbind]. rewrite map_map.
  rewrite py_max_list_max by (destruct ix; [congruence | discriminate]).
  cbn [rbind]. fold (width_of data ix).
  rewrite (map_result_map _ (padded 0 (width_of data ix))).
  2:{ apply Forall_forall. intros x Hx. apply in_map_iff in Hx.
      destruct Hx as [i [<- Hi]]. apply pad_right_padded.
      now apply width_of_bound. }
  cbn [rbind]. rewrite map_map.
  destruct (torch_stack_shape
              (map (fun i => padded 0 (width_of data ix)
                               (input_ids (pick data i))) ix)
              (width_of data ix)) as [-> _].
  { destruct ix; [congruence | discriminate]. }
  { apply Forall_forall. intros r Hr. apply in_map_iff in Hr.
    destruct Hr as [i [<- Hi]]. apply padded_length.
    now apply width_of_bound. }
  cbn [rbind].
  assert (Hlab : forall i, In i ix ->
            length (labels (pick data i)) <= width_of data ix).
  { intros i Hi. rewrite Forall_forall in Hval.
    rewrite <- (Hsame _ (pick_In _ _ (Hval _ Hi))).
    now apply width_of_bound. }
  rewrite (map_result_map _ (padded (-1) (width_of data ix))).
  2:{ apply Forall_forall. intros x Hx. apply in_map_iff in Hx.
      destruct Hx as [i [<- Hi]]. apply pad_right_padded. now apply Hlab. }
  cbn [rbind]. rewrite map_map.
  destruct (torch_stack_shape
              (map (fun i => padded (-1) (width_of data ix)
                               (labels (pick data i))) ix)
              (width_of data ix)) as [-> _].
  { destruct ix; [congruence | discriminate]. }
  { apply Forall_forall. intros r Hr. apply in_map_iff in Hr.
    destruct Hr as [i [<- Hi]]. apply padded_length. now apply Hlab. }
  reflexivity.
Qed.

Lemma tensor_setitem0_ok (z v : Z) (rest : list Z) :
  fits_int64 v = true -> tensor_setitem0 (z :: rest) v = Ok (v :: rest).
Proof. intros Hfit. unfold tensor_setitem0. now rewrite Hfit. Qed.

Lemma used_indices_facts (data : list Example) (o : option Z) (g : Gen) :
  data <> [] -> 0 < micro_batch_size h -> valid_override data o ->
  length (used_indices h data o g) = micro_batch_size h /\
  Forall (valid_index data) (used_indices h data o g).
Proof.
  intros Hne Hmb Hov. unfold used_indices.
  assert (Hlen := draws_length (Z.of_nat (length data))
                    (micro_batch_size h) g).
  assert (Hpos : (0 < Z.of_nat (length data))%Z).
  { destruct data; [congruence | simpl; lia]. }
  assert (Hr := draws_range (Z.of_nat (length data))
                  (micro_batch_size h) g Hpos).
  set (ix := fst (draws (Z.of_nat (length data)) (micro_batch_size h) g))
    in *.
  assert (Hv : Forall (valid_index data) ix).
  { eapply Forall_impl; [|exact Hr]. intros i Hi. unfold valid_index. cbv beta in Hi. lia. }
  destruct o as [l|]; [|now split]. destruct Hov as [Hov _].
  destruct ix as [|i0 rest]; simpl in *; [lia|].
  split; [exact Hlen|]. inversion Hv; subst. now constructor.
Qed.

(** What a call returns when the data are well formed. *)
Lemma get_batch_ok (data : list Example) (o : option Z) (g : Gen) :
  data <> [] -> 0 < micro_batch_size h -> same_lengths data ->
  valid_override data o ->
  let ix := used_indices h data o g in
  get_batch h data o g =
    (Ok (map (fun i => padded 0 (width_of data ix) (input_ids (pick data i))) ix,
         map (fun i => padded (-1) (width_of data ix) (labels (pick data i))) ix),
     snd (draws (Z.of_nat (length data)) (micro_batch_size h) g)).
Proof.
  intros Hne Hmb Hsame Hov ix.
  destruct (used_indices_facts data o g Hne Hmb Hov) as [Hlen Hval].
  fold ix in Hlen, Hval.
  unfold get_batch, torch_randint.
  destruct (length data =? 0) eqn:Hz.
  { apply Nat.eqb_eq in Hz. destruct data; [congruence | discriminate]. }
  assert (Hdl := draws_length (Z.of_nat (length data))
                   (micro_batch_size h) g).
  subst ix. unfold used_indices in *.
  destruct (draws (Z.of_nat (length data)) (micro_batch_size h) g)
    as [dr g'] eqn:Hd.
  cbn [fst snd] in *.
  assert (Hbi : batch_indices dr o
                = Ok (match o with Some l => l :: tl dr | None => dr end)).
  { destruct o as [l|]; [|reflexivity]. unfold batch_indices.
    destruct Hov as [_ Hfit].
    destruct dr; simpl in *; [lia | now apply tensor_setitem0_ok]. }
  rewrite Hbi. cbn [rbind]. f_equal.
  apply collate_ok; [|exact Hval|exact Hsame].
  intros Hnil. rewrite Hnil in Hlen. simpl in Hlen. lia.
Qed.

(** C3. On a non-empty data set whose examples pair inputs and labels of
    equal length, [get_batch] returns two tensors of shape
    [micro_batch_size, max_len], [max_len] being the length of the longest
    example used in this call; each row starts with its example, and from
    the example's length on the input row holds 0 and the target row -1. *)
Theorem get_batch_shape_and_padding
        (data : list Example) (longest_seq_ix : option Z) (g : Gen) :
  data <> [] -> 0 < micro_batch_size h -> same_lengths data ->
  valid_override data longest_seq_ix ->
  exists ix x y g' max_len,
    get_batch h data longest_seq_ix g = (Ok (x, y), g') /\
    ix = used_indices h data longest_seq_ix g /\
    length ix = micro_batch_size h /\
    shape x = Some (micro_batch_size h, max_len) /\
    shape y = Some (micro_batch_size h, max_len) /\
    (exists i, In i ix /\ length (input_ids (pick data i)) = max_len) /\
    (forall i, In i ix -> length (input_ids (pick data i)) <= max_len) /\
    forall k i, nth_error ix k = Some i ->
      exists rx ry,
        nth_error x k = Some rx /\ nth_error y k = Some ry /\
        (forall j, j < length (input_ids (pick data i)) ->
           nth_error rx j = nth_error (input_ids (pick data i)) j /\
           nth_error ry j = nth_error (labels (pick data i)) j) /\
        (forall j, length (input_ids (pick data i)) <= j < max_len ->
           nth_error rx j = Some 0%Z /\ nth_error ry j = Some (-1)%Z).
Proof.
  intros Hne Hmb Hsame Hov.
  destruct (used_indices_facts data longest_seq_ix g Hne Hmb Hov)
    as [Hlen Hval].
  assert (Hgb := get_batch_ok data longest_seq_ix g Hne Hmb Hsame Hov).
  cbv zeta in Hgb.
  set (ix := used_indices h data longest_seq_ix g) in *.
  assert (Hix : ix <> []).
  { intros Hnil. rewrite Hnil in Hlen. simpl in Hlen. lia. }
  eexists ix, _, _, _, (width_of data ix).
  split; [exact Hgb|]. split; [reflexivity|]. split; [exact Hlen|].
  assert (Hshape : forall (pad : Z) (f : Example -> list Z),
             (forall i, In i ix -> length (f (pick data i)) <= width_of data ix) ->
             shape (map (fun i => padded pad (width_of data ix) (f (pick data i))) ix)
             = Some (micro_batch_size h, width_of data ix)).
  { intros pad f Hf.
    destruct (torch_stack_shape
                (map (fun i => padded pad (width_of data ix) (f (pick data i))) ix)
                (width_of data ix)) as [_ Hs].
    - destruct ix; [congruence | discriminate].
    - apply Forall_forall. intros r Hr. apply in_map_iff in Hr.
      destruct Hr as [i [<- Hi]]. apply padded_length. now apply Hf.
    - rewrite Hs, length_map, Hlen. reflexivity. }
  assert (Hlab : forall i, In i ix ->
            length (labels (pick data i)) = length (input_ids (pick data i))).
  { intros i Hi. rewrite Forall_forall in Hval. symmetry.
    apply Hsame. apply pick_In. now apply Hval. }
  split. { apply Hshape. intros i Hi. now apply width_of_bound. }
  split. { apply Hshape. intros i Hi. rewrite Hlab by exact Hi.
           now apply width_of_bound. }
  split.
  { assert (Hin := list_max_attained
               (map (fun i => length (input_ids (pick data i))) ix)).
    fold (width_of data ix) in Hin.
    destruct (proj1 (in_map_iff _ _ _)
                (Hin ltac:(destruct ix; [congruence | discriminate])))
      as [i [Hi1 Hi2]].
    now exists i. }
  split. { intros i Hi. now apply width_of_bound. }
  intros k i Hk.
  assert (Hi : In i ix) by (eapply nth_error_In; exact Hk).
  exists (padded 0 (width_of data ix) (input_ids (pick data i))),
         (padded (-1) (width_of data ix) (labels (pick data i))).
  split. { rewrite nth_error_map, Hk. reflexivity. }
  split. { rewrite nth_error_map, Hk. reflexivity. }
  split.
  - intros j Hj. split; apply padded_nth_own; [|rewrite Hlab by exact Hi];
      exact Hj.
  - intros j Hj. split; apply padded_nth_pad; [|rewrite Hlab by exact Hi];
      exact Hj.
Qed.

End SamplerFacts.

(** ** Running a computation step by step *)

Section Runs.

Context {E : Env}.

Lemma bind_inv {A B} (m : M A) (k : A -> M B) (w w' : World)
      (r : result B) :
  bind m k w = (r, w') ->
  (exists e, m w = (Raise e, w') /\ r = Raise e) \/
  (exists a w1, m w = (Ok a, w1) /\ k a w1 = (r, w')).
Proof.
  unfold bind. destruct (m w) as [[a|e] w1]; intros H.
  - right. now exists a, w1.
  - left. exists e. now inversion H.
Qed.

Lemma bind_ok {A B} (m : M A) (k : A -> M B) (w w1 : World) (a : A) :
  m w = (Ok a, w1) -> bind m k w = k a w1.
Proof. intros H. unfold bind. now rewrite H. Qed.

Lemma bind_raise {A B} (m : M A) (k : A -> M B) (w w1 : World) e :
  m w = (Raise e, w1) -> bind m k w = (Raise e, w1).
Proof. intros H. unfold bind. now rewrite H. Qed.

Lemma tick_inv (e : event) (w w' : World) (r : result unit) :
  tick e w = (r, w') -> r = Ok tt /\ w' = set_log (e :: log w) w.
Proof. unfold tick. intros H. now inversion H. Qed.

Lemma ret_inv {A} (a : A) (w w' : World) (r : result A) :
  ret a w = (r, w') -> r = Ok a /\ w' = w.
Proof. unfold ret. intros H. now inversion H. Qed.

Lemma raise_inv {A} (cls : string) (w w' : World) (r : result A) :
  raise cls w = (r, w') -> r = Raise cls /\ w' = w.
Proof. unfold raise. intros H. now inversion H. Qed.

Lemma lift_inv {A} (x : result A) (w w' : World) (r : result A) :
  lift x w = (r, w') -> r = x /\ w' = w.
Proof. unfold lift. intros H. now inversion H. Qed.

Lemma get_model_inv (w w' : World) (r : result Model) :
  get_model w = (r, w') -> r = Ok (model w) /\ w' = w.
Proof. unfold get_model. intros H. now inversion H. Qed.

Lemma modify_model_inv (f : Model -> Model) (w w' : World)
      (r : result unit) :
  modify_model f w = (r, w') -> r = Ok tt /\ w' = set_model (f (model w)) w.
Proof. unfold modify_model. intros H. now inversion H. Qed.

Lemma modify_optimizer_inv (f : Optimizer -> Optimizer) (w w' : World)
      (r : result unit) :
  modify_optimizer f w = (r, w') ->
  r = Ok tt /\ w' = set_optimizer (f (optimizer w)) w.
Proof. unfold modify_optimizer. intros H. now inversion H. Qed.

Lemma with_gen_inv {A} (f : Gen -> result A * Gen) (w w' : World)
      (r : result A) :
  with_gen f w = (r, w') ->
  exists g, f (gen w) = (r, g) /\ w' = set_gen g w.
Proof.
  unfold with_gen. destruct (f (gen w)) as [r0 g] eqn:Hf. intros H.
  exists g. now inversion H.
Qed.

Lemma apply_step_inv (w w' : World) (r : result unit) :
  apply_step w = (r, w') ->
  r = Ok tt /\
  w' = set_model
         (set_params
            (snd (optimizer_step (param_groups (optimizer w))
                    (opt_state (optimizer w)) (params (model w))
                    (grad (model w))))
            (model w))
         (set_optimizer
            {| param_groups := param_groups (optimizer w);
               opt_state :=
                 fst (optimizer_step (param_groups (optimizer w))
                        (opt_state (optimizer w)) (params (model w))
                        (grad (model w))) |} w).
Proof.
  unfold apply_step.
  destruct (optimizer_step (param_groups (optimizer w))
              (opt_state (optimizer w)) (params (model w)) (grad (model w)))
    as [s' p'].
  intros H. now inversion H.
Qed.

Section Closure.

Variable R : World -> World -> Prop.
Hypothesis R_refl : forall w, R w w.
Hypothesis R_trans : forall w1 w2 w3, R w1 w2 -> R w2 w3 -> R w1 w3.

Lemma preserves_ret {A} (a : A) : preserves R (ret a).
Proof. intros w r w' H. apply ret_inv in H as [_ ->]. apply R_refl. Qed.

Lemma preserves_raise {A} (cls : string) : preserves R (@raise E A cls).
Proof. intros w r w' H. apply raise_inv in H as [_ ->]. apply R_refl. Qed.

Lemma preserves_lift {A} (x : result A) : preserves R (lift x).
Proof. intros w r w' H. apply lift_inv in H as [_ ->]. apply R_refl. Qed.

Lemma preserves_get_model : preserves R get_model.
Proof.
  intros w r w' H. apply get_model_inv in H as [_ ->]. apply R_refl.
Qed.

Lemma preserves_bind {A B} (m : M A) (k : A -> M B) :
  preserves R m -> (forall a, preserves R (k a)) ->
  preserves R (bind m k).
Proof.
  intros Hm Hk w r w' H.
  apply bind_inv in H as [[e [H _]] | [a [w1 [H1 H2]]]].
  - eapply Hm; exact H.
  - eapply R_trans; [eapply Hm; exact H1 | eapply Hk; exact H2].
Qed.

Lemma preserves_for_loop {St} (body : nat -> St -> M St) :
  (forall i s, preserves R (body i s)) ->
  forall count start s, preserves R (for_loop start count body s).
Proof.
  intros Hb. induction count as [|c IH]; intros start s; simpl.
  - apply preserves_ret.
  - apply preserves_bind; [apply Hb | intros s'; apply IH].
Qed.

End Closure.

End Runs.

(** ** What a call leaves untouched *)

Section Frames.

Context {E : Env}.
Variable h : HParams.

Lemma keeps_refl {X} (f : World -> X) (w : World) : keeps f w w.
Proof. reflexivity. Qed.

Lemma keeps_trans {X} (f : World -> X) (w1 w2 w3 : World) :
  keeps f w1 w2 -> keeps f w2 w3 -> keeps f w1 w3.
Proof. unfold keeps. congruence. Qed.

Lemma logs_refl (P : event -> Prop) (w : World) : logs P w w.
Proof. exists []. split; [reflexivity | constructor]. Qed.

Lemma logs_trans (P : event -> Prop) (w1 w2 w3 : World) :
  logs P w1 w2 -> logs P w2 w3 -> logs P w1 w3.
Proof.
  intros [d1 [H1 F1]] [d2 [H2 F2]]. exists (d2 ++ d1). split.
  - rewrite H2, H1. now rewrite app_assoc.
  - apply Forall_app. now split.
Qed.

Lemma logs_weaken (P Q : event -> Prop) (w w' : World) :
  (forall e, P e -> Q e) -> logs P w w' -> logs Q w w'.
Proof.
  intros HPQ [d [Hd F]]. exists d. split; [exact Hd|].
  eapply Forall_impl; [exact HPQ | exact F].
Qed.

Lemma steps_in_app (d l : list event) :
  steps_in (d ++ l) = steps_in d + steps_in l.
Proof. unfold steps_in. now rewrite filter_app, length_app. Qed.

Lemma quiet_no_step (d : list event) : Forall quiet d -> steps_in d = 0.
Proof.
  induction 1 as [|e d He _ IH]; [reflexivity|].
  unfold steps_in in *. simpl. destruct e; simpl; try exact IH.
  destruct He.
Qed.

End Frames.

(** Primitive steps, for a relation of the form [keeps f]. *)
Ltac keeps_prim :=
  let w := fresh "w" in
  let r := fresh "r" in
  let w' := fresh "w'" in
  let H := fresh "H" in
  intros w r w' H;
  first
    [ apply tick_inv in H; destruct H as [_ H]
    | apply modify_model_inv in H; destruct H as [_ H]
    | apply modify_optimizer_inv in H; destruct H as [_ H]
    | apply apply_step_inv in H; destruct H as [_ H]
    | apply with_gen_inv in H; destruct H as [? [_ H]] ];
  rewrite H; reflexivity.

(** Primitive steps, for a relation of the form [logs P]. *)
Ltac logs_prim :=
  let w := fresh "w" in
  let r := fresh "r" in
  let w' := fresh "w'" in
  let H := fresh "H" in
  intros w r w' H;
  first
    [ apply tick_inv in H; destruct H as [_ H]; rewrite H;
      eexists [_]; split;
      [ reflexivity
      | constructor; [first [exact I | reflexivity | eauto] | constructor] ]
    | first
        [ apply modify_model_inv in H; destruct H as [_ H]
        | apply modify_optimizer_inv in H; destruct H as [_ H]
        | apply apply_step_inv in H; destruct H as [_ H]
        | apply with_gen_inv in H; destruct H as [? [_ H]] ];
      rewrite H; exists []; split; [reflexivity | constructor] ].

(** Structural steps; [refl_tac] and [trans_tac] prove that the relation is
    reflexive and transitive. *)
Ltac frame_struct refl_tac trans_tac :=
  cbv zeta;
  match goal with
  | |- preserves _ (bind _ _) =>
      apply preserves_bind; [trans_tac | | intros ?]
  | |- preserves _ (ret _) => apply preserves_ret; refl_tac
  | |- preserves _ (raise _) => apply preserves_raise; refl_tac
  | |- preserves _ (lift _) => apply preserves_lift; refl_tac
  | |- preserves _ get_model => apply preserves_get_model; refl_tac
  | |- preserves _ (for_range _ _ _) => unfold for_range
  | |- preserves _ (for_loop _ _ _ _) =>
      apply preserves_for_loop; [refl_tac | trans_tac | intros ? ?]
  | |- preserves _ (if ?b then _ else _) => destruct b
  | |- preserves _ (match ?x with _ => _ end) => destruct x
  end.

Ltac frame_keeps :=
  repeat first
    [ frame_struct ltac:(apply keeps_refl) ltac:(apply keeps_trans)
    | keeps_prim
    | solve [eauto] ].

Ltac frame_logs :=
  repeat first
    [ frame_struct ltac:(apply logs_refl) ltac:(apply logs_trans)
    | logs_prim
    | solve [eauto] ].

Section EvalFrames.

Context {E : Env}.
Variable h : HParams.

Lemma call_get_batch_inv (data : list Example) (o : option Z)
      (w w' : World) (r : result (Tensor2 * Tensor2)) :
  call_get_batch h data o w = (r, w') ->
  exists g, get_batch h data o (gen w) = (r, g) /\
            w' = set_gen g (set_log (EvGetBatch o :: log w) w).
Proof.
  unfold call_get_batch. intros H.
  apply bind_inv in H as [[e [H _]] | [[] [w1 [H1 H2]]]].
  - apply tick_inv in H as [H _]. discriminate.
  - apply tick_inv in H1 as [_ ->].
    apply with_gen_inv in H2 as [g [Hg ->]]. now exists g.
Qed.

Lemma validate_step_keeps {X} (f : World -> X) data k losses :
  (forall l w, f (set_log l w) = f w) ->
  (forall g w, f (set_gen g w) = f w) ->
  preserves (keeps f) (validate_step h data k losses).
Proof.
  intros Hl Hg. unfold validate_step, call_get_batch.
  repeat first
    [ frame_struct ltac:(apply keeps_refl) ltac:(apply keeps_trans)
    | intros w r w' H; apply tick_inv in H as [_ ->]; apply Hl
    | intros w r w' H; apply with_gen_inv in H as [? [_ ->]]; apply Hg ].
Qed.

Lemma validate_step_logs data k losses :
  preserves (logs quiet) (validate_step h data k losses).
Proof. unfold validate_step, call_get_batch. frame_logs. Qed.

Lemma validate_inv (val_data : list Example) (w w' : World) (r : result Scalar) :
  validate h val_data w = (r, w') ->
  exists w1, validate_body h val_data (set_inference_mode true w) = (r, w1)
             /\ w' = set_inference_mode (inference_mode w) w1.
Proof.
  unfold validate.
  destruct (validate_body h val_data (set_inference_mode true w))
    as [r0 w1]. intros H. exists w1. now inversion H.
Qed.

(** [validate_body] touches the generator, the log and two flags of the
    model; whatever does not read them is kept. *)
Lemma validate_body_keeps {X} (f : World -> X) val_data :
  (forall l w, f (set_log l w) = f w) ->
  (forall g w, f (set_gen g w) = f w) ->
  (forall b w, f (set_model (set_training b (model w)) w) = f w) ->
  (forall b w, f (set_model (set_kv b (model w)) w) = f w) ->
  preserves (keeps f) (validate_body h val_data).
Proof.
  intros Hl Hg Ht Hk. unfold validate_body, model_eval, model_train.
  repeat first
    [ frame_struct ltac:(apply keeps_refl) ltac:(apply keeps_trans)
    | apply validate_step_keeps; assumption
    | intros w r w' H; apply tick_inv in H as [_ ->]; apply Hl
    | intros w r w' H; apply with_gen_inv in H as [? [_ ->]]; apply Hg
    | intros w r w' H; apply modify_model_inv in H as [_ ->];
      first [apply Ht | apply Hk] ].
Qed.

Lemma validate_keeps {X} (f : World -> X) val_data :
  (forall l w, f (set_log l w) = f w) ->
  (forall g w, f (set_gen g w) = f w) ->
  (forall b w, f (set_model (set_training b (model w)) w) = f w) ->
  (forall b w, f (set_model (set_kv b (model w)) w) = f w) ->
  (forall b w, f (set_inference_mode b w) = f w) ->
  preserves (keeps f) (validate h val_data).
Proof.
  intros Hl Hg Ht Hk Hi w r w' H.
  apply validate_inv in H as [w1 [H ->]].
  apply (validate_body_keeps f val_data Hl Hg Ht Hk) in H.
  unfold keeps in *. now rewrite Hi, H, Hi.
Qed.

Lemma validate_body_logs val_data :
  preserves (logs quiet) (validate_body h val_data).
Proof.
  unfold validate_body, model_eval, model_train.
  repeat first
    [ frame_struct ltac:(apply logs_refl) ltac:(apply logs_trans)
    | apply validate_step_logs
    | logs_prim ].
Qed.

Lemma validate_logs val_data : preserves (logs quiet) (validate h val_data).
Proof.
  intros w r w' H. apply validate_inv in H as [w1 [H ->]].
  apply validate_body_logs in H. exact H.
Qed.

(** The decorator restores the inference mode on every path. *)
Lemma validate_inference_mode val_data :
  preserves (keeps inference_mode) (validate h val_data).
Proof.
  intros w r w' H. apply validate_inv in H as [w1 [_ ->]]. reflexivity.
Qed.

End EvalFrames.

(** Peel the first action off a run [H : bind m k w = (r, w')]: one goal for
    [m] raising, one for [m] returning; runs of primitive actions are
    resolved on the spot. *)
Ltac prim_inv H :=
  first
    [ apply tick_inv in H; destruct H as [H ?]
    | apply ret_inv in H; destruct H as [H ?]
    | apply raise_inv in H; destruct H as [H ?]
    | apply get_model_inv in H; destruct H as [H ?]
    | apply modify_model_inv in H; destruct H as [H ?]
    | apply modify_optimizer_inv in H; destruct H as [H ?]
    | apply apply_step_inv in H; destruct H as [H ?]
    | apply lift_inv in H; destruct H as [H ?] ];
  first [discriminate H | (try (injection H as H)); subst].

Ltac exec H :=
  let Hm := fresh "Hm" in
  let Hr := fresh "Hr" in
  apply bind_inv in H;
  destruct H as [[? [Hm Hr]] | [? [? [Hm H]]]];
  [ first [discriminate Hr | try prim_inv Hm; try subst]
  | try prim_inv Hm ].

Section EvalFacts.

Context {E : Env}.
Variable h : HParams.

Lemma model_eval_inv (w w' : World) (r : result unit) :
  model_eval w = (r, w') ->
  r = Ok tt /\
  w' = set_model (set_training false (model w)) (set_log (EvEval :: log w) w).
Proof.
  unfold model_eval. intros H. exec H. prim_inv H. now split.
Qed.

Lemma model_train_inv (w w' : World) (r : result unit) :
  model_train w = (r, w') ->
  r = Ok tt /\
  w' = set_model (set_training true (model w)) (set_log (EvTrain :: log w) w).
Proof.
  unfold model_train. intros H. exec H. prim_inv H. now split.
Qed.

Lemma validate_body_training (val_data : list Example) (w w' : World)
      (r : result Scalar) :
  validate_body h val_data w = (r, w') ->
  training (model w') = match r with Ok _ => true | Raise _ => false end.
Proof.
  unfold validate_body. intros H.
  exec H.
  apply bind_inv in H as [[e [Hm ->]] | [[] [w1 [Hm H]]]];
    [apply model_eval_inv in Hm as [Hm _]; discriminate|].
  apply model_eval_inv in Hm as [_ ->].
  assert (Hloop : forall n s, preserves (keeps (fun w => training (model w)))
                    (for_range n (validate_step h val_data) s)).
  { intros n s. unfold for_range. apply preserves_for_loop;
      [apply keeps_refl | apply keeps_trans |].
    intros i s'. apply validate_step_keeps; reflexivity. }
  apply bind_inv in H as [[e [Hm ->]] | [losses [w1 [Hm H]]]].
  { apply Hloop in Hm. exact Hm. }
  apply Hloop in Hm. unfold keeps in Hm. cbn in Hm.
  exec H.
  exec H; [exact Hm|].
  exec H; [exact Hm|].
  exec H.
  exec H; [exact Hm|].
  exec H.
  exec H.
  apply bind_inv in H as [[e [Hg ->]] | [output [w2 [Hg H]]]].
  { apply with_gen_inv in Hg as [g [_ ->]]. exact Hm. }
  apply with_gen_inv in Hg as [g [_ ->]].
  exec H.
  exec H; [exact Hm|].
  exec H.
  apply bind_inv in H as [[e [Ht ->]] | [[] [w3 [Ht H]]]];
    [apply model_train_inv in Ht as [Ht _]; discriminate|].
  apply model_train_inv in Ht as [_ ->].
  prim_inv H. reflexivity.
Qed.

(** On return the model is in training mode; when an exception leaves
    [validate], the model is still in evaluation mode. *)
Lemma validate_training (val_data : list Example) (w w' : World)
      (r : result Scalar) :
  validate h val_data w = (r, w') ->
  training (model w') = match r with Ok _ => true | Raise _ => false end.
Proof.
  intros H. apply validate_inv in H as [w1 [H ->]].
  apply validate_body_training in H. exact H.
Qed.

Lemma list_set_length {A} (l : list A) (k : nat) (v : A) :
  length (list_set l k v) = length l.
Proof.
  revert k; induction l as [|a l IH]; intros k; [reflexivity|].
  destruct k; simpl; [reflexivity | now rewrite IH].
Qed.

Lemma firstn_list_set {A} (l : list A) (k : nat) (v : A) :
  k < length l -> firstn (S k) (list_set l k v) = firstn k l ++ [v].
Proof.
  revert k; induction l as [|a l IH]; intros k Hk; simpl in Hk; [lia|].
  destruct k as [|k]; [reflexivity|].
  change (a :: firstn (S k) (list_set l k v) = a :: (firstn k l ++ [v])).
  f_equal. apply IH. lia.
Qed.

Lemma skipn_list_set {A} (l : list A) (k n : nat) (v : A) :
  k < n -> skipn n (list_set l k v) = skipn n l.
Proof.
  revert k n; induction l as [|a l IH]; intros k n Hk.
  - reflexivity.
  - destruct n as [|n]; [lia|]. destruct k as [|k]; [reflexivity|].
    simpl. apply IH. lia.
Qed.

Lemma validate_step_inv (val_data : list Example) (k : nat)
      (ls ls1 : list Scalar) (w w1 : World) :
  validate_step h val_data k ls w = (Ok ls1, w1) ->
  exists b l,
    get_batch h val_data None (gen w) = (Ok b, gen w1) /\
    batch_loss (model w) b = Ok l /\
    ls1 = list_set ls k (to_float32 l) /\
    model w1 = model w /\
    batches_in (log w1) = S (batches_in (log w)).
Proof.
  unfold validate_step. intros H.
  apply bind_inv in H as [[e [Hm Hr]] | [b [w2 [Hm H]]]];
    [discriminate|].
  apply call_get_batch_inv in Hm as [g [Hg ->]].
  exec H. exec H. exec H. exec H. prim_inv H.
  exists b, x0. unfold batch_loss. cbn.
  rewrite <- Hm. cbn. rewrite <- Hm0.
  repeat split; try reflexivity. exact Hg.
Qed.

(** The loss loop, from position [start] on: it draws [count] batches in a
    row and stores their losses at positions [start], [start + 1], ... *)
Lemma validate_loop_spec (val_data : list Example) (count : nat) :
  forall (start : nat) (ls ls' : list Scalar) (w w' : World),
    for_loop start count (validate_step h val_data) ls w = (Ok ls', w') ->
    start + count <= length ls ->
    exists bs losses,
      successive_batches h val_data count (gen w) = (Ok bs, gen w') /\
      length bs = count /\
      Forall2 (fun b l => batch_loss (model w) b = Ok l) bs losses /\
      ls' = firstn start ls ++ map to_float32 losses
            ++ skipn (start + count) ls /\
      model w' = model w /\
      batches_in (log w') = batches_in (log w) + count.
Proof.
  induction count as [|c IH]; intros start ls ls' w w' H Hlen.
  - simpl in H. prim_inv H. exists [], []. rewrite Nat.add_0_r.
    split; [reflexivity|]. split; [reflexivity|]. split; [constructor|].
    split; [simpl; now rewrite firstn_skipn|]. split; [reflexivity | lia].
  - simpl in H.
    apply bind_inv in H as [[e [Hm Hr]] | [ls1 [w1 [Hm H]]]];
      [discriminate|].
    apply validate_step_inv in Hm
      as [b [l [Hb [Hl [-> [Hmod Hcnt]]]]]].
    apply IH in H; [|rewrite list_set_length; lia].
    destruct H as [bs [losses [Hs [Hbl [Hf [-> [Hmod' Hcnt']]]]]]].
    exists (b :: bs), (l :: losses). simpl successive_batches.
    rewrite Hb, Hs.
    split; [reflexivity|]. split; [simpl; now rewrite Hbl|].
    split; [|split; [|split]].
    + constructor; [exact Hl|]. now rewrite <- Hmod.
    + rewrite firstn_list_set by lia.
      rewrite skipn_list_set by lia.
      rewrite <- app_assoc. simpl.
      now replace (start + S c) with (S start + c) by lia.
    + congruence.
    + lia.
Qed.

Lemma forall2_length {A B} (R : A -> B -> Prop) (l : list A) (l' : list B) :
  Forall2 R l l' -> length l = length l'.
Proof. induction 1; simpl; congruence. Qed.

Lemma validate_body_spec (val_data : list Example) (w w' : World) (v : Scalar) :
  validate_body h val_data w = (Ok v, w') ->
  exists bs losses g1,
    successive_batches h val_data (eval_iters h) (gen w) = (Ok bs, g1) /\
    length bs = eval_iters h /\
    Forall2 (fun b l => batch_loss (set_training false (model w)) b = Ok l)
            bs losses /\
    v = tensor_mean (map to_float32 losses) /\
    batches_in (log w') = batches_in (log w) + eval_iters h.
Proof.
  unfold validate_body. intros H.
  exec H.
  apply bind_inv in H as [[e [Hm Hr]] | [[] [w1 [Hm H]]]]; [discriminate|].
  apply model_eval_inv in Hm as [_ ->].
  apply bind_inv in H as [[e [Hm Hr]] | [ls' [w1 [Hm H]]]]; [discriminate|].
  unfold for_range in Hm.
  apply validate_loop_spec in Hm; [|rewrite repeat_length; lia].
  destruct Hm as [bs [losses [Hs [Hlen [Hf [-> [Hmod Hcnt]]]]]]].
  cbn in Hs, Hf, Hcnt.
  exists bs, losses, (gen w1).
  split; [exact Hs|]. split; [exact Hlen|]. split; [exact Hf|].
  assert (Hskip : skipn (eval_iters h) (repeat float32_zero (eval_iters h))
                  = []).
  { apply skipn_all2. rewrite repeat_length. lia. }
  cbn [firstn Nat.add app] in H. rewrite Hskip, app_nil_r in H.
  exec H. exec H. exec H. exec H. exec H. exec H. exec H.
  apply bind_inv in H as [[e [Hg Hr]] | [output [w2 [Hg H]]]];
    [discriminate|].
  apply with_gen_inv in Hg as [g [_ ->]].
  exec H. exec H. exec H.
  apply bind_inv in H as [[e [Ht Hr]] | [[] [w3 [Ht H]]]]; [discriminate|].
  apply model_train_inv in Ht as [_ ->].
  prim_inv H. split; [reflexivity|].
  cbn. exact Hcnt.
Qed.

End EvalFacts.

(** ** Evaluation *)

Section Evaluation.

Context {E : Env}.
Variable h : HParams.

Lemma nth_error_removelast {A} (row : list A) (i : nat) :
  nth_error (removelast row) i =
  if S i <? length row then nth_error row i else None.
Proof.
  revert i; induction row as [|a row IH]; intros i.
  - now destruct i.
  - destruct row as [|b row].
    + now destruct i.
    + change (removelast (a :: b :: row)) with (a :: removelast (b :: row)).
      destruct i as [|i]; [reflexivity|].
      change (nth_error (removelast (b :: row)) i =
              if S (S i) <? S (length (b :: row))
              then nth_error (b :: row) i else None).
      rewrite IH. reflexivity.
Qed.

Lemma nth_error_tl {A} (row : list A) (i : nat) :
  nth_error (tl row) i = nth_error row (S i).
Proof. destruct row; [now destruct i | reflexivity]. Qed.

Lemma update_last_spec {A} (f : A -> A) (l l' : list A) :
  update_last f l = Ok l' ->
  exists front a, l = front ++ [a] /\ l' = front ++ [f a].
Proof.
  revert l'; induction l as [|a l IH]; intros l' H; [discriminate|].
  destruct l as [|b l].
  - injection H as <-. now exists [], a.
  - change (update_last f (a :: b :: l))
      with (match update_last f (b :: l) with
            | Ok r => Ok (a :: r)
            | Raise e => Raise e
            end) in H.
    destruct (update_last f (b :: l)) as [r|e]; [|discriminate].
    injection H as <-.
    destruct (IH r eq_refl) as [front [c [Hl Hr]]].
    exists (a :: front), c. simpl. now rewrite Hl, Hr.
Qed.

(** The loss of a training pass: the last chunk of logits loses its last
    position, the targets lose their first. *)
Lemma forward_backward_loss (x y : Tensor2) (acc : bool) (loss : Scalar)
      (w w1 : World) :
  forward_backward h x y acc w = (Ok loss, w1) ->
  exists front last_chunk,
    forward_chunked (params (model w)) (training (model w))
                    (max_seq_length (model w)) x 128
      = Ok (front ++ [last_chunk]) /\
    chunked_cross_entropy
      (Chunked (front ++ [map (@removelast Vec) last_chunk]))
      (map (@tl Z) y) 128 = Ok loss.
Proof.
  unfold forward_backward. intros H.
  exec H. exec H. exec H. exec H. exec H. exec H. exec H. prim_inv H.
  symmetry in Hm0. apply update_last_spec in Hm0 as [front [c [-> ->]]].
  exists front, c. now split.
Qed.

(** C6. A call of [validate] that returns has drawn exactly [eval_iters]
    batches through [get_batch], one after the other on the global
    generator; the loss of each is the cross entropy of the logits without
    their last position against the targets without their first, so
    that position [i] of the logits meets target [i + 1], which is the
    shift of a training pass; and the value returned is the mean, as
    torch computes it in float32, of the tensor whose [eval_iters] entries
    are exactly these losses, in the order drawn and each converted to
    float32 when stored: no entry of the tensor is left at its initial
    zero and no loss is counted twice. *)
Theorem validate_mean_of_batch_losses
        (val_data : list Example) (w w' : World) (v : Scalar) :
  validate h val_data w = (Ok v, w') ->
  (exists bs losses g1,
      successive_batches h val_data (eval_iters h) (gen w) = (Ok bs, g1) /\
      length bs = eval_iters h /\
      batches_in (log w') = batches_in (log w) + eval_iters h /\
      Forall2
        (fun b l =>
           exists logits,
             forward (params (model w)) false (max_seq_length (model w))
                     (fst b) = Ok logits /\
             chunked_cross_entropy (Whole (map (@removelast Vec) logits))
                                   (map (@tl Z) (snd b)) 0 = Ok l)
        bs losses /\
      length losses = eval_iters h /\
      v = tensor_mean (map to_float32 losses)) /\
  (forall (row : list Vec) (i : nat),
      nth_error (removelast row) i =
      if S i <? length row then nth_error row i else None) /\
  (forall (row : list Z) (i : nat),
      nth_error (tl row) i = nth_error row (S i)) /\
  (forall x y acc loss u u1,
      forward_backward h x y acc u = (Ok loss, u1) ->
      exists front last_chunk,
        forward_chunked (params (model u)) (training (model u))
                        (max_seq_length (model u)) x 128
          = Ok (front ++ [last_chunk]) /\
        chunked_cross_entropy
          (Chunked (front ++ [map (@removelast Vec) last_chunk]))
          (map (@tl Z) y) 128 = Ok loss).
Proof.
  intros H. split; [|split; [|split]].
  - apply validate_inv in H as [w1 [H ->]].
    apply validate_body_spec in H
      as [bs [losses [g1 [Hs [Hlen [Hf [-> Hcnt]]]]]]].
    cbn in Hs, Hf, Hcnt |- *.
    exists bs, losses, g1.
    split; [exact Hs|]. split; [exact Hlen|]. split; [exact Hcnt|].
    split.
    { eapply Forall2_impl; [|exact Hf]. intros b l Hb. cbv beta in Hb.
      unfold batch_loss in Hb. cbn in Hb.
      match type of Hb with
      | context [rbind ?x _] => destruct x as [logits|e] eqn:Hfw
      end; cbn in Hb; [|discriminate].
      exists logits. split; [exact Hfw | exact Hb]. }
    split; [|reflexivity].
    now rewrite <- (forall2_length _ _ _ Hf).
  - apply nth_error_removelast.
  - apply nth_error_tl.
  - apply forward_backward_loss.
Qed.

(** C7, as the code has it.  When [validate] returns, the model is back in
    training mode; when an exception leaves it, the model stays in
    evaluation mode.  The inference mode of the decorator is restored on
    both paths. *)
Theorem validate_mode_on_exit (val_data : list Example) (w : World) :
  training (model (snd (validate h val_data w))) =
    match fst (validate h val_data w) with
    | Ok _ => true
    | Raise _ => false
    end /\
  inference_mode (snd (validate h val_data w)) = inference_mode w.
Proof.
  destruct (validate h val_data w) as [r w'] eqn:H. simpl. split.
  - eapply validate_training. exact H.
  - eapply validate_inference_mode. exact H.
Qed.

Lemma torch_randint_raises_iff (data : list Example) (n : nat) (g : Gen) :
  (exists e g', torch_randint (length data) n g = (Raise e, g')) <->
  data = [].
Proof.
  unfold torch_randint. split.
  - intros [e [g' H]]. destruct data as [|d data]; [reflexivity|].
    simpl in H. destruct (draws _ n g). discriminate.
  - intros ->. now exists "RuntimeError", g.
Qed.

(** C8, as the code has it.  On an empty example set [get_batch] never
    succeeds: the index draw refuses the empty range and its
    [RuntimeError] leaves the function, whatever the override, the batch
    size and the generator, which is not advanced; the index draw fails
    for no other data; and a [validate] that is to draw at least one batch
    from an empty set ends with that same [RuntimeError].  The script
    defines no error class of its own for this case. *)
Theorem get_batch_empty_raises (longest_seq_ix : option Z) (w : World) :
  get_batch h [] longest_seq_ix (gen w) = (Raise "RuntimeError", gen w) /\
  (forall data : list Example,
      (exists e g', torch_randint (length data) (micro_batch_size h) (gen w)
                    = (Raise e, g')) <-> data = []) /\
  (0 < eval_iters h ->
   fst (validate h [] w) = Raise "RuntimeError" /\
   gen (snd (validate h [] w)) = gen w).
Proof.
  split; [reflexivity|]. split.
  - intros data. apply torch_randint_raises_iff.
  - intros Hpos. unfold validate, validate_body, for_range.
    destruct (eval_iters h) as [|n]; [lia|].
    split; reflexivity.
Qed.

End Evaluation.

(** ** The training loop *)

Ltac unfold_blocks :=
  unfold warmup_update, forward_backward, optimizer_update,
    do_optimizer_step, log_progress, periodic_eval, periodic_save,
    call_get_batch, save_lora_checkpoint, set_lr, zero_grad.

(** [logs_prim], with [tac] to show that the event of a [tick] is allowed. *)
Ltac logs_prim_with tac :=
  let w := fresh "w" in
  let r := fresh "r" in
  let w' := fresh "w'" in
  let H := fresh "H" in
  intros w r w' H;
  first
    [ apply tick_inv in H; destruct H as [_ H]; rewrite H;
      eexists [_]; split;
      [ reflexivity | constructor; [tac | constructor] ]
    | first
        [ apply modify_model_inv in H; destruct H as [_ H]
        | apply modify_optimizer_inv in H; destruct H as [_ H]
        | apply apply_step_inv in H; destruct H as [_ H]
        | apply with_gen_inv in H; destruct H as [? [_ H]] ];
      rewrite H; exists []; split; [reflexivity | constructor] ].

Section Training.

Context {E : Env}.
Variable h : HParams.

Lemma validate_frame (val_data : list Example) (w w' : World) (r : result Scalar) :
  validate h val_data w = (r, w') ->
  optimizer w' = optimizer w /\
  params (model w') = params (model w) /\
  grad (model w') = grad (model w) /\
  max_seq_length (model w') = max_seq_length (model w) /\
  steps_in (log w') = steps_in (log w).
Proof.
  intros H.
  assert (Ho := validate_keeps h optimizer val_data
                  ltac:(reflexivity) ltac:(reflexivity) ltac:(reflexivity)
                  ltac:(reflexivity) ltac:(reflexivity) _ _ _ H).
  assert (Hp := validate_keeps h (fun w => params (model w)) val_data
                  ltac:(reflexivity) ltac:(reflexivity) ltac:(reflexivity)
                  ltac:(reflexivity) ltac:(reflexivity) _ _ _ H).
  assert (Hg := validate_keeps h (fun w => grad (model w)) val_data
                  ltac:(reflexivity) ltac:(reflexivity) ltac:(reflexivity)
                  ltac:(reflexivity) ltac:(reflexivity) _ _ _ H).
  assert (Hm := validate_keeps h (fun w => max_seq_length (model w)) val_data
                  ltac:(reflexivity) ltac:(reflexivity) ltac:(reflexivity)
                  ltac:(reflexivity) ltac:(reflexivity) _ _ _ H).
  destruct (validate_logs h val_data _ _ _ H) as [d [Hd Hq]].
  repeat split; try assumption.
  rewrite Hd, steps_in_app, (quiet_no_step d Hq). reflexivity.
Qed.

Lemma validate_logs_weak (P : event -> Prop) (val_data : list Example) :
  (forall e, quiet e -> P e) -> preserves (logs P) (validate h val_data).
Proof.
  intros HP w r w' H. eapply logs_weaken; [exact HP|].
  eapply validate_logs. exact H.
Qed.

Lemma py_mod_inv (a b r : nat) :
  py_mod a b = Ok r -> b <> 0 /\ r = a mod b.
Proof.
  unfold py_mod. destruct (Nat.eqb_spec b 0); [discriminate|].
  intros H. injection H as <-. now split.
Qed.

Lemma preserves_bind_lift {A B} (R : World -> World -> Prop)
      (x : result A) (k : A -> M B) :
  (forall w, R w w) ->
  (forall a, x = Ok a -> preserves R (k a)) ->
  preserves R (bind (lift x) k).
Proof.
  intros Hrefl Hk w r w' H.
  apply bind_inv in H as [[e [H _]] | [a [w1 [H1 H2]]]].
  - apply lift_inv in H as [_ ->]. apply Hrefl.
  - apply lift_inv in H1 as [H1 ->]. eapply Hk; [symmetry; exact H1 | exact H2].
Qed.

(** Only the first pass hands an override to [get_batch], and it is the
    index of the longest training example. *)
Lemma train_iter_overrides (train_data val_data : list Example)
      (longest_seq_ix iter_num : nat) (st : LoopState) :
  preserves
    (logs (fun e => forall l, e = EvGetBatch (Some l) ->
                    iter_num = 0 /\ l = Z.of_nat longest_seq_ix))
    (train_iter h train_data val_data longest_seq_ix iter_num st).
Proof.
  unfold train_iter. unfold_blocks.
  repeat first
    [ frame_struct ltac:(apply logs_refl) ltac:(apply logs_trans)
    | apply validate_logs_weak; intros [] Hq l0 He;
      solve [discriminate He | injection He as ->; destruct Hq]
    | logs_prim_with
        ltac:(intros l0 He;
              first [ discriminate He
                    | destruct (Nat.eqb_spec iter_num 0);
                      [injection He as <-; now split | discriminate He] ]) ].
Qed.

Lemma not_step_no_step (d : list event) :
  Forall (fun e => is_step e = false) d -> steps_in d = 0.
Proof.
  induction 1 as [|e d He _ IH]; [reflexivity|].
  unfold steps_in in *. simpl. now rewrite He.
Qed.

Lemma logs_no_step (w w' : World) :
  logs (fun e => is_step e = false) w w' ->
  steps_in (log w') = steps_in (log w).
Proof.
  intros [d [Hd Hf]]. rewrite Hd, steps_in_app, (not_step_no_step d Hf).
  reflexivity.
Qed.

(** An iteration that accumulates leaves the optimizer state and the
    weights alone and calls no [optimizer.step()], whatever else happens
    in it. *)
Lemma train_iter_accumulating (train_data val_data : list Example)
      (longest_seq_ix iter_num : nat) (st : LoopState) (w w' : World)
      (r : result LoopState) :
  (iter_num + 1) mod gradient_accumulation_iters h <> 0 ->
  train_iter h train_data val_data longest_seq_ix iter_num st w = (r, w') ->
  opt_state (optimizer w') = opt_state (optimizer w) /\
  params (model w') = params (model w) /\
  steps_in (log w') = steps_in (log w).
Proof.
  intros Hacc H.
  assert (Hk : forall X (f : World -> X),
             (forall l w, f (set_log l w) = f w) ->
             (forall g w, f (set_gen g w) = f w) ->
             (forall pg w, f (set_optimizer
                                {| param_groups := pg;
                                   opt_state := opt_state (optimizer w) |} w)
                           = f w) ->
             (forall g w, f (set_model (set_grad g (model w)) w) = f w) ->
             f w' = f w).
  { intros X f Hl Hg Ho Hgr. revert w r w' H.
    change (preserves (keeps f)
              (train_iter h train_data val_data longest_seq_ix iter_num st)).
    unfold train_iter.
    apply preserves_bind; [apply keeps_trans | | intros _].
    { unfold_blocks.
      repeat first
        [ frame_struct ltac:(apply keeps_refl) ltac:(apply keeps_trans)
        | intros w r w' H; apply tick_inv in H as [_ ->]; apply Hl
        | intros w r w' H; apply modify_optimizer_inv in H as [_ ->];
          apply Ho ]. }
    apply preserves_bind; [apply keeps_trans | | intros b].
    { unfold_blocks.
      repeat first
        [ frame_struct ltac:(apply keeps_refl) ltac:(apply keeps_trans)
        | intros w r w' H; apply tick_inv in H as [_ ->]; apply Hl
        | intros w r w' H; apply with_gen_inv in H as [? [_ ->]]; apply Hg ]. }
    cbv zeta. apply preserves_bind_lift; [apply keeps_refl|].
    intros r0 Hr0. apply py_mod_inv in Hr0 as [_ ->].
    replace (_ =? 0) with false by (symmetry; apply Nat.eqb_neq; exact Hacc).
    unfold_blocks. cbn [negb].
    repeat first
      [ frame_struct ltac:(apply keeps_refl) ltac:(apply keeps_trans)
      | intros w r w' H; apply tick_inv in H as [_ ->]; apply Hl
      | intros w r w' H; apply modify_model_inv in H as [_ ->]; apply Hgr ]. }
  split; [|split].
  - apply (Hk _ (fun w => opt_state (optimizer w))); reflexivity.
  - apply (Hk _ (fun w => params (model w))); reflexivity.
  - apply logs_no_step. clear Hk. revert w r w' H.
    change (preserves (logs (fun e => is_step e = false))
              (train_iter h train_data val_data longest_seq_ix iter_num st)).
    unfold train_iter.
    apply preserves_bind; [apply logs_trans | | intros _].
    { unfold_blocks. frame_logs. }
    apply preserves_bind; [apply logs_trans | | intros b].
    { unfold_blocks. frame_logs. }
    cbv zeta. apply preserves_bind_lift; [apply logs_refl|].
    intros r0 Hr0. apply py_mod_inv in Hr0 as [_ ->].
    replace (_ =? 0) with false by (symmetry; apply Nat.eqb_neq; exact Hacc).
    unfold_blocks. cbn [negb]. frame_logs.
Qed.

(** A pass that accumulates calls neither [optimizer.step()] nor
    [optimizer.zero_grad()], whatever its outcome. *)
Lemma train_iter_accumulating_quiet (train_data val_data : list Example)
      (longest_seq_ix iter_num : nat) (st : LoopState) :
  (iter_num + 1) mod gradient_accumulation_iters h <> 0 ->
  preserves (logs (fun e => is_update e = false))
            (train_iter h train_data val_data longest_seq_ix iter_num st).
Proof.
  intros Hacc. unfold train_iter.
  apply preserves_bind; [apply logs_trans | | intros _].
  { unfold_blocks. frame_logs. }
  apply preserves_bind; [apply logs_trans | | intros b].
  { unfold_blocks. frame_logs. }
  cbv zeta. apply preserves_bind_lift; [apply logs_refl|].
  intros r0 Hr0. apply py_mod_inv in Hr0 as [_ ->].
  replace (_ =? 0) with false by (symmetry; apply Nat.eqb_neq; exact Hacc).
  unfold_blocks. cbn [negb]. frame_logs.
Qed.

Lemma py_float_ok (n : nat) (a : float) :
  py_float n = Ok a -> a = float_of_nat n.
Proof.
  unfold py_float, float_of_nat.
  destruct (binary_normalize prec emax (Z.of_nat n) 0 false); intros H;
    first [discriminate | now injection H as <-].
Qed.

(** A rate that is computed is the binary64 quotient, and its divisor is
    not zero. *)
Lemma warmup_lr_ok (sc : nat) (v : float) :
  warmup_lr h sc = Ok v -> v = warmup_value h sc /\ warmup_steps h <> 0.
Proof.
  unfold warmup_lr. intros H.
  destruct (py_float sc) as [a|e] eqn:Ha; [|discriminate].
  cbn [rbind] in H. cbv zeta in H.
  destruct (py_float (warmup_steps h)) as [b|e] eqn:Hb; [|discriminate].
  cbn [rbind] in H.
  destruct (is_zero b) eqn:Hz; [discriminate|]. injection H as <-.
  apply py_float_ok in Ha. apply py_float_ok in Hb. subst a b. split.
  - reflexivity.
  - intros Hw. rewrite Hw in Hz. vm_compute in Hz. discriminate.
Qed.

Lemma warmup_lr_zero (sc : nat) :
  warmup_steps h = 0 -> sc <= warmup_steps h ->
  warmup_lr h sc = Raise "ZeroDivisionError".
Proof.
  intros Hw Hle. rewrite Hw in Hle. assert (sc = 0) as -> by lia.
  unfold warmup_lr. rewrite Hw. reflexivity.
Qed.

Lemma warmup_update_ok (sc : nat) (w w1 : World) :
  warmup_update h sc w = (Ok tt, w1) ->
  gen w1 = gen w /\ model w1 = model w /\
  opt_state (optimizer w1) = opt_state (optimizer w) /\
  steps_in (log w1) = steps_in (log w) /\
  param_groups (optimizer w1) =
    (if sc <=? warmup_steps h
     then map (fun _ => warmup_value h sc) (param_groups (optimizer w))
     else param_groups (optimizer w)) /\
  ((sc <=? warmup_steps h) = true -> warmup_steps h <> 0).
Proof.
  unfold warmup_update, set_lr. intros H.
  destruct (sc <=? warmup_steps h).
  - apply bind_inv in H as [[e [_ Hr]] | [lr [w0 [Hl H]]]]; [discriminate|].
    apply lift_inv in Hl as [Hl ->]. symmetry in Hl.
    apply warmup_lr_ok in Hl as [-> Hz].
    exec H. prim_inv H. cbn. repeat split; try reflexivity. intros _. exact Hz.
  - prim_inv H. repeat split; try reflexivity. discriminate.
Qed.

Lemma forward_backward_ok (x y : Tensor2) (acc : bool) (loss : Scalar)
      (w w1 : World) :
  forward_backward h x y acc w = (Ok loss, w1) ->
  gen w1 = gen w /\ optimizer w1 = optimizer w /\
  params (model w1) = params (model w) /\
  grad (model w1) =
    backward (params (model w)) x y (gradient_accumulation_iters h)
             (grad (model w)) /\
  steps_in (log w1) = steps_in (log w).
Proof.
  unfold forward_backward. intros H.
  exec H. exec H. exec H. exec H. exec H. exec H. exec H. prim_inv H.
  cbn. repeat split; reflexivity.
Qed.

Lemma optimizer_update_ok (acc : bool) (sc sc' : nat) (w w1 : World) :
  optimizer_update acc sc w = (Ok sc', w1) ->
  sc' = sc + (if acc then 0 else 1) /\
  steps_in (log w1) = steps_in (log w) + (if acc then 0 else 1) /\
  gen w1 = gen w /\
  param_groups (optimizer w1) = param_groups (optimizer w) /\
  (acc = true -> w1 = w) /\
  (acc = false ->
   grad (model w1) = grad_zero /\
   (opt_state (optimizer w1), params (model w1)) =
     optimizer_step (param_groups (optimizer w)) (opt_state (optimizer w))
                    (params (model w)) (grad (model w))).
Proof.
  unfold optimizer_update, do_optimizer_step, zero_grad. intros H.
  destruct acc; cbn [negb] in H.
  - prim_inv H. repeat split; try reflexivity; try lia; discriminate.
  - exec H. exec H. prim_inv H.
    cbn. split; [reflexivity|]. split; [unfold steps_in; simpl; lia|].
    split; [reflexivity|]. split; [reflexivity|]. split; [discriminate|].
    intros _. split; [reflexivity|].
    now destruct (optimizer_step _ _ _ _).
Qed.

(** What an iteration that completes has done. *)
Lemma train_iter_ok (train_data val_data : list Example)
      (longest_seq_ix iter_num : nat) (st st' : LoopState) (w w' : World) :
  train_iter h train_data val_data longest_seq_ix iter_num st w = (Ok st', w') ->
  let sync := (iter_num + 1) mod gradient_accumulation_iters h =? 0 in
  exists b g,
    get_batch h train_data
      (if iter_num =? 0 then Some (Z.of_nat longest_seq_ix) else None)
      (gen w) = (Ok b, g) /\
    gradient_accumulation_iters h <> 0 /\
    step_count st' = step_count st + (if sync then 1 else 0) /\
    total_lengths st' = total_lengths st + size1 (fst b) /\
    steps_in (log w') = steps_in (log w) + (if sync then 1 else 0) /\
    param_groups (optimizer w') =
      (if step_count st <=? warmup_steps h
       then map (fun _ => warmup_value h (step_count st))
                (param_groups (optimizer w))
       else param_groups (optimizer w)) /\
    ((step_count st <=? warmup_steps h) = true -> warmup_steps h <> 0) /\
    (sync = true ->
     grad (model w') = grad_zero /\
     (opt_state (optimizer w'), params (model w')) =
       optimizer_step (param_groups (optimizer w'))
                      (opt_state (optimizer w)) (params (model w))
                      (backward (params (model w)) (fst b) (snd b)
                                (gradient_accumulation_iters h)
                                (grad (model w)))).
Proof.
  intros H sync. unfold train_iter in H. cbv zeta in H.
  apply bind_inv in H as [[e [_ Hr]] | [[] [w1 [Hw H]]]]; [discriminate|].
  apply warmup_update_ok in Hw as [Hw1 [Hw2 [Hw3 [Hw4 [Hw5 Hw6]]]]].
  apply bind_inv in H as [[e [_ Hr]] | [b [w2 [Hb H]]]]; [discriminate|].
  apply call_get_batch_inv in Hb as [g [Hb ->]]. rewrite Hw1 in Hb.
  apply bind_inv in H as [[e [_ Hr]] | [r0 [w3 [Hm H]]]]; [discriminate|].
  apply lift_inv in Hm as [Hm ->]. symmetry in Hm.
  apply py_mod_inv in Hm as [Hgai ->]. fold sync in H. clearbody sync.
  apply bind_inv in H as [[e [_ Hr]] | [loss [w3 [Hfb H]]]]; [discriminate|].
  apply forward_backward_ok in Hfb as [Hf1 [Hf2 [Hf3 [Hf4 Hf5]]]].
  cbn in Hf1, Hf2, Hf3, Hf4, Hf5. fold (steps_in (log w1)) in Hf5.
  rewrite <- Hf1 in Hb. clear Hf1 g.
  apply bind_inv in H as [[e [_ Hr]] | [sc' [w4 [Hou H]]]]; [discriminate|].
  apply optimizer_update_ok in Hou as [-> [Ho2 [Ho3 [Ho4 [Ho5 Ho6]]]]].
  (* what follows reports, evaluates and saves *)
  match type of H with
  | ?tail _ = _ =>
      assert (Hk : forall X (f : World -> X),
                 (forall l w, f (set_log l w) = f w) ->
                 (forall g w, f (set_gen g w) = f w) ->
                 (forall b w,
                     f (set_model (set_training b (model w)) w) = f w) ->
                 (forall b w, f (set_model (set_kv b (model w)) w) = f w) ->
                 (forall b w, f (set_inference_mode b w) = f w) ->
                 preserves (keeps f) tail);
      [| assert (Hl : preserves (logs (fun e => is_step e = false)) tail) ]
  end.
  { intros X f Hl Hg Ht Hkv Hi. unfold_blocks.
    repeat first
      [ frame_struct ltac:(apply keeps_refl) ltac:(apply keeps_trans)
      | apply validate_keeps; assumption
      | intros w0 r w0' H0; apply tick_inv in H0 as [_ ->]; apply Hl ]. }
  { unfold_blocks.
    repeat first
      [ frame_struct ltac:(apply logs_refl) ltac:(apply logs_trans)
      | apply validate_logs_weak; intros [] Hq;
        solve [reflexivity | destruct Hq]
      | logs_prim ]. }
  assert (Hopt := Hk _ optimizer ltac:(reflexivity) ltac:(reflexivity)
                    ltac:(reflexivity) ltac:(reflexivity)
                    ltac:(reflexivity) _ _ _ H).
  assert (Hpar := Hk _ (fun w => params (model w)) ltac:(reflexivity)
                    ltac:(reflexivity) ltac:(reflexivity)
                    ltac:(reflexivity) ltac:(reflexivity) _ _ _ H).
  assert (Hgrd := Hk _ (fun w => grad (model w)) ltac:(reflexivity)
                    ltac:(reflexivity) ltac:(reflexivity)
                    ltac:(reflexivity) ltac:(reflexivity) _ _ _ H).
  assert (Hstp := logs_no_step _ _ (Hl _ _ _ H)).
  unfold keeps in Hopt, Hpar, Hgrd. cbn in Hopt, Hpar, Hgrd, Hstp.
  fold (steps_in (log w4)) in Hstp.
  clear Hk Hl.
  (* the value returned *)
  assert (Hst : st' = {| step_count :=
                           step_count st + (if negb sync then 0 else 1);
                         total_lengths :=
                           total_lengths st + size1 (fst b) |}).
  { exec H. exec H. exec H. exec H. prim_inv H. reflexivity. }
  clear H. subst st'. cbn [step_count total_lengths].
  exists b, (gen w3). split; [exact Hb|]. split; [exact Hgai|].
  split; [now destruct sync|]. split; [reflexivity|].
  split. { rewrite Hstp, Ho2, Hf5, Hw4. now destruct sync. }
  split. { rewrite Hopt, Ho4, Hf2. exact Hw5. }
  split; [exact Hw6|].
  intros ->. cbn [negb] in *.
  destruct (Ho6 eq_refl) as [Hz Hos]. split.
  - rewrite Hgrd. exact Hz.
  - rewrite Hopt, Hpar, Hos, Ho4, Hf2, Hf3, Hf4. now rewrite Hw2, Hw3.
Qed.

(** Where the update sits in the record of a completed pass: at a
    boundary [optimizer.step()] and then [optimizer.zero_grad()], once
    each and next to each other; otherwise neither. *)
Lemma train_iter_update_order (train_data val_data : list Example)
      (longest_seq_ix iter_num : nat) (st st' : LoopState) (w w' : World) :
  train_iter h train_data val_data longest_seq_ix iter_num st w = (Ok st', w') ->
  exists d1 d2,
    log w' =
      d2 ++ (if (iter_num + 1) mod gradient_accumulation_iters h =? 0
             then [EvZeroGrad; EvStep] else [])
         ++ d1 ++ log w /\
    Forall (fun e => is_update e = false) d1 /\
    Forall (fun e => is_update e = false) d2.
Proof.
  intros H. unfold train_iter in H. cbv zeta in H.
  assert (P1 : forall sc, preserves (logs (fun e => is_update e = false))
                            (warmup_update h sc)).
  { intros sc. unfold_blocks. frame_logs. }
  assert (P2 : forall o, preserves (logs (fun e => is_update e = false))
                           (call_get_batch h train_data o)).
  { intros o. unfold_blocks. frame_logs. }
  assert (P3 : forall x y acc,
             preserves (logs (fun e => is_update e = false))
                       (forward_backward h x y acc)).
  { intros x y acc. unfold_blocks. frame_logs. }
  apply bind_inv in H as [[e [_ Hr]] | [[] [w1 [Hw H]]]]; [discriminate|].
  apply P1 in Hw.
  apply bind_inv in H as [[e [_ Hr]] | [b [w2 [Hb H]]]]; [discriminate|].
  apply P2 in Hb.
  apply bind_inv in H as [[e [_ Hr]] | [r0 [w3 [Hm H]]]]; [discriminate|].
  apply lift_inv in Hm as [Hm ->]. symmetry in Hm.
  apply py_mod_inv in Hm as [_ ->].
  apply bind_inv in H as [[e [_ Hr]] | [loss [w3 [Hfb H]]]]; [discriminate|].
  apply P3 in Hfb.
  apply bind_inv in H as [[e [_ Hr]] | [sc' [w4 [Hou H]]]]; [discriminate|].
  assert (L5 : logs (fun e => is_update e = false) w4 w').
  { match type of H with
    | ?tail _ = _ =>
        assert (P5 : preserves (logs (fun e => is_update e = false)) tail)
    end.
    { unfold_blocks.
      repeat first
        [ frame_struct ltac:(apply logs_refl) ltac:(apply logs_trans)
        | apply validate_logs_weak; intros [] Hq;
          solve [reflexivity | destruct Hq]
        | logs_prim ]. }
    exact (P5 _ _ _ H). }
  assert (L4 : log w4 =
               (if (iter_num + 1) mod gradient_accumulation_iters h =? 0
                then [EvZeroGrad; EvStep] else []) ++ log w3).
  { unfold optimizer_update, do_optimizer_step, zero_grad in Hou.
    destruct ((iter_num + 1) mod gradient_accumulation_iters h =? 0);
      cbn [negb] in Hou.
    - exec Hou. exec Hou. prim_inv Hou. reflexivity.
    - prim_inv Hou. reflexivity. }
  destruct (logs_trans _ _ _ _ (logs_trans _ _ _ _ Hw Hb) Hfb)
    as [d1 [Hd1 F1]].
  destruct L5 as [d2 [Hd2 F2]].
  exists d1, d2. split; [|split; assumption].
  rewrite Hd2, L4, Hd1. reflexivity.
Qed.

Lemma for_loop_snoc {St} (body : nat -> St -> M St) (count : nat) :
  forall (start : nat) (s : St) (w : World),
    for_loop start (S count) body s w =
    match for_loop start count body s w with
    | (Ok s1, w1) => body (start + count) s1 w1
    | (Raise e, w1) => (Raise e, w1)
    end.
Proof.
  induction count as [|c IH]; intros start s w.
  - simpl. unfold bind, ret. rewrite Nat.add_0_r.
    destruct (body start s w) as [[s1|e] w1]; reflexivity.
  - change (for_loop start (S (S c)) body s w)
      with (bind (body start s)
                 (fun s' => for_loop (S start) (S c) body s') w).
    change (for_loop start (S c) body s w)
      with (bind (body start s) (fun s' => for_loop (S start) c body s') w).
    unfold bind. destruct (body start s w) as [[s1|e] w1]; [|reflexivity].
    rewrite IH. now replace (S start + c) with (start + S c) by lia.
Qed.

Lemma div_succ (n g : nat) :
  g <> 0 -> (n + 1) / g = n / g + (if (n + 1) mod g =? 0 then 1 else 0).
Proof.
  intros Hg.
  assert (Hn := Nat.div_mod_eq n g).
  assert (Hr := Nat.mod_upper_bound n g Hg).
  destruct (Nat.eq_dec (n mod g + 1) g) as [Heq|Hne].
  - assert (Hm : (n + 1) mod g = 0).
    { symmetry. apply (Nat.mod_unique _ _ (n / g + 1)); nia. }
    rewrite Hm. simpl.
    symmetry. apply (Nat.div_unique _ _ _ 0); nia.
  - assert (Hm : (n + 1) mod g = n mod g + 1).
    { symmetry. apply (Nat.mod_unique _ _ (n / g)); nia. }
    rewrite Hm. replace (n mod g + 1 =? 0) with false
      by (symmetry; apply Nat.eqb_neq; lia).
    rewrite Nat.add_0_r.
    symmetry. apply (Nat.div_unique _ _ _ (n mod g + 1)); nia.
Qed.

Lemma lr_at_stable (n : nat) :
  gradient_accumulation_iters h <> 0 ->
  warmup_steps h < (n + 1) / gradient_accumulation_iters h ->
  lr_at h (n / gradient_accumulation_iters h)
  = lr_at h ((n + 1) / gradient_accumulation_iters h).
Proof.
  intros Hg Hlt. unfold lr_at. rewrite (div_succ n _ Hg) in *.
  destruct (_ =? 0); f_equal; lia.
Qed.

(** The loop after [n] iterations that all completed. *)
Lemma train_loop_spec (train_data val_data : list Example)
      (longest_seq_ix : nat) (n : nat) :
  forall (st : LoopState) (w w' : World),
    train_loop h train_data val_data longest_seq_ix n w = (Ok st, w') ->
    step_count st = n / gradient_accumulation_iters h /\
    steps_in (log w') = steps_in (log w) + n / gradient_accumulation_iters h /\
    (0 < n ->
     gradient_accumulation_iters h <> 0 /\ warmup_steps h <> 0 /\
     param_groups (optimizer w') =
       map (fun _ => lr_at h ((n - 1) / gradient_accumulation_iters h))
           (param_groups (optimizer w))).
Proof.
  unfold train_loop, for_range.
  induction n as [|n IH]; intros st w w' H.
  - simpl in H. prim_inv H. rewrite Nat.Div0.div_0_l.
    split; [reflexivity|]. split; [lia|]. lia.
  - rewrite for_loop_snoc in H.
    destruct (for_loop 0 n _ _ w) as [[s1|e] w1] eqn:Hpre; [|discriminate].
    destruct (IH _ _ _ Hpre) as [Hsc [Hst Hlr]]. simpl in H.
    apply train_iter_ok in H. cbv zeta in H.
    destruct H as [b [g [_ [Hg [Hsc' [_ [Hst' [Hpg [Hws _]]]]]]]]].
    assert (Hdiv := div_succ n _ Hg).
    replace (S n) with (n + 1) by lia.
    split; [lia|]. split; [lia|]. intros _.
    replace (n + 1 - 1) with n by lia.
    rewrite Hpg, Hsc. clear Hpg.
    destruct (Nat.leb_spec (n / gradient_accumulation_iters h)
                           (warmup_steps h)) as [Hle|Hgt].
    + split; [exact Hg|]. split; [apply Hws; rewrite Hsc; now apply Nat.leb_le|].
      unfold lr_at. rewrite Nat.min_l by exact Hle.
      destruct n as [|n'].
      { simpl in Hpre. apply ret_inv in Hpre as [_ ->]. reflexivity. }
      destruct (Hlr ltac:(lia)) as [_ [_ ->]]. now rewrite map_map.
    + destruct n as [|n'].
      { rewrite Nat.Div0.div_0_l in Hgt. lia. }
      destruct (Hlr ltac:(lia)) as [_ [Hw0 ->]].
      split; [exact Hg|]. split; [exact Hw0|].
      replace (S n' - 1) with n' by lia.
      replace (S n') with (n' + 1) in * by lia.
      now rewrite (lr_at_stable n' Hg Hgt).
Qed.

Lemma list_index_spec (v : nat) (l : list nat) (k : nat) :
  list_index v l = Ok k -> nth_error l k = Some v.
Proof.
  revert k; induction l as [|a l IH]; intros k H; simpl in H; [discriminate|].
  destruct (Nat.eqb_spec a v) as [->|_].
  - now injection H as <-.
  - destruct (list_index v l) as [k'|e]; [|discriminate].
    injection H as <-. simpl. now apply IH.
Qed.

(** [get_longest_seq_length] returns the greatest input length and a valid
    index at which it is found. *)
Lemma get_longest_seq_length_spec (data : list Example) (len ix : nat) :
  get_longest_seq_length data = Ok (len, ix) ->
  valid_index data (Z.of_nat ix) /\
  length (input_ids (pick data (Z.of_nat ix))) = len /\
  (forall d, In d data -> length (input_ids d) <= len).
Proof.
  unfold get_longest_seq_length. intros H.
  destruct data as [|d0 data]; [discriminate|].
  rewrite py_max_list_max in H by discriminate. cbn [rbind] in H.
  set (lengths := map (fun d => length (input_ids d)) (d0 :: data)) in *.
  destruct (list_index (list_max lengths) lengths) as [k|e] eqn:Hk;
    [|discriminate].
  injection H as <- <-. apply list_index_spec in Hk.
  assert (Hlt : k < length (d0 :: data)).
  { rewrite <- (length_map (fun d => length (input_ids d))).
    apply nth_error_Some. fold lengths. congruence. }
  split; [unfold valid_index; lia|]. split.
  - unfold pick. destruct (Z.ltb_spec (Z.of_nat k) 0); [lia|].
    rewrite Nat2Z.id. unfold lengths in Hk. rewrite nth_error_map in Hk.
    destruct (nth_error (d0 :: data) k) as [d|] eqn:Hd; [|discriminate].
    injection Hk as Hk. now rewrite (nth_error_nth _ _ _ Hd).
  - intros d Hd.
    assert (Hall := proj1 (list_max_le lengths (list_max lengths))
                      (Nat.le_refl _)).
    rewrite Forall_forall in Hall. apply Hall. unfold lengths.
    apply in_map_iff. now exists d.
Qed.

(** A [train] that returns has run the loop for [max_iters] passes, with
    the index of the longest training example as override. *)
Lemma train_inv (train_data val_data : list Example) (w w' : World) :
  train h train_data val_data w = (Ok tt, w') ->
  exists len ix w1 st,
    get_longest_seq_length train_data = Ok (len, ix) /\
    steps_in (log w1) = steps_in (log w) /\
    train_loop h train_data val_data ix (max_iters h) w1 = (Ok st, w').
Proof.
  unfold train. intros H.
  apply bind_inv in H as [[e [_ Hr]] | [[len ix] [w1 [Hl H]]]];
    [discriminate|].
  apply lift_inv in Hl as [Hl ->]. cbv zeta in H. cbn [fst snd] in H.
  exec H.
  apply bind_inv in H as [[e [_ Hr]] | [v [w2 [Hv H]]]]; [discriminate|].
  apply validate_frame in Hv as [_ [_ [_ [_ Hs]]]]. cbn in Hs.
  exec H.
  apply bind_inv in H as [[e [_ Hr]] | [st [w3 [Hloop H]]]]; [discriminate|].
  prim_inv H.
  exists len, ix, (set_log (EvFlops :: log w2) w2), st.
  split; [now symmetry|]. split; [exact Hs | exact Hloop].
Qed.

(** C1. A pass of the loop calls [optimizer.step()], clears the gradients
    and advances [step_count] exactly when [(iter_num + 1) %
    gradient_accumulation_iters == 0], and in that order: the step is
    taken on the weights and the optimizer state the pass found, with the
    gradient accumulated so far plus that of the batch of this pass and
    with the rates the warm-up has just written, and only then are the
    gradients cleared.  A pass that accumulates calls neither and leaves
    the optimizer state and the weights as they were, whatever its
    outcome.  After [N] passes both [step_count] and the number of
    optimizer steps are [N / gradient_accumulation_iters], and a [train]
    that returns has taken [max_iters / gradient_accumulation_iters]
    optimizer steps. *)
Theorem accumulation_invariant (train_data val_data : list Example)
        (longest_seq_ix : nat) :
  (forall iter_num st w r w',
      train_iter h train_data val_data longest_seq_ix iter_num st w = (r, w') ->
      (iter_num + 1) mod gradient_accumulation_iters h <> 0 ->
      steps_in (log w') = steps_in (log w) /\
      opt_state (optimizer w') = opt_state (optimizer w) /\
      params (model w') = params (model w) /\
      (forall st', r = Ok st' -> step_count st' = step_count st)) /\
  (forall iter_num st w st' w',
      train_iter h train_data val_data longest_seq_ix iter_num st w
        = (Ok st', w') ->
      let sync := (iter_num + 1) mod gradient_accumulation_iters h =? 0 in
      steps_in (log w') = steps_in (log w) + (if sync then 1 else 0) /\
      step_count st' = step_count st + (if sync then 1 else 0) /\
      (sync = true -> grad (model w') = grad_zero)) /\
  (forall N st w w',
      train_loop h train_data val_data longest_seq_ix N w = (Ok st, w') ->
      step_count st = N / gradient_accumulation_iters h /\
      steps_in (log w') = steps_in (log w) + N / gradient_accumulation_iters h) /\
  (forall w w',
      train h train_data val_data w = (Ok tt, w') ->
      steps_in (log w') =
        steps_in (log w) + max_iters h / gradient_accumulation_iters h) /\
  (forall iter_num st w st' w',
      train_iter h train_data val_data longest_seq_ix iter_num st w
        = (Ok st', w') ->
      (iter_num + 1) mod gradient_accumulation_iters h = 0 ->
      exists b g,
        get_batch h train_data
          (if iter_num =? 0 then Some (Z.of_nat longest_seq_ix) else None)
          (gen w) = (Ok b, g) /\
        (opt_state (optimizer w'), params (model w')) =
          optimizer_step (param_groups (optimizer w'))
            (opt_state (optimizer w)) (params (model w))
            (backward (params (model w)) (fst b) (snd b)
                      (gradient_accumulation_iters h) (grad (model w))) /\
        grad (model w') = grad_zero) /\
  (forall iter_num st w st' w',
      train_iter h train_data val_data longest_seq_ix iter_num st w
        = (Ok st', w') ->
      exists d1 d2,
        log w' =
          d2 ++ (if (iter_num + 1) mod gradient_accumulation_iters h =? 0
                 then [EvZeroGrad; EvStep] else [])
             ++ d1 ++ log w /\
        Forall (fun e => is_update e = false) d1 /\
        Forall (fun e => is_update e = false) d2) /\
  (forall iter_num st w r w',
      train_iter h train_data val_data longest_seq_ix iter_num st w = (r, w') ->
      (iter_num + 1) mod gradient_accumulation_iters h <> 0 ->
      logs (fun e => is_update e = false) w w').
Proof.
  split; [|split; [|split; [|split; [|split; [|split]]]]].
  - intros iter_num st w r w' H Hacc.
    destruct (train_iter_accumulating _ _ _ _ _ _ _ _ Hacc H)
      as [Ho [Hp Hs]].
    split; [exact Hs|]. split; [exact Ho|]. split; [exact Hp|].
    intros st' ->. apply train_iter_ok in H. cbv zeta in H.
    destruct H as [b [g [_ [_ [Hsc _]]]]]. rewrite Hsc.
    replace (_ =? 0) with false by (symmetry; apply Nat.eqb_neq; exact Hacc).
    lia.
  - intros iter_num st w st' w' H sync. apply train_iter_ok in H.
    cbv zeta in H. fold sync in H.
    destruct H as [b [g [_ [_ [Hsc [_ [Hst [_ [_ Hsy]]]]]]]]].
    split; [exact Hst|]. split; [exact Hsc|].
    intros Hs. now destruct (Hsy Hs).
  - intros N st w w' H. apply train_loop_spec in H as [Hsc [Hst _]].
    now split.
  - intros w w' H.
    apply train_inv in H as [len [ix [w1 [st [_ [Hs Hloop]]]]]].
    apply train_loop_spec in Hloop as [_ [Hst _]]. rewrite Hst, Hs.
    reflexivity.
  - intros iter_num st w st' w' H Hsync. apply train_iter_ok in H.
    cbv zeta in H.
    destruct H as [b [g [Hb [_ [_ [_ [_ [_ [_ Hsy]]]]]]]]].
    apply Nat.eqb_eq in Hsync. destruct (Hsy Hsync) as [Hz Hstep].
    exists b, g. split; [exact Hb|]. split; [exact Hstep | exact Hz].
  - intros iter_num st w st' w' H.
    exact (train_iter_update_order _ _ _ _ _ _ _ _ H).
  - intros iter_num st w r w' H Hacc.
    exact (train_iter_accumulating_quiet _ _ _ _ _ Hacc _ _ _ H).
Qed.






(** The indices drawn are the raw integers of the generator, each reduced
    modulo the range. *)
Lemma draws_raws (high : Z) (n : nat) :
  forall g, draws high n g =
            (map (fun r => (r mod high)%Z) (fst (raws n g)), snd (raws n g)).
Proof.
  induction n as [|n IH]; intros g; [reflexivity|].
  cbn [draws raws]. destruct (raw g) as [r g1]. rewrite (IH g1).
  destruct (raws n g1) as [rest g2]. reflexivity.
Qed.

(** Among the integers below [M], those congruent to [i] modulo [len]. *)
Lemma residue_count (len M i : nat) :
  0 < len -> i < len ->
  length (filter (fun r => r mod len =? i) (seq 0 M)) =
  M / len + (if i <? M mod len then 1 else 0).
Proof.
  intros Hlen Hi. induction M as [|M IH].
  - rewrite Nat.Div0.div_0_l, Nat.Div0.mod_0_l. cbn.
    now destruct (Nat.ltb_spec i 0); [lia|].
  - rewrite seq_S, filter_app, length_app, IH. cbn [Nat.add filter].
    assert (Hdm := Nat.div_mod_eq M len).
    assert (Hm : M mod len < len) by (apply Nat.mod_upper_bound; lia).
    destruct (Nat.eq_dec (S (M mod len)) len) as [Hwrap|Hno].
    + assert (Hd : S M / len = S (M / len)).
      { symmetry. apply (Nat.div_unique _ _ _ 0); lia. }
      assert (Hr : S M mod len = 0).
      { symmetry. apply (Nat.mod_unique _ _ (S (M / len))); lia. }
      rewrite Hd, Hr.
      destruct (Nat.eqb_spec (M mod len) i), (Nat.ltb_spec i (M mod len)),
               (Nat.ltb_spec i 0); cbn [length]; lia.
    + assert (Hd : S M / len = M / len).
      { symmetry. apply (Nat.div_unique _ _ _ (S (M mod len))); lia. }
      assert (Hr : S M mod len = S (M mod len)).
      { symmetry. apply (Nat.mod_unique _ _ (M / len)); lia. }
      rewrite Hd, Hr.
      destruct (Nat.eqb_spec (M mod len) i), (Nat.ltb_spec i (M mod len)),
               (Nat.ltb_spec i (S (M mod len))); cbn [length]; lia.
Qed.

Lemma slot_index_of_nat (data : list Example) (r i : nat) :
  (slot_index data (Z.of_nat r) =? Z.of_nat i)%Z
  = (r mod length data =? i).
Proof.
  unfold slot_index. rewrite <- Nat2Z.inj_mod.
  destruct (Nat.eqb_spec (r mod length data) i) as [->|Hne].
  - apply Z.eqb_refl.
  - apply Z.eqb_neq. lia.
Qed.

(** C4. With an override, row 0 of both tensors is the example at the
    overriding index followed by its padding, whatever the generator
    yields; the loop hands [get_batch] an override on pass 0 and on no
    other pass, nor does [validate], and in [train] this override is a
    valid index of a longest training example.  Without an override the
    call takes [micro_batch_size] raw integers from the generator, one
    for each slot and in the order of the slots, and slot [k] holds the
    example that its own integer selects, its residue modulo [len(data)]:
    the same example may fill several slots, and among the integers below
    any bound [M] every example is selected by [M / len(data)] of them,
    and by one more when its index is below [M mod len(data)], so that
    the slots are as uniform as the raw integers are, and exactly uniform
    over a range that [len(data)] divides. *)
Theorem get_batch_first_slot (train_data val_data : list Example)
        (longest_seq_ix : nat) :
  (forall data l g,
      data <> [] -> 0 < micro_batch_size h -> same_lengths data ->
      valid_override data (Some l) ->
      exists x y g' max_len,
        get_batch h data (Some l) g = (Ok (x, y), g') /\
        length (input_ids (pick data l)) <= max_len /\
        nth_error x 0 = Some (padded 0 max_len (input_ids (pick data l))) /\
        nth_error y 0 = Some (padded (-1) max_len (labels (pick data l)))) /\
  (forall iter_num st w st' w',
      train_iter h train_data val_data longest_seq_ix iter_num st w
        = (Ok st', w') ->
      exists b g,
        get_batch h train_data
          (if iter_num =? 0 then Some (Z.of_nat longest_seq_ix) else None)
          (gen w) = (Ok b, g)) /\
  (forall iter_num st w r w',
      train_iter h train_data val_data longest_seq_ix iter_num st w = (r, w') ->
      logs (fun e => forall l, e = EvGetBatch (Some l) ->
                     iter_num = 0 /\ l = Z.of_nat longest_seq_ix) w w') /\
  (forall w w',
      train h train_data val_data w = (Ok tt, w') ->
      exists len ix w1 st,
        train_loop h train_data val_data ix (max_iters h) w1 = (Ok st, w') /\
        valid_index train_data (Z.of_nat ix) /\
        length (input_ids (pick train_data (Z.of_nat ix))) = len /\
        (forall d, In d train_data -> length (input_ids d) <= len)) /\
  (forall data g,
      data <> [] -> 0 < micro_batch_size h -> same_lengths data ->
      exists x y max_len,
        get_batch h data None g
          = (Ok (x, y), snd (raws (micro_batch_size h) g)) /\
        length (fst (raws (micro_batch_size h) g)) = micro_batch_size h /\
        forall k r, nth_error (fst (raws (micro_batch_size h) g)) k = Some r ->
          (0 <= slot_index data r < Z.of_nat (length data))%Z /\
          nth_error x k =
            Some (padded 0 max_len (input_ids (pick data (slot_index data r)))) /\
          nth_error y k =
            Some (padded (-1) max_len (labels (pick data (slot_index data r))))) /\
  (forall data M i,
      data <> [] -> i < length data ->
      length (filter (fun r => (slot_index data (Z.of_nat r) =? Z.of_nat i)%Z)
                     (seq 0 M))
      = M / length data + (if i <? M mod length data then 1 else 0)).
Proof.
  split; [|split; [|split; [|split; [|split]]]].
  - intros data l g Hne Hmb Hsame Hl.
    assert (Hgb := get_batch_ok h data (Some l) g Hne Hmb Hsame Hl).
    cbv zeta in Hgb.
    set (ix := used_indices h data (Some l) g) in *.
    assert (Hix : ix = l :: tl ix) by reflexivity.
    eexists _, _, _, (width_of data ix). split; [exact Hgb|].
    split; [apply width_of_bound; rewrite Hix; now left|].
    rewrite Hix at 1 3. split; reflexivity.
  - intros iter_num st w st' w' H. apply train_iter_ok in H. cbv zeta in H.
    destruct H as [b [g [Hb _]]]. now exists b, g.
  - intros iter_num st w r w' H. eapply train_iter_overrides. exact H.
  - intros w w' H.
    apply train_inv in H as [len [ix [w1 [st [Hl [_ Hloop]]]]]].
    exists len, ix, w1, st. split; [exact Hloop|].
    now apply get_longest_seq_length_spec.
  - intros data g Hne Hmb Hsame.
    assert (Hgb := get_batch_ok h data None g Hne Hmb Hsame I).
    cbv zeta in Hgb. unfold used_indices in Hgb.
    rewrite draws_raws in Hgb. cbn [fst snd] in Hgb.
    assert (Hlen := draws_length (Z.of_nat (length data))
                      (micro_batch_size h) g).
    rewrite draws_raws in Hlen. cbn [fst] in Hlen.
    rewrite length_map in Hlen.
    set (rs := fst (raws (micro_batch_size h) g)) in *.
    eexists _, _,
      (width_of data (map (fun r => (r mod Z.of_nat (length data))%Z) rs)).
    split; [exact Hgb|]. split; [exact Hlen|].
    intros k r Hk. split.
    { unfold slot_index. apply Z.mod_pos_bound.
      destruct data; [congruence | simpl; lia]. }
    rewrite !nth_error_map, Hk. split; reflexivity.
  - intros data M i Hne Hi.
    rewrite (filter_ext _ (fun r => r mod length data =? i))
      by (intros r; apply slot_index_of_nat).
    apply residue_count; [|exact Hi].
    destruct data; [congruence | simpl; lia].
Qed.

End Training.

(** ** Repeated evaluation *)

Section Repeated.

Context {E : Env}.
Variable h : HParams.




End Repeated.

(** ** Setup *)

Section Setup.

Context {E : Env}.
Variable h : HParams.

Lemma select_plugins_frame (precision quantize : option string)
      (w w1 : World) (r : result (option Plugin)) :
  select_plugins precision quantize w = (r, w1) ->
  gen w1 = gen w /\ model w1 = model w /\ optimizer w1 = optimizer w /\
  logs (fun ev => exists m d, ev = EvPlugin m d) w w1.
Proof.
  intros H.
  assert (Hk : forall X (f : World -> X),
             (forall l w, f (set_log l w) = f w) -> f w1 = f w).
  { intros X f Hl. revert w r w1 H.
    change (preserves (keeps f) (select_plugins precision quantize)).
    unfold select_plugins.
    repeat first
      [ frame_struct ltac:(apply keeps_refl) ltac:(apply keeps_trans)
      | intros w0 r0 w0' H0; apply tick_inv in H0 as [_ ->]; apply Hl ]. }
  split; [apply (Hk _ gen); reflexivity|].
  split; [apply (Hk _ model); reflexivity|].
  split; [apply (Hk _ optimizer); reflexivity|].
  clear Hk. revert w r w1 H.
  change (preserves (logs (fun ev => exists m d, ev = EvPlugin m d))
            (select_plugins precision quantize)).
  unfold select_plugins.
  repeat first
    [ frame_struct ltac:(apply logs_refl) ltac:(apply logs_trans)
    | logs_prim_with ltac:(eexists _, _; reflexivity) ].
Qed.

(** C5. With more than one device and a quantization mode requested,
    [setup] raises before it launches [main]: nothing has been done but,
    at most, building the precision plugin; no model, no batch.  The
    exception is the [NotImplementedError] of the device check, unless the
    quantization block before it has already raised. *)
Theorem setup_multi_device_quantized
        (precision quantize : option string)
        (train_data val_data : list Example) (w : World) :
  1 < devices h -> truthy quantize = true ->
  exists e w',
    setup h precision quantize train_data val_data w = (Raise e, w') /\
    e = match fst (select_plugins precision quantize w) with
        | Ok _ => "NotImplementedError"
        | Raise e' => e'
        end /\
    gen w' = gen w /\ model w' = model w /\ optimizer w' = optimizer w /\
    logs (fun ev => exists m d, ev = EvPlugin m d) w w'.
Proof.
  intros Hdev Hq. unfold setup.
  destruct (select_plugins precision quantize w) as [[pl|e] w1] eqn:Hsp.
  - exists "NotImplementedError", w1. split.
    + rewrite (bind_ok _ _ _ _ _ Hsp). unfold select_strategy.
      apply Nat.ltb_lt in Hdev. rewrite Hdev, Hq. reflexivity.
    + split; [reflexivity|]. eapply select_plugins_frame. exact Hsp.
  - exists e, w1. split; [apply bind_raise; exact Hsp|].
    split; [reflexivity|]. eapply select_plugins_frame. exact Hsp.
Qed.

Lemma dtype_of_ok (p : string) (d : dtype) :
  dtype_of p = Ok d -> p = "16-true" \/ p = "bf16-true" \/ p = "32-true".
Proof.
  unfold dtype_of.
  destruct (String.eqb_spec p "16-true"); [now left|].
  destruct (String.eqb_spec p "bf16-true"); [now right; left|].
  destruct (String.eqb_spec p "32-true"); [now right; right|].
  discriminate.
Qed.

(** C10. With a [bnb.] quantization mode and [precision] left at [None],
    [setup] raises [TypeError] from the membership test of the
    quantization block, before the device check and before anything else is
    done; and the block is passed only with a precision among ["16-true"],
    ["bf16-true"] and ["32-true"]. *)
Theorem setup_quantize_without_precision
        (q : string) (train_data val_data : list Example) (w : World) :
  String.prefix "bnb." q = true ->
  setup h None (Some q) train_data val_data w = (Raise "TypeError", w) /\
  (forall precision pl w1,
      select_plugins precision (Some q) w = (Ok pl, w1) ->
      exists p, precision = Some p /\
                str_contains "mixed" p = false /\
                (p = "16-true" \/ p = "bf16-true" \/ p = "32-true")).
Proof.
  intros Hq. split.
  - unfold setup, select_plugins. rewrite Hq. reflexivity.
  - intros precision pl w1 H. unfold select_plugins in H. rewrite Hq in H.
    destruct precision as [p|]; [|discriminate].
    exists p. split; [reflexivity|].
    destruct (str_contains "mixed" p); [discriminate|].
    split; [reflexivity|].
    exec H. eapply dtype_of_ok. eauto.
Qed.

End Setup.

(** * The script on small inputs *)

(** A run is settled by its outcome, which is computed; its final world is
    named, not spelled out. *)
Lemma run_outcome {A W} (run : result A * W) (r : result A) :
  fst run = r -> run = (r, snd run).
Proof. intros <-. now destruct run. Qed.

Ltac cannot_raise H :=
  exfalso;
  match type of H with
  | ?run = (Raise _, _) =>
      let Hok := fresh "Hok" in
      assert (Hok : is_ok (fst run) = true) by (vm_compute; reflexivity);
      rewrite H in Hok; discriminate Hok
  end.


(** Accumulation width 32, 64 passes: two optimizer steps, each on the
    gradient of a whole window; the toy state adds up what it is stepped
    with, 32 backward passes twice. *)
Lemma accumulation_invariant_witness :
  exists st w',
    train_loop (E:=Toy.env) hparams Toy.data Toy.val_data 3 64 (Toy.world 0)
      = (Ok st, w') /\
    step_count st = 2 /\
    steps_in (log w') = 2 /\
    opt_state (optimizer w') = 64 /\
    grad (model w') = 0.
Proof.
  destruct (train_loop (E:=Toy.env) hparams Toy.data Toy.val_data 3 64
              (Toy.world 0)) as [[st|e] w'] eqn:H.
  - exists st, w'. split; [reflexivity|].
    destruct (proj1 (proj2 (proj2 (accumulation_invariant (E:=Toy.env)
                                     hparams Toy.data Toy.val_data 3)))
                    64 st (Toy.world 0) w' H) as [Hsc Hst].
    split; [exact Hsc|]. split; [exact Hst|].
    assert (F : opt_state (optimizer
                  (snd (train_loop (E:=Toy.env) hparams Toy.data
                          Toy.val_data 3 64 (Toy.world 0)))) = 64 /\
                grad (model
                  (snd (train_loop (E:=Toy.env) hparams Toy.data
                          Toy.val_data 3 64 (Toy.world 0)))) = 0)
      by (vm_compute; split; reflexivity).
    rewrite H in F. exact F.
  - cannot_raise H.
Defined.



(** Two slots drawn from the four examples, the longest forced first. *)
Lemma get_batch_shape_and_padding_witness :
  exists x y g' max_len,
    get_batch (E:=Toy.env) Toy.small Toy.data (Some 3%Z) 0%Z
      = (Ok (x, y), g') /\
    shape x = Some (2, max_len) /\ shape y = Some (2, max_len).
Proof.
  destruct (get_batch_shape_and_padding (E:=Toy.env) Toy.small Toy.data
              (Some 3%Z) 0%Z)
    as [ix [x [y [g' [max_len [Hgb [_ [_ [Hx [Hy _]]]]]]]]]].
  - discriminate.
  - simpl. lia.
  - intros d Hd. simpl in Hd.
    repeat (destruct Hd as [<-|Hd]; [reflexivity|]). destruct Hd.
  - split; [unfold valid_index; simpl; lia | reflexivity].
  - now exists x, y, g', max_len.
Defined.

(** Lengths 5, 5, 5 and 9, three slots, the longest forced first: the
    batch is 9 wide and opens with the example of length 9. *)
Example get_batch_longest_first :
  exists x y g',
    get_batch (E:=Toy.env) hparams Toy.data (Some 3%Z) 0%Z = (Ok (x, y), g') /\
    shape x = Some (3, 9) /\ shape y = Some (3, 9) /\
    nth_error x 0 = Some [41; 42; 43; 44; 45; 46; 47; 48; 49]%Z /\
    nth_error x 1 = Some [21; 22; 23; 24; 25; 0; 0; 0; 0]%Z /\
    nth_error y 1 = Some [-1; -1; -1; 24; 25; -1; -1; -1; -1]%Z.
Proof. eexists _, _, _. vm_compute. repeat split. Qed.

(** Slot 0 of a batch with override 3 is example 3; without an override
    and with the generator at 5, the two slots take the integers 5 and 6
    and hold the examples 1 and 2. *)
Lemma get_batch_first_slot_witness :
  (exists x y g' max_len,
    get_batch (E:=Toy.env) Toy.small Toy.data (Some 3%Z) 0%Z
      = (Ok (x, y), g') /\
    length (input_ids (pick Toy.data 3%Z)) <= max_len /\
    nth_error x 0 = Some (padded 0 max_len (input_ids (pick Toy.data 3%Z))) /\
    nth_error y 0 = Some (padded (-1) max_len (labels (pick Toy.data 3%Z)))) /\
  (exists x y max_len,
    get_batch (E:=Toy.env) Toy.small Toy.data None 5%Z = (Ok (x, y), 7%Z) /\
    nth_error x 0 = Some (padded 0 max_len (input_ids (pick Toy.data 1%Z))) /\
    nth_error x 1 = Some (padded 0 max_len (input_ids (pick Toy.data 2%Z))) /\
    nth_error y 1 = Some (padded (-1) max_len (labels (pick Toy.data 2%Z)))).
Proof.
  destruct (get_batch_first_slot (E:=Toy.env) Toy.small
              Toy.data Toy.val_data 3) as [H1 [_ [_ [_ [H5 _]]]]].
  assert (Hne : Toy.data <> []) by discriminate.
  assert (Hmb : 0 < micro_batch_size Toy.small) by (simpl; lia).
  assert (Hsame : same_lengths Toy.data).
  { intros d Hd. simpl in Hd.
    repeat (destruct Hd as [<-|Hd]; [reflexivity|]). destruct Hd. }
  split.
  - apply (H1 Toy.data 3%Z 0%Z Hne Hmb Hsame).
    split; [unfold valid_index; simpl; lia | reflexivity].
  - destruct (H5 Toy.data 5%Z Hne Hmb Hsame) as [x [y [ml [Hg [_ Hk]]]]].
    exists x, y, ml. split; [exact Hg|].
    destruct (Hk 0 5%Z eq_refl) as [_ [Hx0 _]].
    destruct (Hk 1 6%Z eq_refl) as [_ [Hx1 Hy1]].
    split; [exact Hx0|]. split; [exact Hx1 | exact Hy1].
Defined.

(** Two devices and 4-bit quantization: [setup] stops at the device check. *)
Lemma setup_multi_device_quantized_witness :
  exists e w',
    setup (E:=Toy.env) Toy.two_devices (Some "bf16-true") (Some "bnb.nf4")
          Toy.data Toy.val_data (Toy.world 0) = (Raise e, w') /\
    e = "NotImplementedError" /\ model w' = model (Toy.world 0).
Proof.
  destruct (setup_multi_device_quantized (E:=Toy.env) Toy.two_devices
              (Some "bf16-true") (Some "bnb.nf4") Toy.data Toy.val_data
              (Toy.world 0))
    as [e [w' [Hs [He [_ [Hm _]]]]]].
  - simpl. lia.
  - reflexivity.
  - exists e, w'. split; [exact Hs|]. split; [exact He | exact Hm].
Defined.

(** Two evaluation batches of two examples each, with losses 16 and 13:
    the value returned is their float32 mean, 14.5. *)
Lemma validate_mean_of_batch_losses_witness :
  exists bs losses g1,
    successive_batches (E:=Toy.env) Toy.small Toy.val_data 2 0%Z
      = (Ok bs, g1) /\
    length bs = 2 /\
    length losses = 2 /\
    fst (validate (E:=Toy.env) Toy.small Toy.val_data (Toy.world 0))
      = Ok (Toy.mean32 losses) /\
    Toy.mean32 losses = S754_finite false 15204352 (-20).
Proof.
  assert (Hrun : validate (E:=Toy.env) Toy.small Toy.val_data (Toy.world 0)
                 = (Ok (S754_finite false 15204352 (-20)),
                    snd (validate (E:=Toy.env) Toy.small Toy.val_data
                           (Toy.world 0)))).
  { apply run_outcome. vm_compute. reflexivity. }
  destruct (validate_mean_of_batch_losses (E:=Toy.env) Toy.small
              Toy.val_data (Toy.world 0) _ _ Hrun)
    as [[bs [losses [g1 [Hs [Hlen [_ [_ [Hll Hv]]]]]]]] _].
  change (S754_finite false 15204352 (-20)
          = Toy.mean32 (map (fun x => x) losses)) in Hv.
  rewrite map_id in Hv.
  exists bs, losses, g1. split; [exact Hs|]. split; [exact Hlen|].
  split; [exact Hll|]. split; [|now symmetry].
  rewrite Hrun. cbn [fst]. now rewrite <- Hv.
Defined.

(** A model that refuses the batch raises from inside the loss loop, and
    [validate] hands control back with the model in evaluation mode. *)
Lemma validate_leaves_eval_mode_on_error :
  exists w',
    validate (E:=Toy.env) Toy.small Toy.val_data (Toy.narrow_world 0)
      = (Raise "ValueError", w') /\
    training (model (Toy.narrow_world 0)) = true /\
    training (model w') = false.
Proof.
  exists (snd (validate (E:=Toy.env) Toy.small Toy.val_data
                 (Toy.narrow_world 0))).
  split; [apply run_outcome; vm_compute; reflexivity|].
  split; [reflexivity | vm_compute; reflexivity].
Qed.

(** No error class for an empty example set: what leaves [get_batch] is the
    [RuntimeError] of the index draw. *)
Lemma get_batch_empty_is_runtime_error :
  get_batch (E:=Toy.env) hparams [] None 0%Z = (Raise "RuntimeError", 0%Z) /\
  fst (get_batch (E:=Toy.env) hparams [] None 0%Z)
    <> Raise "EmptyDatasetError".
Proof. split; [reflexivity | discriminate]. Qed.



(** The shipped constants, a [bnb.nf4] quantization and no precision. *)
Lemma setup_quantize_without_precision_witness :
  setup (E:=Toy.env) hparams None (Some "bnb.nf4") Toy.data Toy.val_data
        (Toy.world 0)
  = (Raise "TypeError", Toy.world 0).
Proof.
  apply (proj1 (setup_quantize_without_precision (E:=Toy.env) hparams
                  "bnb.nf4" Toy.data Toy.val_data (Toy.world 0) eq_refl)).
Defined.

(** * Further properties *)

(** ** The longest example *)

Section Longest.

Context {E : Env}.
Variable h : HParams.

Lemma list_index_first (v : nat) (l : list nat) (k : nat) :
  list_index v l = Ok k -> forall j, j < k -> nth_error l j <> Some v.
Proof.
  revert k; induction l as [|a l IH]; intros k H j Hj; simpl in H;
    [discriminate|].
  destruct (Nat.eqb_spec a v) as [->|Hne].
  - injection H as <-. lia.
  - destruct (list_index v l) as [k'|e]; [|discriminate].
    injection H as <-. destruct j as [|j]; simpl.
    + congruence.
    + apply (IH k' eq_refl). lia.
Qed.

Lemma list_index_found (v : nat) (l : list nat) :
  In v l -> exists k, list_index v l = Ok k.
Proof.
  induction l as [|a l IH]; intros Hin; [destruct Hin|]. simpl.
  destruct (Nat.eqb_spec a v) as [_|Hne]; [now exists 0|].
  destruct Hin as [Heq|Hin]; [congruence|].
  destruct (IH Hin) as [k ->]. now exists (S k).
Qed.

(** X1. On an empty data set [get_longest_seq_length] raises [ValueError],
    and so does [train] before it does anything else; on any other data
    set it returns the greatest input length together with the first index
    at which that length is found. *)
Theorem get_longest_seq_length_first_longest (data : list Example) :
  data <> [] ->
  get_longest_seq_length [] = Raise "ValueError" /\
  (forall val_data w, train h [] val_data w = (Raise "ValueError", w)) /\
  exists len ix,
    get_longest_seq_length data = Ok (len, ix) /\
    ix < length data /\
    nth_error (map (fun d => length (input_ids d)) data) ix = Some len /\
    (forall d, In d data -> length (input_ids d) <= len) /\
    (forall j d, j < ix -> nth_error data j = Some d ->
                 length (input_ids d) < len).
Proof.
  intros Hne. split; [reflexivity|]. split; [reflexivity|].
  unfold get_longest_seq_length.
  set (lengths := map (fun d => length (input_ids d)) data).
  assert (Hl : lengths <> []).
  { unfold lengths. destruct data; [congruence | discriminate]. }
  rewrite (py_max_list_max lengths Hl). cbn [rbind].
  destruct (list_index_found _ _ (list_max_attained lengths Hl)) as [k Hk].
  rewrite Hk. cbn [rbind]. exists (list_max lengths), k.
  split; [reflexivity|].
  assert (Hnth := list_index_spec _ _ _ Hk).
  assert (Hbound : forall d, In d data ->
                     length (input_ids d) <= list_max lengths).
  { intros d Hd.
    assert (Hall := proj1 (list_max_le lengths (list_max lengths))
                      (Nat.le_refl _)).
    rewrite Forall_forall in Hall. apply Hall. unfold lengths.
    apply in_map_iff. now exists d. }
  split.
  { rewrite <- (length_map (fun d => length (input_ids d))).
    apply nth_error_Some. fold lengths. congruence. }
  split; [exact Hnth|]. split; [exact Hbound|].
  intros j d Hj Hd.
  assert (Hle := Hbound d (nth_error_In _ _ Hd)).
  assert (Hneq := list_index_first _ _ _ Hk j Hj).
  unfold lengths in Hneq. rewrite nth_error_map, Hd in Hneq. simpl in Hneq.
  assert (length (input_ids d) <> list_max lengths).
  { intros Heq. apply Hneq. now rewrite Heq. }
  lia.
Qed.

End Longest.

(** Lengths 5, 5, 5 and 9: length 9 at index 3. *)
Lemma get_longest_seq_length_first_longest_witness :
  get_longest_seq_length Toy.data = Ok (9, 3).
Proof.
  destruct (get_longest_seq_length_first_longest (E:=Toy.env) Toy.small
              Toy.data ltac:(discriminate))
    as [_ [_ [len [ix [H _]]]]].
  vm_compute in H. injection H as <- <-. reflexivity.
Defined.

(** ** The sampler on ill-formed input *)

Section SamplerEdges.

Context {E : Env}.
Variable h : HParams.

Lemma map_result_raise {A B} (f : A -> result B) (c : string) (l : list A) :
  Forall (fun a => (exists b, f a = Ok b) \/ f a = Raise c) l ->
  Exists (fun a => f a = Raise c) l ->
  map_result f l = Raise c.
Proof.
  induction 1 as [|a l Ha _ IH]; intros Hex; [inversion Hex|]. simpl.
  destruct Ha as [[b Hb]|Hr].
  - rewrite Hb. inversion Hex as [? ? Hh|? ? Ht]; subst; [congruence|].
    now rewrite (IH Ht).
  - now rewrite Hr.
Qed.

Lemma forallb_false_exists {A} (f : A -> bool) (l : list A) :
  forallb f l = false -> Exists (fun a => f a = false) l.
Proof.
  induction l as [|a l IH]; [discriminate|]. simpl.
  destruct (f a) eqn:Ha; simpl; intros H.
  - right. now apply IH.
  - now left.
Qed.

Lemma pad_right_too_long (max_len : nat) (x : list Z) (pad_id : Z) :
  max_len < length x -> pad_right max_len x pad_id = Raise "RuntimeError".
Proof.
  intros Hlt. unfold pad_right, torch_full.
  destruct (Z.ltb_spec (Z.of_nat max_len - Z.of_nat (length x)) 0);
    [reflexivity | lia].
Qed.

Lemma list_getitem_invalid (data : list Example) (i : Z) :
  ~ valid_index data i -> list_getitem data i = Raise "IndexError".
Proof.
  unfold valid_index, list_getitem. intros Hn.
  set (n := Z.of_nat (length data)) in *.
  destruct (Z.ltb_spec i 0).
  - destruct (Z.leb_spec 0 (i + n)); [lia | reflexivity].
  - destruct (Z.leb_spec 0 i); [|lia].
    destruct (Z.ltb_spec i n); [lia | reflexivity].
Qed.

(** [collate] without the assumption that labels are as long as inputs. *)
Lemma collate_spec (data : list Example) (ix : list Z) :
  ix <> [] -> Forall (valid_index data) ix ->
  collate data ix =
    if labels_fit data ix
    then Ok (map (fun i => padded 0 (width_of data ix)
                              (input_ids (pick data i))) ix,
             map (fun i => padded (-1) (width_of data ix)
                              (labels (pick data i))) ix)
    else Raise "RuntimeError".
Proof.
  intros Hne Hval. unfold collate.
  rewrite (map_result_map _ (fun i => input_ids (pick data i))).
  2:{ eapply Forall_impl; [|exact Hval]. intros i Hi. simpl.
      now rewrite (list_getitem_pick _ _ Hi). }
  rewrite (map_result_map _ (fun i => labels (pick data i))).
  2:{ eapply Forall_impl; [|exact Hval]. intros i Hi. simpl.
      now rewrite (list_getitem_pick _ _ Hi). }
  cbn [rbind]. rewrite map_map.
  rewrite py_max_list_max by (destruct ix; [congruence | discriminate]).
  cbn [rbind]. fold (width_of data ix).
  rewrite (map_result_map _ (padded 0 (width_of data ix))).
  2:{ apply Forall_forall. intros x Hx. apply in_map_iff in Hx.
      destruct Hx as [i [<- Hi]]. apply pad_right_padded.
      now apply width_of_bound. }
  cbn [rbind]. rewrite map_map.
  destruct (torch_stack_shape
              (map (fun i => padded 0 (width_of data ix)
                               (input_ids (pick data i))) ix)
              (width_of data ix)) as [-> _].
  { destruct ix; [congruence | discriminate]. }
  { apply Forall_forall. intros r Hr. apply in_map_iff in Hr.
    destruct Hr as [i [<- Hi]]. apply padded_length.
    now apply width_of_bound. }
  cbn [rbind]. unfold labels_fit.
  destruct (forallb _ ix) eqn:Hfit.
  - assert (Hlab : forall i, In i ix ->
              length (labels (pick data i)) <= width_of data ix).
    { intros i Hi. rewrite forallb_forall in Hfit.
      apply Nat.leb_le. now apply Hfit. }
    rewrite (map_result_map _ (padded (-1) (width_of data ix))).
    2:{ apply Forall_forall. intros x Hx. apply in_map_iff in Hx.
        destruct Hx as [i [<- Hi]]. apply pad_right_padded. now apply Hlab. }
    cbn [rbind]. rewrite map_map.
    destruct (torch_stack_shape
                (map (fun i => padded (-1) (width_of data ix)
                                 (labels (pick data i))) ix)
                (width_of data ix)) as [-> _].
    { destruct ix; [congruence | discriminate]. }
    { apply Forall_forall. intros r Hr. apply in_map_iff in Hr.
      destruct Hr as [i [<- Hi]]. apply padded_length. now apply Hlab. }
    reflexivity.
  - rewrite (map_result_raise _ "RuntimeError"); [reflexivity| |].
    + apply Forall_forall. intros x _.
      destruct (Nat.le_gt_cases (length x) (width_of data ix)) as [Hle|Hgt].
      * left. eexists. now apply pad_right_padded.
      * right. now apply pad_right_too_long.
    + apply forallb_false_exists in Hfit. apply Exists_exists in Hfit.
      destruct Hfit as [i [Hi Hgt]]. apply Nat.leb_gt in Hgt.
      apply Exists_exists. exists (labels (pick data i)). split.
      * apply in_map_iff. now exists i.
      * now apply pad_right_too_long.
Qed.

Lemma get_batch_spec (data : list Example) (o : option Z) (g : Gen) :
  data <> [] -> 0 < micro_batch_size h -> valid_override data o ->
  let ix := used_indices h data o g in
  get_batch h data o g =
    (if labels_fit data ix
     then Ok (map (fun i => padded 0 (width_of data ix)
                               (input_ids (pick data i))) ix,
              map (fun i => padded (-1) (width_of data ix)
                               (labels (pick data i))) ix)
     else Raise "RuntimeError",
     snd (draws (Z.of_nat (length data)) (micro_batch_size h) g)).
Proof.
  intros Hne Hmb Hov ix.
  destruct (used_indices_facts h data o g Hne Hmb Hov) as [Hlen Hval].
  fold ix in Hlen, Hval.
  unfold get_batch, torch_randint.
  destruct (length data =? 0) eqn:Hz.
  { apply Nat.eqb_eq in Hz. destruct data; [congruence | discriminate]. }
  assert (Hdl := draws_length (Z.of_nat (length data))
                   (micro_batch_size h) g).
  subst ix. unfold used_indices in *.
  destruct (draws (Z.of_nat (length data)) (micro_batch_size h) g)
    as [dr g'] eqn:Hd.
  cbn [fst snd] in *.
  assert (Hbi : batch_indices dr o
                = Ok (match o with Some l => l :: tl dr | None => dr end)).
  { destruct o as [l|]; [|reflexivity]. unfold batch_indices.
    destruct Hov as [_ Hfit].
    destruct dr; [simpl in *; lia | now apply tensor_setitem0_ok]. }
  rewrite Hbi. cbn [rbind]. f_equal.
  apply collate_spec; [|exact Hval].
  intros Hnil. rewrite Hnil in Hlen. simpl in Hlen. lia.
Qed.

(** A batch built with an override: the index tensor has taken it. *)
Lemma get_batch_override_fits (data : list Example) (l : Z) (g g' : Gen)
      (b : Tensor2 * Tensor2) :
  get_batch h data (Some l) g = (Ok b, g') -> fits_int64 l = true.
Proof.
  unfold get_batch. intros H.
  destruct (torch_randint (length data) (micro_batch_size h) g)
    as [[ix|e] g1]; [|discriminate].
  unfold batch_indices, tensor_setitem0 in H.
  destruct (fits_int64 l); [reflexivity | discriminate].
Qed.

(** X2. On a non-empty data set [get_batch] succeeds exactly when the
    labels of every example it uses are no longer than the longest input
    it uses: shorter labels are padded with -1 up to the width of the
    batch, longer ones make the padding raise [RuntimeError]. *)
Theorem get_batch_succeeds_iff_labels_fit
        (data : list Example) (o : option Z) (g : Gen) :
  data <> [] -> 0 < micro_batch_size h -> valid_override data o ->
  let ix := used_indices h data o g in
  ((exists x y g', get_batch h data o g = (Ok (x, y), g')) <->
   labels_fit data ix = true) /\
  (labels_fit data ix = true ->
   fst (get_batch h data o g) =
     Ok (map (fun i => padded 0 (width_of data ix)
                              (input_ids (pick data i))) ix,
         map (fun i => padded (-1) (width_of data ix)
                              (labels (pick data i))) ix)) /\
  (labels_fit data ix = false ->
   fst (get_batch h data o g) = Raise "RuntimeError").
Proof.
  intros Hne Hmb Hov ix.
  assert (Hs := get_batch_spec data o g Hne Hmb Hov). cbv zeta in Hs.
  fold ix in Hs. rewrite Hs. cbn [fst].
  destruct (labels_fit data ix).
  - split; [|split]; [|reflexivity|discriminate].
    split; [reflexivity|]. intros _. eexists _, _, _. reflexivity.
  - split; [|split]; [|discriminate|reflexivity].
    split; [|discriminate]. intros [x [y [g' H]]]. discriminate.
Qed.

(** X3. An override that the int64 index tensor can hold and that is no
    index of the data makes [get_batch] raise [IndexError], after the draw
    has advanced the generator. *)
Theorem get_batch_override_out_of_range
        (data : list Example) (l : Z) (g : Gen) :
  data <> [] -> 0 < micro_batch_size h ->
  fits_int64 l = true -> ~ valid_index data l ->
  get_batch h data (Some l) g =
    (Raise "IndexError",
     snd (draws (Z.of_nat (length data)) (micro_batch_size h) g)).
Proof.
  intros Hne Hmb Hfit Hbad. unfold get_batch, torch_randint.
  destruct (length data =? 0) eqn:Hz.
  { apply Nat.eqb_eq in Hz. destruct data; [congruence | discriminate]. }
  assert (Hdl := draws_length (Z.of_nat (length data))
                   (micro_batch_size h) g).
  destruct (draws (Z.of_nat (length data)) (micro_batch_size h) g)
    as [dr g'].
  cbn [fst snd] in *. f_equal.
  destruct dr as [|i0 rest]; [simpl in Hdl; lia|].
  unfold batch_indices. rewrite (tensor_setitem0_ok _ _ _ Hfit).
  cbn [rbind]. unfold collate. cbn [map_result].
  rewrite (list_getitem_invalid _ _ Hbad). reflexivity.
Qed.

(** The width of a batch against the longest example of the data. *)
Lemma get_batch_width
      (data : list Example) (o : option Z) (g g' : Gen)
      (x y : Tensor2) (len ix : nat) :
  get_longest_seq_length data = Ok (len, ix) ->
  0 < micro_batch_size h -> valid_override data o ->
  get_batch h data o g = (Ok (x, y), g') ->
  size1 x = width_of data (used_indices h data o g) /\
  size1 x <= len /\
  (o = Some (Z.of_nat ix) -> size1 x = len).
Proof.
  intros Hlong Hmb Hov Hgb.
  assert (Hne : data <> []) by (intros ->; discriminate).
  destruct (get_longest_seq_length_spec _ _ _ Hlong) as [Hvix [Hlix Hbound]].
  assert (Hs := get_batch_spec data o g Hne Hmb Hov). cbv zeta in Hs.
  destruct (used_indices_facts h data o g Hne Hmb Hov) as [Hlen Hval].
  set (ixs := used_indices h data o g) in *.
  rewrite Hgb in Hs.
  destruct (labels_fit data ixs) eqn:Hfit; [|discriminate].
  injection Hs as -> -> _.
  assert (Hw : width_of data ixs <= len).
  { unfold width_of. apply list_max_le. apply Forall_forall.
    intros n Hn. apply in_map_iff in Hn. destruct Hn as [i [<- Hi]].
    apply Hbound. apply pick_In. rewrite Forall_forall in Hval.
    now apply Hval. }
  assert (Hsz : size1 (map (fun i => padded 0 (width_of data ixs)
                                       (input_ids (pick data i))) ixs)
                = width_of data ixs).
  { destruct ixs as [|i0 rest]; [simpl in Hlen; lia|]. simpl.
    apply padded_length. apply width_of_bound. now left. }
  rewrite Hsz. split; [reflexivity|]. split; [exact Hw|].
  intros ->. apply Nat.le_antisymm; [exact Hw|].
  rewrite <- Hlix. apply width_of_bound. now left.
Qed.

(** X4. No batch is wider than the longest example of the data, its labels
    are as wide as its inputs, and a batch drawn with the index of the
    longest example as override, as the first batch of [train] is, is
    exactly that wide. *)
Theorem batch_width_at_most_longest
        (data : list Example) (o : option Z) (g g' : Gen)
        (x y : Tensor2) (len ix : nat) :
  get_longest_seq_length data = Ok (len, ix) ->
  0 < micro_batch_size h -> valid_override data o ->
  get_batch h data o g = (Ok (x, y), g') ->
  size1 x <= len /\
  Forall (fun r => length r = size1 x) x /\
  Forall (fun r => length r = size1 x) y /\
  (o = Some (Z.of_nat ix) -> size1 x = len).
Proof.
  intros Hlong Hmb Hov Hgb.
  assert (Hne : data <> []) by (intros ->; discriminate).
  destruct (get_batch_width _ _ _ _ _ _ _ _ Hlong Hmb Hov Hgb)
    as [Hsz [Hw Heq]].
  assert (Hs := get_batch_spec data o g Hne Hmb Hov). cbv zeta in Hs.
  set (ixs := used_indices h data o g) in *.
  rewrite Hgb in Hs.
  destruct (labels_fit data ixs) eqn:Hfit; [|discriminate].
  injection Hs as Hx Hy _.
  split; [exact Hw|]. rewrite Hsz. split; [|split; [|now rewrite <- Hsz]].
  - rewrite Hx. apply Forall_forall. intros r Hr. apply in_map_iff in Hr.
    destruct Hr as [i [<- Hi]]. apply padded_length.
    now apply width_of_bound.
  - rewrite Hy. apply Forall_forall. intros r Hr. apply in_map_iff in Hr.
    destruct Hr as [i [<- Hi]]. apply padded_length.
    unfold labels_fit in Hfit. rewrite forallb_forall in Hfit.
    apply Nat.leb_le. now apply Hfit.
Qed.

End SamplerEdges.

(** Indices 0 and 1 drawn: labels of length 4 do not fit the width 3, and
    labels shorter than their inputs are padded with -1. *)
Lemma get_batch_succeeds_iff_labels_fit_witness :
  fst (get_batch (E:=Toy.env) Toy.small Toy2.long_labels None 0%Z)
    = Raise "RuntimeError" /\
  fst (get_batch (E:=Toy.env) Toy.small Toy2.short_labels None 0%Z)
    = Ok ([[1; 2; 3]; [4; 5; 0]], [[3; -1; -1]; [-1; -1; -1]])%Z.
Proof.
  split.
  - apply (get_batch_succeeds_iff_labels_fit (E:=Toy.env) Toy.small
             Toy2.long_labels None 0%Z);
      [discriminate | simpl; lia | exact I | reflexivity].
  - apply (get_batch_succeeds_iff_labels_fit (E:=Toy.env) Toy.small
             Toy2.short_labels None 0%Z);
      [discriminate | simpl; lia | exact I | reflexivity].
Defined.

(** Four examples, override 7: the two draws are made, then the lookup
    fails. *)
Lemma get_batch_override_out_of_range_witness :
  get_batch (E:=Toy.env) Toy.small Toy.data (Some 7%Z) 0%Z
    = (Raise "IndexError", 2%Z).
Proof.
  apply (get_batch_override_out_of_range (E:=Toy.env) Toy.small Toy.data
           7%Z 0%Z);
    [discriminate | simpl; lia | reflexivity
    | unfold valid_index; simpl; lia].
Defined.

(** The longest example of the toy data is at index 3 and has length 9: a
    batch with override 3 is 9 wide. *)
Lemma batch_width_at_most_longest_witness :
  exists x y g',
    get_batch (E:=Toy.env) Toy.small Toy.data (Some 3%Z) 0%Z
      = (Ok (x, y), g') /\
    size1 x = 9.
Proof.
  destruct (get_batch (E:=Toy.env) Toy.small Toy.data (Some 3%Z) 0%Z)
    as [[[x y]|e] g'] eqn:H.
  - exists x, y, g'. split; [reflexivity|].
    assert (Hv : valid_override Toy.data (Some 3%Z))
      by (split; [unfold valid_index; simpl; lia | reflexivity]).
    assert (Hm : 0 < micro_batch_size Toy.small) by (simpl; lia).
    exact (proj2 (proj2 (proj2
             (batch_width_at_most_longest (E:=Toy.env) Toy.small Toy.data
                (Some 3%Z) 0%Z g' x y 9 3 eq_refl Hm Hv H))) eq_refl).
  - cannot_raise H.
Defined.

(** ** One pass, block by block *)

Section Passes.

Context {E : Env}.
Variable h : HParams.

(** The blocks of a pass that completes, each with the world it starts
    from and the world it leaves. *)
Lemma train_iter_path (train_data val_data : list Example)
      (longest_seq_ix iter_num : nat) (st st' : LoopState) (w w' : World) :
  train_iter h train_data val_data longest_seq_ix iter_num st w = (Ok st', w') ->
  exists b loss r w1 w2 w3 w4 w5 w6,
    warmup_update h (step_count st) w = (Ok tt, w1) /\
    call_get_batch h train_data
      (if iter_num =? 0 then Some (Z.of_nat longest_seq_ix) else None) w1
      = (Ok b, w2) /\
    py_mod (iter_num + 1) (gradient_accumulation_iters h) = Ok r /\
    forward_backward h (fst b) (snd b) (negb (r =? 0)) w2 = (Ok loss, w3) /\
    optimizer_update (negb (r =? 0)) (step_count st) w3
      = (Ok (step_count st'), w4) /\
    log_progress h iter_num (step_count st')
      (set_log (EvMonitor ((iter_num + 1) * micro_batch_size h) :: log w4) w4)
      = (Ok tt, w5) /\
    periodic_eval h val_data (negb (r =? 0)) iter_num (step_count st') w5
      = (Ok tt, w6) /\
    periodic_save h (negb (r =? 0)) iter_num (step_count st') w6
      = (Ok tt, w') /\
    total_lengths st' = total_lengths st + size1 (fst b).
Proof.
  unfold train_iter. cbv zeta. intros H.
  apply bind_inv in H as [[e [_ Hr]] | [[] [w1 [H1 H]]]]; [discriminate|].
  apply bind_inv in H as [[e [_ Hr]] | [b [w2 [H2 H]]]]; [discriminate|].
  apply bind_inv in H as [[e [_ Hr]] | [r [w2' [H3 H]]]]; [discriminate|].
  apply lift_inv in H3 as [H3 ->].
  apply bind_inv in H as [[e [_ Hr]] | [loss [w3 [H4 H]]]]; [discriminate|].
  apply bind_inv in H as [[e [_ Hr]] | [sc' [w4 [H5 H]]]]; [discriminate|].
  apply bind_inv in H as [[e [_ Hr]] | [[] [w4' [H6 H]]]]; [discriminate|].
  apply tick_inv in H6 as [_ ->].
  apply bind_inv in H as [[e [_ Hr]] | [[] [w5 [H7 H]]]]; [discriminate|].
  apply bind_inv in H as [[e [_ Hr]] | [[] [w6 [H8 H]]]]; [discriminate|].
  apply bind_inv in H as [[e [_ Hr]] | [[] [w7 [H9 H]]]]; [discriminate|].
  apply ret_inv in H as [H ->]. injection H as ->. cbn [step_count total_lengths].
  exists b, loss, r, w1, w2, w3, w4, w5, w6.
  repeat (split; [first [assumption | now symmetry]|]). reflexivity.
Qed.

Lemma log_progress_ok (iter_num sc : nat) (w w1 : World) :
  log_progress h iter_num sc w = (Ok tt, w1) ->
  log_interval h <> 0 /\
  w1 = if iter_num mod log_interval h =? 0
       then set_log (EvPrintIter iter_num sc :: log w) w else w.
Proof.
  unfold log_progress. intros H.
  apply bind_inv in H as [[e [_ Hr]] | [r [w2 [Hm H]]]]; [discriminate|].
  apply lift_inv in Hm as [Hm ->]. symmetry in Hm.
  apply py_mod_inv in Hm as [Hz ->]. split; [exact Hz|].
  destruct (_ =? 0).
  - now apply tick_inv in H as [_ ->].
  - now apply ret_inv in H as [_ ->].
Qed.

Lemma periodic_save_ok (acc : bool) (iter_num sc : nat) (w w1 : World) :
  periodic_save h acc iter_num sc w = (Ok tt, w1) ->
  (acc = false -> save_interval h <> 0) /\
  w1 = if negb acc && (sc mod save_interval h =? 0)
       then set_log (EvSave (IterCkpt iter_num) :: log w) w else w.
Proof.
  unfold periodic_save, save_lora_checkpoint. intros H.
  destruct acc; cbn [negb andb] in *.
  - apply ret_inv in H as [_ ->]. split; [discriminate | reflexivity].
  - apply bind_inv in H as [[e [_ Hr]] | [r [w2 [Hm H]]]]; [discriminate|].
    apply lift_inv in Hm as [Hm ->]. symmetry in Hm.
    apply py_mod_inv in Hm as [Hz ->]. split; [intros _; exact Hz|].
    destruct (_ =? 0).
    + now apply tick_inv in H as [_ ->].
    + now apply ret_inv in H as [_ ->].
Qed.

Lemma periodic_eval_ok (val_data : list Example) (acc : bool)
      (iter_num sc : nat) (w w1 : World) :
  periodic_eval h val_data acc iter_num sc w = (Ok tt, w1) ->
  (acc = false -> eval_interval h <> 0) /\
  if negb acc && (sc mod eval_interval h =? 0)
  then exists v w2,
         validate h val_data w = (Ok v, w2) /\
         w1 = set_log (EvBarrier :: EvPrintVal iter_num :: log w2) w2
  else w1 = w.
Proof.
  unfold periodic_eval. intros H.
  destruct acc; cbn [negb andb] in *.
  - apply ret_inv in H as [_ ->]. split; [discriminate | reflexivity].
  - apply bind_inv in H as [[e [_ Hr]] | [r [w2 [Hm H]]]]; [discriminate|].
    apply lift_inv in Hm as [Hm ->]. symmetry in Hm.
    apply py_mod_inv in Hm as [Hz ->]. split; [intros _; exact Hz|].
    destruct (_ =? 0).
    + apply bind_inv in H as [[e [_ Hr]] | [v [w3 [Hv H]]]]; [discriminate|].
      apply bind_inv in H as [[e [_ Hr]] | [[] [w4 [Ht H]]]]; [discriminate|].
      apply tick_inv in Ht as [_ ->]. apply tick_inv in H as [_ ->].
      now exists v, w3.
    + now apply ret_inv in H as [_ ->].
Qed.

(** [validate] records no mark of a cadence. *)
Lemma validate_no_mark (val_data : list Example) :
  preserves (logs (fun e => is_mark e = false)) (validate h val_data).
Proof.
  intros w r w' H. apply validate_inv in H as [w1 [H ->]].
  assert (Hp : preserves (logs (fun e => is_mark e = false))
                 (validate_body h val_data)).
  { unfold validate_body, model_eval, model_train, validate_step,
      call_get_batch. frame_logs. }
  destruct (Hp _ _ _ H) as [d [Hd Hf]]. exists d. split; [|exact Hf].
  exact Hd.
Qed.

Lemma count_ev_app (p : event -> bool) (d l : list event) :
  count_ev p (d ++ l) = count_ev p d + count_ev p l.
Proof. unfold count_ev. now rewrite filter_app, length_app. Qed.

Lemma count_ev_cons (p : event -> bool) (e : event) (l : list event) :
  count_ev p (e :: l) = count_ev p [e] + count_ev p l.
Proof. exact (count_ev_app p [e] l). Qed.

Lemma count_ev_cons_unmarked (p : event -> bool) (e : event)
      (l : list event) :
  (forall e, is_mark e = false -> p e = false) -> is_mark e = false ->
  count_ev p (e :: l) = count_ev p l.
Proof.
  intros Hp He. unfold count_ev. simpl. now rewrite (Hp e He).
Qed.

Lemma logs_count_same (p : event -> bool) (w w' : World) :
  (forall e, is_mark e = false -> p e = false) ->
  logs (fun e => is_mark e = false) w w' ->
  count_ev p (log w') = count_ev p (log w).
Proof.
  intros Hp [d [Hd Hf]]. rewrite Hd, count_ev_app.
  assert (Hz : count_ev p d = 0).
  { clear Hd. induction Hf as [|e d He _ IH]; [reflexivity|].
    unfold count_ev in *. simpl. now rewrite (Hp e He). }
  now rewrite Hz.
Qed.

(** The blocks before the report record no mark either. *)
Lemma blocks_no_mark :
  (forall sc, preserves (logs (fun e => is_mark e = false))
                (warmup_update h sc)) /\
  (forall data o, preserves (logs (fun e => is_mark e = false))
                    (call_get_batch h data o)) /\
  (forall x y acc, preserves (logs (fun e => is_mark e = false))
                     (forward_backward h x y acc)) /\
  (forall acc sc, preserves (logs (fun e => is_mark e = false))
                    (optimizer_update acc sc)).
Proof.
  repeat split; intros; unfold_blocks; frame_logs.
Qed.

(** The marks a completed pass adds to the log. *)
Lemma train_iter_marks (p : event -> bool)
      (train_data val_data : list Example)
      (longest_seq_ix iter_num : nat) (st st' : LoopState) (w w' : World) :
  (forall e, is_mark e = false -> p e = false) ->
  train_iter h train_data val_data longest_seq_ix iter_num st w = (Ok st', w') ->
  let sync := (iter_num + 1) mod gradient_accumulation_iters h =? 0 in
  log_interval h <> 0 /\
  (sync = true -> eval_interval h <> 0 /\ save_interval h <> 0) /\
  count_ev p (log w') =
    count_ev p (log w)
    + (if iter_num mod log_interval h =? 0
       then count_ev p [EvPrintIter iter_num (step_count st')] else 0)
    + (if sync && (step_count st' mod eval_interval h =? 0)
       then count_ev p [EvBarrier; EvPrintVal iter_num] else 0)
    + (if sync && (step_count st' mod save_interval h =? 0)
       then count_ev p [EvSave (IterCkpt iter_num)] else 0).
Proof.
  intros Hp H sync. apply train_iter_path in H.
  destruct H as [b [loss [r [w1 [w2 [w3 [w4 [w5 [w6
                [H1 [H2 [H3 [H4 [H5 [H6 [H7 [H8 _]]]]]]]]]]]]]]]]].
  apply py_mod_inv in H3 as [_ ->]. fold sync in H4, H5, H7, H8.
  assert (Hpre : count_ev p (log w4) = count_ev p (log w)).
  { destruct blocks_no_mark as [B1 [B2 [B3 B4]]].
    rewrite (logs_count_same p _ _ Hp (B4 _ _ _ _ _ H5)),
      (logs_count_same p _ _ Hp (B3 _ _ _ _ _ _ H4)),
      (logs_count_same p _ _ Hp (B2 _ _ _ _ _ H2)).
    exact (logs_count_same p _ _ Hp (B1 _ _ _ _ H1)). }
  apply log_progress_ok in H6 as [HL ->].
  apply periodic_eval_ok in H7 as [HE H7].
  apply periodic_save_ok in H8 as [HS ->].
  rewrite negb_involutive in *.
  split; [exact HL|]. split.
  { intros Hs. rewrite Hs in *. split; [now apply HE | now apply HS]. }
  set (w5 := if iter_num mod log_interval h =? 0 then _ else _) in *.
  assert (C5 : count_ev p (log w5) =
                count_ev p (log w)
                + (if iter_num mod log_interval h =? 0
                   then count_ev p [EvPrintIter iter_num (step_count st')]
                   else 0)).
  { subst w5. destruct (iter_num mod log_interval h =? 0);
      cbn [log set_log].
    - rewrite count_ev_cons,
        (count_ev_cons_unmarked p (EvMonitor _) _ Hp eq_refl), Hpre. lia.
    - rewrite (count_ev_cons_unmarked p (EvMonitor _) _ Hp eq_refl), Hpre.
      lia. }
  assert (C6 : count_ev p (log w6) =
                count_ev p (log w5)
                + (if sync && (step_count st' mod eval_interval h =? 0)
                   then count_ev p [EvBarrier; EvPrintVal iter_num] else 0)).
  { destruct (sync && (step_count st' mod eval_interval h =? 0)).
    - destruct H7 as [v [u [Hv ->]]]. cbn [log set_log].
      change (EvBarrier :: EvPrintVal iter_num :: log u)
        with ([EvBarrier; EvPrintVal iter_num] ++ log u).
      rewrite count_ev_app.
      rewrite (logs_count_same p _ _ Hp (validate_no_mark _ _ _ _ Hv)). lia.
    - rewrite H7. lia. }
  destruct (sync && (step_count st' mod save_interval h =? 0));
    cbn [log set_log].
  - change (EvSave (IterCkpt iter_num) :: log w6)
      with ([EvSave (IterCkpt iter_num)] ++ log w6).
    rewrite count_ev_app, C6, C5. lia.
  - rewrite C6, C5. lia.
Qed.

End Passes.

(** ** Cadences of the loop *)

Section Cadences.

Context {E : Env}.
Variable h : HParams.

Lemma ceil_div_succ (n l : nat) :
  l <> 0 ->
  (n + 1 + l - 1) / l = (n + l - 1) / l + (if n mod l =? 0 then 1 else 0).
Proof.
  intros Hl. replace (n + 1 + l - 1) with ((n + l - 1) + 1) by lia.
  rewrite (div_succ _ _ Hl).
  replace (n + l - 1 + 1) with (n + 1 * l) by lia.
  now rewrite Nat.Div0.mod_add.
Qed.

Lemma nested_div_succ (n g k : nat) :
  g <> 0 -> (((n + 1) mod g =? 0) = true -> k <> 0) ->
  (n + 1) / g / k =
  n / g / k + (if ((n + 1) mod g =? 0) && ((n + 1) / g mod k =? 0)
               then 1 else 0).
Proof.
  intros Hg Hk. rewrite (div_succ n g Hg).
  destruct ((n + 1) mod g =? 0); cbn [andb].
  - apply div_succ. now apply Hk.
  - now rewrite !Nat.add_0_r.
Qed.

Lemma mark_predicates :
  (forall e, is_mark e = false -> is_print_iter e = false) /\
  (forall e, is_mark e = false -> is_print_val e = false) /\
  (forall e, is_mark e = false -> is_barrier e = false) /\
  (forall e, is_mark e = false -> is_iter_save e = false) /\
  (forall e, is_mark e = false -> is_final_save e = false).
Proof. repeat split; intros [] H; try reflexivity; discriminate. Qed.

(** The marks in the log after [n] passes that all completed. *)
Lemma train_loop_marks (train_data val_data : list Example)
      (longest_seq_ix : nat) (n : nat) :
  forall (st : LoopState) (w w' : World),
    train_loop h train_data val_data longest_seq_ix n w = (Ok st, w') ->
    count_ev is_print_iter (log w') =
      count_ev is_print_iter (log w)
      + (n + log_interval h - 1) / log_interval h /\
    count_ev is_print_val (log w') =
      count_ev is_print_val (log w)
      + n / gradient_accumulation_iters h / eval_interval h /\
    count_ev is_barrier (log w') =
      count_ev is_barrier (log w)
      + n / gradient_accumulation_iters h / eval_interval h /\
    count_ev is_iter_save (log w') =
      count_ev is_iter_save (log w)
      + n / gradient_accumulation_iters h / save_interval h /\
    count_ev is_final_save (log w') = count_ev is_final_save (log w).
Proof.
  destruct mark_predicates as [P1 [P2 [P3 [P4 P5]]]].
  induction n as [|n IH]; intros st w w' H.
  - unfold train_loop, for_range in H. simpl in H.
    apply ret_inv in H as [_ ->].
    rewrite !Nat.Div0.div_0_l.
    assert (Hz : (0 + log_interval h - 1) / log_interval h = 0).
    { destruct (log_interval h) as [|l]; [reflexivity|].
      apply Nat.div_small. lia. }
    rewrite Hz. repeat split; lia.
  - assert (Hsc := proj1 (train_loop_spec h _ _ _ _ _ _ _ H)).
    unfold train_loop, for_range in H. rewrite for_loop_snoc in H.
    destruct (for_loop 0 n _ _ w) as [[s1|e] w1] eqn:Hpre; [|discriminate].
    assert (Hsc1 := proj1 (train_loop_spec h _ _ _ n _ _ _ Hpre)).
    destruct (IH _ _ _ Hpre) as [I1 [I2 [I3 [I4 I5]]]]. simpl in H.
    assert (Hg : gradient_accumulation_iters h <> 0).
    { pose proof (train_iter_ok h _ _ _ _ _ _ _ _ H) as T. cbv zeta in T.
      destruct T as [b [g [_ [Hg _]]]]. exact Hg. }
    assert (M1 := train_iter_marks h is_print_iter _ _ _ _ _ _ _ _ P1 H).
    assert (M2 := train_iter_marks h is_print_val _ _ _ _ _ _ _ _ P2 H).
    assert (M3 := train_iter_marks h is_barrier _ _ _ _ _ _ _ _ P3 H).
    assert (M4 := train_iter_marks h is_iter_save _ _ _ _ _ _ _ _ P4 H).
    assert (M5 := train_iter_marks h is_final_save _ _ _ _ _ _ _ _ P5 H).
    cbv zeta in M1, M2, M3, M4, M5.
    destruct M1 as [HL [Hnz M1]]. destruct M2 as [_ [_ M2]].
    destruct M3 as [_ [_ M3]]. destruct M4 as [_ [_ M4]].
    destruct M5 as [_ [_ M5]].
    rewrite Hsc in M1, M2, M3, M4, M5.
    replace (S n) with (n + 1) in * by lia.
    assert (D2 := nested_div_succ n _ (eval_interval h) Hg
                    (fun Hs => proj1 (Hnz Hs))).
    assert (D4 := nested_div_succ n _ (save_interval h) Hg
                    (fun Hs => proj2 (Hnz Hs))).
    assert (D1 := ceil_div_succ n _ HL).
    rewrite D1, D2, D4, M1, M2, M3, M4, M5, I1, I2, I3, I4, I5.
    unfold count_ev. cbn [filter is_print_iter is_print_val is_barrier
                          is_iter_save is_final_save length].
    repeat split;
      repeat match goal with
             | |- context [if ?c then _ else _] => destruct c
             end; lia.
Qed.

End Cadences.

Section CadenceFacts.

Context {E : Env}.
Variable h : HParams.

(** Checkpoints are written at boundaries only, under the index of the
    pass. *)
Lemma train_iter_saves (train_data val_data : list Example)
      (longest_seq_ix iter_num : nat) (st : LoopState) :
  preserves
    (logs (fun e => forall p, e = EvSave p ->
                    p = IterCkpt iter_num /\
                    (iter_num + 1) mod gradient_accumulation_iters h = 0))
    (train_iter h train_data val_data longest_seq_ix iter_num st).
Proof.
  unfold train_iter.
  apply preserves_bind; [apply logs_trans | | intros _].
  { unfold_blocks.
    repeat first
      [ frame_struct ltac:(apply logs_refl) ltac:(apply logs_trans)
      | logs_prim_with ltac:(intros p0 He; discriminate He) ]. }
  apply preserves_bind; [apply logs_trans | | intros b].
  { unfold_blocks.
    repeat first
      [ frame_struct ltac:(apply logs_refl) ltac:(apply logs_trans)
      | logs_prim_with ltac:(intros p0 He; discriminate He) ]. }
  cbv zeta. apply preserves_bind_lift; [apply logs_refl|].
  intros r0 Hr0. apply py_mod_inv in Hr0 as [_ ->].
  destruct (Nat.eqb_spec ((iter_num + 1) mod gradient_accumulation_iters h) 0)
    as [Hs|Hs]; unfold_blocks; cbn [negb];
    repeat first
      [ frame_struct ltac:(apply logs_refl) ltac:(apply logs_trans)
      | intros w r w' H; eapply logs_weaken;
        [|exact (validate_no_mark h _ _ _ _ H)];
        intros [] Hm p0 He; solve [discriminate He | discriminate Hm]
      | logs_prim_with
          ltac:(intros p0 He;
                first [ discriminate He
                      | injection He as <-; split; [reflexivity | exact Hs] ]) ].
Qed.

(** X5. A pass writes a checkpoint exactly when it is at an accumulation
    boundary and the new [step_count] is a multiple of [save_interval];
    the checkpoint is named after the index of the pass; after [N] passes
    the loop has written [N / gradient_accumulation_iters / save_interval]
    checkpoints, and never the final one. *)
Theorem periodic_checkpoints (train_data val_data : list Example)
        (longest_seq_ix : nat) :
  (forall iter_num st w st' w',
      train_iter h train_data val_data longest_seq_ix iter_num st w
        = (Ok st', w') ->
      count_ev is_iter_save (log w') =
        count_ev is_iter_save (log w)
        + (if ((iter_num + 1) mod gradient_accumulation_iters h =? 0)
              && (step_count st' mod save_interval h =? 0)
           then 1 else 0)) /\
  (forall iter_num st w r w',
      train_iter h train_data val_data longest_seq_ix iter_num st w
        = (r, w') ->
      logs (fun e => forall p, e = EvSave p ->
                     p = IterCkpt iter_num /\
                     (iter_num + 1) mod gradient_accumulation_iters h = 0)
           w w') /\
  (forall N st w w',
      train_loop h train_data val_data longest_seq_ix N w = (Ok st, w') ->
      count_ev is_iter_save (log w') =
        count_ev is_iter_save (log w)
        + N / gradient_accumulation_iters h / save_interval h /\
      count_ev is_final_save (log w') = count_ev is_final_save (log w)).
Proof.
  destruct mark_predicates as [_ [_ [_ [P4 _]]]].
  split; [|split].
  - intros iter_num st w st' w' H.
    destruct (train_iter_marks h is_iter_save _ _ _ _ _ _ _ _ P4 H)
      as [_ [_ M]].
    rewrite M. unfold count_ev. cbn [filter is_iter_save length].
    repeat match goal with
           | |- context [if ?c then _ else _] => destruct c
           end; lia.
  - intros iter_num st w r w' H. eapply train_iter_saves. exact H.
  - intros N st w w' H.
    destruct (train_loop_marks h _ _ _ _ _ _ _ H) as [_ [_ [_ [M4 M5]]]].
    now split.
Qed.


(** X7. A pass prints its progress line exactly when its index is a
    multiple of [log_interval], whether it accumulates or not; after [N]
    passes there are as many lines as multiples of [log_interval] below
    [N]. *)
Theorem progress_lines (train_data val_data : list Example)
        (longest_seq_ix : nat) :
  (forall iter_num st w st' w',
      train_iter h train_data val_data longest_seq_ix iter_num st w
        = (Ok st', w') ->
      count_ev is_print_iter (log w') =
        count_ev is_print_iter (log w)
        + (if iter_num mod log_interval h =? 0 then 1 else 0)) /\
  (forall N st w w',
      train_loop h train_data val_data longest_seq_ix N w = (Ok st, w') ->
      count_ev is_print_iter (log w') =
        count_ev is_print_iter (log w)
        + (N + log_interval h - 1) / log_interval h).
Proof.
  destruct mark_predicates as [P1 _].
  split.
  - intros iter_num st w st' w' H.
    destruct (train_iter_marks h is_print_iter _ _ _ _ _ _ _ _ P1 H)
      as [_ [_ M]].
    rewrite M. unfold count_ev. cbn [filter is_print_iter length].
    repeat match goal with
           | |- context [if ?c then _ else _] => destruct c
           end; lia.
  - intros N st w w' H.
    now destruct (train_loop_marks h _ _ _ _ _ _ _ H) as [M1 _].
Qed.

(** X8. A pass completes only with non-zero divisors: the accumulation
    width and [log_interval] always, [warmup_steps] while the warm-up
    lasts, [eval_interval] and [save_interval] at a boundary.  With
    [warmup_steps = 0] the very first pass raises [ZeroDivisionError]
    before a batch is drawn, so the loop never gets past it. *)
Theorem pass_needs_nonzero_intervals (train_data val_data : list Example)
        (longest_seq_ix : nat) :
  (forall iter_num st w st' w',
      train_iter h train_data val_data longest_seq_ix iter_num st w
        = (Ok st', w') ->
      gradient_accumulation_iters h <> 0 /\
      log_interval h <> 0 /\
      (step_count st <= warmup_steps h -> warmup_steps h <> 0) /\
      ((iter_num + 1) mod gradient_accumulation_iters h = 0 ->
       eval_interval h <> 0 /\ save_interval h <> 0)) /\
  (warmup_steps h = 0 ->
   forall n w,
     train_loop h train_data val_data longest_seq_ix (S n) w
       = (Raise "ZeroDivisionError", w)).
Proof.
  destruct mark_predicates as [P1 _].
  split.
  - intros iter_num st w st' w' H.
    destruct (train_iter_marks h is_print_iter _ _ _ _ _ _ _ _ P1 H)
      as [HL [Hnz _]].
    pose proof (train_iter_ok h _ _ _ _ _ _ _ _ H) as T. cbv zeta in T.
    destruct T as [b [g [_ [Hg [_ [_ [_ [_ [Hw _]]]]]]]]].
    split; [exact Hg|]. split; [exact HL|]. split.
    + intros Hle. apply Hw. now apply Nat.leb_le.
    + intros Hs. apply Hnz. now apply Nat.eqb_eq.
  - intros Hw n w. unfold train_loop, for_range.
    change (for_loop 0 (S n)
              (train_iter h train_data val_data longest_seq_ix)
              {| step_count := 0; total_lengths := 0 |} w)
      with (bind (train_iter h train_data val_data longest_seq_ix 0
                    {| step_count := 0; total_lengths := 0 |})
                 (fun s' => for_loop 1 n
                    (train_iter h train_data val_data longest_seq_ix) s') w).
    apply bind_raise. unfold train_iter. apply bind_raise.
    unfold warmup_update. cbn [step_count].
    assert (Hz := warmup_lr_zero h 0 Hw (Nat.le_0_l _)).
    rewrite Hw. cbn [Nat.leb]. apply bind_raise. unfold lift.
    now rewrite Hz.
Qed.

End CadenceFacts.

(** Seven passes of width 2 take three steps: one checkpoint with
    [save_interval = 2]. *)
Lemma periodic_checkpoints_witness :
  exists st w',
    train_loop (E:=Toy.env) Toy2.cadence Toy.data Toy.val_data 3 7
               (Toy.world 0) = (Ok st, w') /\
    count_ev is_iter_save (log w') = 1 /\
    count_ev is_final_save (log w') = 0.
Proof.
  destruct (train_loop (E:=Toy.env) Toy2.cadence Toy.data Toy.val_data 3 7
              (Toy.world 0)) as [[st|e] w'] eqn:H.
  - exists st, w'. split; [reflexivity|].
    exact (proj2 (proj2 (periodic_checkpoints (E:=Toy.env) Toy2.cadence
                           Toy.data Toy.val_data 3))
                 7 st (Toy.world 0) w' H).
  - cannot_raise H.
Defined.


(** With [log_interval = 3] it prints at passes 0, 3 and 6. *)
Lemma progress_lines_witness :
  exists st w',
    train_loop (E:=Toy.env) Toy2.cadence Toy.data Toy.val_data 3 7
               (Toy.world 0) = (Ok st, w') /\
    count_ev is_print_iter (log w') = 3.
Proof.
  destruct (train_loop (E:=Toy.env) Toy2.cadence Toy.data Toy.val_data 3 7
              (Toy.world 0)) as [[st|e] w'] eqn:H.
  - exists st, w'. split; [reflexivity|].
    exact (proj2 (progress_lines (E:=Toy.env) Toy2.cadence
                    Toy.data Toy.val_data 3)
                 7 st (Toy.world 0) w' H).
  - cannot_raise H.
Defined.

(** Without a warm-up length the loop stops in its first pass, the world
    as it was. *)
Lemma pass_needs_nonzero_intervals_witness :
  train_loop (E:=Toy.env) Toy2.no_warmup Toy.data Toy.val_data 3 4
             (Toy.world 0)
    = (Raise "ZeroDivisionError", Toy.world 0).
Proof.
  exact (proj2 (pass_needs_nonzero_intervals (E:=Toy.env) Toy2.no_warmup
                  Toy.data Toy.val_data 3)
               eq_refl 3 (Toy.world 0)).
Defined.

(** ** Gradients over an accumulation window *)

Section Windows.

Context {E : Env}.
Variable h : HParams.

(** A completed pass that accumulates, past the first: one batch drawn
    without override, its gradient added, nothing else changed but the
    rates and the log. *)
Lemma train_iter_accumulates (train_data val_data : list Example)
      (longest_seq_ix iter_num : nat) (st st' : LoopState) (w w' : World) :
  iter_num <> 0 ->
  (iter_num + 1) mod gradient_accumulation_iters h <> 0 ->
  train_iter h train_data val_data longest_seq_ix iter_num st w = (Ok st', w') ->
  exists b,
    get_batch h train_data None (gen w) = (Ok b, gen w') /\
    grad (model w') =
      backward (params (model w)) (fst b) (snd b)
               (gradient_accumulation_iters h) (grad (model w)) /\
    params (model w') = params (model w) /\
    opt_state (optimizer w') = opt_state (optimizer w) /\
    step_count st' = step_count st.
Proof.
  intros Hi Hacc H.
  destruct (train_iter_path h _ _ _ _ _ _ _ _ H)
    as [b [loss [r [w1 [w2 [w3 [w4 [w5 [w6
         [H1 [H2 [H3 [H4 [H5 [H6 [H7 [H8 _]]]]]]]]]]]]]]]]].
  apply py_mod_inv in H3 as [_ ->].
  apply Nat.eqb_neq in Hacc. rewrite Hacc in *. cbn [negb] in *.
  apply Nat.eqb_neq in Hi. rewrite Hi in H2.
  apply warmup_update_ok in H1 as [G1 [M1 [O1 _]]].
  apply call_get_batch_inv in H2 as [g [Hb ->]]. rewrite G1 in Hb.
  apply forward_backward_ok in H4 as [G3 [O3 [P3 [D3 _]]]].
  cbn in G3, O3, P3, D3. rewrite M1 in P3, D3.
  apply optimizer_update_ok in H5 as [Hsc [_ [_ [_ [Hw4 _]]]]].
  rewrite (Hw4 eq_refl) in *. clear Hw4.
  apply log_progress_ok in H6 as [_ ->].
  apply periodic_eval_ok in H7 as [_ H7]. cbn [negb andb] in H7. subst w6.
  apply periodic_save_ok in H8 as [_ H8]. cbn [negb andb] in H8. subst w'.
  exists b.
  destruct (iter_num mod log_interval h =? 0); cbn;
    rewrite G3, D3, P3, O3, O1;
    (split; [exact Hb|]); repeat split; lia.
Qed.

Lemma successive_batches_cons (data : list Example) (n : nat) (g g1 g2 : Gen)
      (b : Tensor2 * Tensor2) (bs : list (Tensor2 * Tensor2)) :
  get_batch h data None g = (Ok b, g1) ->
  successive_batches h data n g1 = (Ok bs, g2) ->
  successive_batches h data (S n) g = (Ok (b :: bs), g2).
Proof.
  intros Hb Hbs. cbn [successive_batches]. now rewrite Hb, Hbs.
Qed.

Lemma successive_batches_snoc (data : list Example) (n : nat) :
  forall (g g1 g2 : Gen) (b : Tensor2 * Tensor2)
         (bs : list (Tensor2 * Tensor2)),
    successive_batches h data n g = (Ok bs, g1) ->
    get_batch h data None g1 = (Ok b, g2) ->
    successive_batches h data (S n) g = (Ok (bs ++ [b]), g2).
Proof.
  induction n as [|n IH]; intros g g1 g2 b bs Hbs Hb.
  - injection Hbs as <- <-. cbn [successive_batches]. now rewrite Hb.
  - cbn [successive_batches] in Hbs.
    destruct (get_batch h data None g) as [[b0|e] g0] eqn:H0;
      [|discriminate].
    destruct (successive_batches h data n g0) as [[bs0|e] g3] eqn:H3;
      [|discriminate].
    injection Hbs as <- <-.
    apply (successive_batches_cons _ _ _ _ _ _ _ H0).
    now apply (IH _ _ _ _ _ H3).
Qed.

Lemma successive_batches_length (data : list Example) (n : nat) :
  forall (g g1 : Gen) (bs : list (Tensor2 * Tensor2)),
    successive_batches h data n g = (Ok bs, g1) -> length bs = n.
Proof.
  induction n as [|n IH]; intros g g1 bs Hbs.
  - now injection Hbs as <- _.
  - cbn [successive_batches] in Hbs.
    destruct (get_batch h data None g) as [[b0|e] g0]; [|discriminate].
    destruct (successive_batches h data n g0) as [[bs0|e] g3] eqn:H3;
      [|discriminate].
    injection Hbs as <- _. simpl. f_equal. now apply (IH _ _ _ H3).
Qed.

(** Passes that all accumulate: the gradient is that of the batches drawn
    in a row, folded onto the one found. *)
Lemma accumulating_passes (train_data val_data : list Example)
      (longest_seq_ix : nat) (n : nat) :
  forall (start : nat) (st st' : LoopState) (w w' : World),
    (forall i, start <= i < start + n ->
               i <> 0 /\ (i + 1) mod gradient_accumulation_iters h <> 0) ->
    for_loop start n (train_iter h train_data val_data longest_seq_ix) st w
      = (Ok st', w') ->
    exists bs,
      successive_batches h train_data n (gen w) = (Ok bs, gen w') /\
      grad (model w') =
        fold_left (fun gr b => backward (params (model w)) (fst b) (snd b)
                                        (gradient_accumulation_iters h) gr)
                  bs (grad (model w)) /\
      params (model w') = params (model w) /\
      opt_state (optimizer w') = opt_state (optimizer w) /\
      step_count st' = step_count st.
Proof.
  induction n as [|n IH]; intros start st st' w w' Hall H.
  - apply ret_inv in H as [H ->]. injection H as ->.
    exists []. repeat split.
  - change (for_loop start (S n)
              (train_iter h train_data val_data longest_seq_ix) st w)
      with (bind (train_iter h train_data val_data longest_seq_ix start st)
                 (fun s' => for_loop (S start) n
                    (train_iter h train_data val_data longest_seq_ix) s') w)
      in H.
    apply bind_inv in H as [[e [_ Hr]] | [st1 [w1 [H1 H]]]]; [discriminate|].
    destruct (Hall start ltac:(lia)) as [Hs0 Hs1].
    destruct (train_iter_accumulates _ _ _ _ _ _ _ _ Hs0 Hs1 H1)
      as [b [Hb [Hg [Hp [Ho Hsc]]]]].
    destruct (IH (S start) st1 st' w1 w') as [bs [Hbs [Hg' [Hp' [Ho' Hsc']]]]];
      [intros i Hi; apply Hall; lia | exact H |].
    exists (b :: bs). split; [|split; [|split; [|split]]].
    + exact (successive_batches_cons _ _ _ _ _ _ _ Hb Hbs).
    + cbn [fold_left]. rewrite Hg', Hp, Hg. reflexivity.
    + congruence.
    + congruence.
    + congruence.
Qed.

(** X9. Over a window of [gradient_accumulation_iters] passes that starts
    at a positive multiple of that number, the batches are drawn in a row
    from the generator, the weights stay put until the last pass, and the
    single [optimizer.step()] of the window, in its last pass, is given
    the gradient found at the start with the gradient of every batch of
    the window added, all computed on the weights of the start; the
    gradient is then reset. *)
Theorem window_gradient (train_data val_data : list Example)
        (longest_seq_ix k : nat) (st st' : LoopState) (w w' : World) :
  gradient_accumulation_iters h <> 0 -> 0 < k ->
  for_loop (k * gradient_accumulation_iters h)
           (gradient_accumulation_iters h)
           (train_iter h train_data val_data longest_seq_ix) st w
    = (Ok st', w') ->
  exists bs g,
    successive_batches h train_data (gradient_accumulation_iters h) (gen w)
      = (Ok bs, g) /\
    length bs = gradient_accumulation_iters h /\
    (opt_state (optimizer w'), params (model w')) =
      optimizer_step (param_groups (optimizer w'))
        (opt_state (optimizer w)) (params (model w))
        (fold_left (fun gr b => backward (params (model w)) (fst b) (snd b)
                                         (gradient_accumulation_iters h) gr)
                   bs (grad (model w))) /\
    grad (model w') = grad_zero /\
    step_count st' = step_count st + 1.
Proof.
  intros Hg Hk H.
  destruct (gradient_accumulation_iters h) as [|n] eqn:Hgai; [congruence|].
  rewrite for_loop_snoc in H.
  destruct (for_loop (k * S n) n
              (train_iter h train_data val_data longest_seq_ix) st w)
    as [[st1|e] w1] eqn:H1; [|discriminate].
  assert (Hmul : (k * S n) mod S n = 0) by (apply Nat.Div0.mod_mul).
  assert (Hall : forall i, k * S n <= i < k * S n + n ->
                 i <> 0 /\ (i + 1) mod gradient_accumulation_iters h <> 0).
  { intros i Hi. split; [nia|]. rewrite Hgai.
    replace (i + 1) with ((i - k * S n + 1) + k * S n) by lia.
    rewrite Nat.Div0.mod_add. rewrite Nat.mod_small by lia. lia. }
  destruct (accumulating_passes _ _ _ _ _ _ _ _ _ Hall H1)
    as [bs [Hbs [Hgr [Hp [Ho Hsc]]]]].
  pose proof (train_iter_ok h _ _ _ _ _ _ _ _ H) as T. cbv zeta in T.
  destruct T as [b [g [Hb [_ [Hsc' [_ [_ [_ [_ Hsy]]]]]]]]].
  assert (Hlast : (k * S n + n + 1) mod gradient_accumulation_iters h = 0).
  { rewrite Hgai. replace (k * S n + n + 1) with ((k + 1) * S n) by lia.
    apply Nat.Div0.mod_mul. }
  rewrite Hlast in *. cbn [Nat.eqb] in *.
  destruct (Hsy eq_refl) as [Hz Hstep].
  replace (k * S n + n =? 0) with false in Hb
    by (symmetry; apply Nat.eqb_neq; nia).
  rewrite Hgai in *.
  exists (bs ++ [b]), g. split; [|split; [|split; [|split]]].
  - exact (successive_batches_snoc _ _ _ _ _ _ _ Hbs Hb).
  - rewrite length_app, (successive_batches_length _ _ _ _ _ Hbs).
    simpl. lia.
  - rewrite Hstep, fold_left_app. cbn [fold_left].
    rewrite Hp, Ho, Hgr. reflexivity.
  - exact Hz.
  - lia.
Qed.

End Windows.

(** Width 2, second window: passes 2 and 3 end in the second step. *)
Lemma window_gradient_witness :
  exists st' w',
    for_loop 2 2
      (train_iter (E:=Toy.env) Toy2.cadence Toy.data Toy.val_data 3)
      {| step_count := 1; total_lengths := 0 |} (Toy.world 0)
      = (Ok st', w') /\
    step_count st' = 2 /\
    grad (model w') = 0.
Proof.
  destruct (for_loop 2 2
              (train_iter (E:=Toy.env) Toy2.cadence Toy.data Toy.val_data 3)
              {| step_count := 1; total_lengths := 0 |} (Toy.world 0))
    as [[st'|e] w'] eqn:H.
  - exists st', w'. split; [reflexivity|].
    assert (Hg : gradient_accumulation_iters Toy2.cadence <> 0)
      by discriminate.
    assert (Hk : 0 < 1) by lia.
    destruct (window_gradient (E:=Toy.env) Toy2.cadence Toy.data
                Toy.val_data 3 1 _ st' (Toy.world 0) w' Hg Hk H)
      as [bs [g [_ [_ [_ [Hz Hsc]]]]]].
    split; [exact Hsc | exact Hz].
  - cannot_raise H.
Defined.

(** ** What an evaluation leaves behind *)

Section EvalFootprint.

Context {E : Env}.
Variable h : HParams.

Lemma validate_eval_events (val_data : list Example) :
  preserves (logs eval_event) (validate h val_data).
Proof.
  intros w r w' H. apply validate_inv in H as [w1 [H ->]].
  assert (Hp : preserves (logs eval_event) (validate_body h val_data)).
  { unfold validate_body, model_eval, model_train, validate_step,
      call_get_batch. frame_logs. }
  destruct (Hp _ _ _ H) as [d [Hd Hf]]. exists d. split; [|exact Hf].
  exact Hd.
Qed.

Lemma validate_body_kv (val_data : list Example) (w w' : World) (v : Scalar) :
  validate_body h val_data w = (Ok v, w') -> kv_cache (model w') = false.
Proof.
  unfold validate_body. intros H.
  exec H.
  apply bind_inv in H as [[e [_ Hr]] | [[] [w1 [Hm H]]]]; [discriminate|].
  clear Hm.
  apply bind_inv in H as [[e [_ Hr]] | [losses [w2 [Hm H]]]]; [discriminate|].
  clear Hm.
  exec H. exec H. exec H. exec H. exec H. exec H. exec H.
  apply bind_inv in H as [[e [_ Hr]] | [output [w3 [Hg H]]]]; [discriminate|].
  apply with_gen_inv in Hg as [g [_ ->]].
  exec H. exec H. exec H.
  apply bind_inv in H as [[e [_ Hr]] | [[] [w4 [Ht H]]]]; [discriminate|].
  apply model_train_inv in Ht as [_ ->].
  prim_inv H. reflexivity.
Qed.

(** X10. Whatever its outcome, [validate] leaves the optimizer, the
    weights, the gradients and the model's [max_seq_length] as they were,
    and records nothing but prints, mode switches, batches without
    override, forward passes and the generation: no backward pass, no
    optimizer call, no checkpoint, no barrier.  When it returns, the
    key-value cache it set up for the generation is cleared. *)
Theorem validate_footprint (val_data : list Example) (w w' : World)
        (r : result Scalar) :
  validate h val_data w = (r, w') ->
  optimizer w' = optimizer w /\
  params (model w') = params (model w) /\
  grad (model w') = grad (model w) /\
  max_seq_length (model w') = max_seq_length (model w) /\
  logs eval_event w w' /\
  (forall v, r = Ok v -> kv_cache (model w') = false).
Proof.
  intros H.
  destruct (validate_frame h _ _ _ _ H) as [Ho [Hp [Hg [Hm _]]]].
  split; [exact Ho|]. split; [exact Hp|]. split; [exact Hg|].
  split; [exact Hm|]. split.
  - exact (validate_eval_events _ _ _ _ H).
  - intros v ->. apply validate_inv in H as [w1 [H ->]].
    apply validate_body_kv in H. exact H.
Qed.

End EvalFootprint.

(** An evaluation of the toy model returns with the cache cleared, and one
    on empty data raises with the weights in place. *)
Lemma validate_footprint_witness :
  kv_cache (model (snd (validate (E:=Toy.env) Toy.small Toy.val_data
                          (Toy.world 0)))) = false /\
  params (model (snd (validate (E:=Toy.env) Toy.small [] (Toy.world 0))))
    = tt.
Proof.
  split.
  - destruct (validate (E:=Toy.env) Toy.small Toy.val_data (Toy.world 0))
      as [[v|e] w'] eqn:H.
    + exact (proj2 (proj2 (proj2 (proj2 (proj2
               (validate_footprint (E:=Toy.env) Toy.small Toy.val_data
                  (Toy.world 0) w' (Ok v) H))))) v eq_refl).
    + cannot_raise H.
  - destruct (validate (E:=Toy.env) Toy.small [] (Toy.world 0))
      as [r w'] eqn:H.
    exact (proj1 (proj2 (validate_footprint (E:=Toy.env) Toy.small []
                           (Toy.world 0) w' r H))).
Defined.

(** ** From [setup] to the final checkpoint *)

Section Launch.

Context {E : Env}.
Variable h : HParams.

Lemma logs_count_unchanged (p : event -> bool) (P : event -> Prop)
      (w w' : World) :
  (forall e, P e -> p e = false) ->
  logs P w w' -> count_ev p (log w') = count_ev p (log w).
Proof.
  intros Hp [d [Hd Hf]]. rewrite Hd, count_ev_app.
  assert (Hz : count_ev p d = 0).
  { clear Hd. induction Hf as [|e d He _ IH]; [reflexivity|].
    unfold count_ev in *. simpl. now rewrite (Hp e He). }
  now rewrite Hz.
Qed.

Lemma eval_event_training (e : event) : eval_event e -> training_event e.
Proof. destruct e; intros He; solve [exact I | destruct He]. Qed.

Lemma training_event_not_final (e : event) :
  training_event e -> is_final_save e = false.
Proof.
  destruct e; intros He; try reflexivity; try (now destruct He).
  match goal with
  | c : ckpt_path |- _ => destruct c; solve [reflexivity | destruct He]
  end.
Qed.

(** [train] and all it calls record events of training only. *)
Lemma train_training_events (train_data val_data : list Example) :
  preserves (logs training_event) (train h train_data val_data).
Proof.
  unfold train, train_loop, train_iter. unfold_blocks.
  repeat first
    [ frame_struct ltac:(apply logs_refl) ltac:(apply logs_trans)
    | intros w r w' H; eapply logs_weaken;
      [exact eval_event_training
      | exact (validate_eval_events h _ _ _ _ H)]
    | logs_prim ].
Qed.

(** [main] up to the call of [train], and what follows it. *)
Lemma main_unfold (fabric : Fabric) (train_data val_data : list Example)
      (w : World) :
  main h fabric train_data val_data w =
    match train h train_data val_data
            (world_for_train h (match f_plugins fabric with
                                | Some _ => true
                                | None => false
                                end) w) with
    | (Ok _, w1) => (Ok tt, set_log (EvSave FinalCkpt :: log w1) w1)
    | (Raise e, w1) => (Raise e, w1)
    end.
Proof. reflexivity. Qed.

(** X11. [main] builds the model and the optimizer anew and reseeds the
    generator with [1337 + global_rank] before it trains, so that its
    outcome does not depend on the generator, the model or the optimizer
    it finds; what [train] raises leaves [main] as it is, and the final
    checkpoint is written exactly when [train] returns, as the last thing
    [main] does. *)
Theorem main_reseeds_then_trains (fabric : Fabric)
        (train_data val_data : list Example) :
  (forall w1 w2,
      inference_mode w1 = inference_mode w2 -> log w1 = log w2 ->
      main h fabric train_data val_data w1
        = main h fabric train_data val_data w2) /\
  (forall w r w',
      main h fabric train_data val_data w = (r, w') ->
      exists paged w1,
        train h train_data val_data (world_for_train h paged w)
          = (r, w1) /\
        count_ev is_final_save (log w') =
          count_ev is_final_save (log w)
          + match r with Ok _ => 1 | Raise _ => 0 end /\
        match r with
        | Ok _ => w' = set_log (EvSave FinalCkpt :: log w1) w1
        | Raise _ => w' = w1
        end).
Proof.
  split.
  - intros w1 w2 Hi Hl. rewrite !main_unfold.
    unfold world_for_train. now rewrite Hi, Hl.
  - intros w r w' H. rewrite main_unfold in H.
    set (paged := match f_plugins fabric with
                  | Some _ => true
                  | None => false
                  end) in *.
    destruct (train h train_data val_data (world_for_train h paged w))
      as [[[]|e] w1] eqn:Ht.
    + injection H as <- <-. exists paged, w1.
      split; [exact Ht|]. split; [|reflexivity].
      apply train_training_events in Ht.
      apply (logs_count_unchanged is_final_save) in Ht.
      * cbn [log set_log]. rewrite count_ev_cons, Ht.
        unfold world_for_train, count_ev. simpl. lia.
      * exact training_event_not_final.
    + injection H as <- <-. exists paged, w1.
      split; [exact Ht|]. split; [|reflexivity].
      apply train_training_events in Ht.
      apply (logs_count_unchanged is_final_save) in Ht.
      * rewrite Ht. unfold world_for_train, count_ev. simpl. lia.
      * exact training_event_not_final.
Qed.

End Launch.

(** ** The paths through [setup] *)

Section SetupPaths.

Context {E : Env}.
Variable h : HParams.

Lemma prefix_str_drop (s : string) :
  forall q, String.prefix s q = true ->
            q = (s ++ str_drop (String.length s) q)%string.
Proof.
  induction s as [|a s IH]; intros q H.
  - reflexivity.
  - destruct q as [|b q]; [discriminate|].
    cbn [String.prefix] in H.
    destruct (Ascii.ascii_dec a b) as [->|]; [|discriminate].
    cbn [String.length str_drop String.append]. f_equal. now apply IH.
Qed.

Lemma prefix_drop (q : string) :
  String.prefix "bnb." q = true -> q = ("bnb." ++ str_drop 4 q)%string.
Proof. exact (prefix_str_drop "bnb." q). Qed.





(** X12. With a [bnb.] mode, [setup] raises [ValueError] for a mixed
    precision and [KeyError] for any other precision outside the three of
    its table, before the device check and with nothing done; on a single
    device and with a precision of the table it builds the plugin for the
    mode that follows the prefix and passes it to [L.Fabric] next to the
    precision it was built from, which [L.Fabric] refuses with
    [ValueError].  So with a [bnb.] mode [setup] raises whatever the
    precision and the number of devices, it marks nothing but the plugin
    it may have built, and [main] is not launched. *)
Theorem setup_bnb_paths (q : string) (train_data val_data : list Example)
        (w : World) :
  String.prefix "bnb." q = true ->
  q = ("bnb." ++ str_drop 4 q)%string /\
  (forall p, str_contains "mixed" p = true ->
     setup h (Some p) (Some q) train_data val_data w
       = (Raise "ValueError", w)) /\
  (forall p, str_contains "mixed" p = false ->
     p <> "16-true" -> p <> "bf16-true" -> p <> "32-true" ->
     setup h (Some p) (Some q) train_data val_data w
       = (Raise "KeyError", w)) /\
  (forall p d pl,
     str_contains "mixed" p = false -> dtype_of p = Ok d ->
     BitsandbytesPrecision (str_drop 4 q) d = Ok pl ->
     devices h <= 1 ->
     setup h (Some p) (Some q) train_data val_data w =
       (Raise "ValueError",
        set_log (EvPlugin (str_drop 4 q) d :: log w) w)) /\
  (forall precision r w',
     setup h precision (Some q) train_data val_data w = (r, w') ->
     (exists e, r = Raise e) /\
     logs (fun ev => exists d, ev = EvPlugin (str_drop 4 q) d) w w').
Proof.
  intros Hq. split; [now apply prefix_drop|]. split; [|split; [|split]].
  - intros p Hm. unfold setup, select_plugins. rewrite Hq, Hm. reflexivity.
  - intros p Hm H1 H2 H3. unfold setup, select_plugins. rewrite Hq, Hm.
    assert (Hd : dtype_of p = Raise "KeyError").
    { unfold dtype_of.
      destruct (String.eqb_spec p "16-true"); [contradiction|].
      destruct (String.eqb_spec p "bf16-true"); [contradiction|].
      destruct (String.eqb_spec p "32-true"); [contradiction|].
      reflexivity. }
    unfold bind at 1 2. unfold lift at 1. rewrite Hd. reflexivity.
  - intros p d pl Hm Hd Hb Hdev. unfold setup, select_plugins, select_strategy.
    rewrite Hq, Hm.
    replace (1 <? devices h) with false
      by (symmetry; apply Nat.ltb_ge; exact Hdev).
    unfold bind, lift, tick, ret. rewrite Hd, Hb.
    now rewrite Fabric_precision_conflict.
  - intros precision r w' H.
    assert (Htr : truthy (Some q) = true).
    { rewrite (prefix_drop q Hq). reflexivity. }
    unfold setup, select_plugins, select_strategy in H. rewrite Hq, Htr in H.
    destruct precision as [p|].
    2:{ unfold bind, raise in H. injection H as <- <-.
        split; [now eexists | apply logs_refl]. }
    destruct (str_contains "mixed" p).
    { unfold bind, raise in H. injection H as <- <-.
      split; [now eexists | apply logs_refl]. }
    unfold bind, lift, tick, ret, raise in H.
    destruct (dtype_of p) as [d|e].
    2:{ injection H as <- <-. split; [now eexists | apply logs_refl]. }
    destruct (BitsandbytesPrecision (str_drop 4 q) d) as [pl|e].
    2:{ injection H as <- <-. split; [now eexists | apply logs_refl]. }
    assert (L : logs (fun ev => exists d0, ev = EvPlugin (str_drop 4 q) d0)
                     w (set_log (EvPlugin (str_drop 4 q) d :: log w) w)).
    { exists [EvPlugin (str_drop 4 q) d]. split; [reflexivity|].
      constructor; [now exists d | constructor]. }
    destruct (1 <? devices h).
    { injection H as <- <-. split; [now eexists | exact L]. }
    rewrite Fabric_precision_conflict in H. injection H as <- <-.
    split; [now eexists | exact L].
Qed.


End SetupPaths.

(** Two runs of [main] that find different generators end alike. *)
Lemma main_reseeds_then_trains_witness :
  main (E:=Toy.env) Toy.small (@Build_Fabric Toy.env 1 StrategyAuto None None)
       Toy.data Toy.val_data (Toy.world 0)
  = main (E:=Toy.env) Toy.small
         (@Build_Fabric Toy.env 1 StrategyAuto None None)
         Toy.data Toy.val_data (Toy.world 5).
Proof.
  apply (main_reseeds_then_trains (E:=Toy.env) Toy.small
           (@Build_Fabric Toy.env 1 StrategyAuto None None)
           Toy.data Toy.val_data);
    reflexivity.
Defined.

(** A mixed precision with a [bnb.] mode, on two devices: the error is
    that of the quantization block.  A precision of the table on one device:
    the plugin is built and [L.Fabric] refuses it. *)
Lemma setup_bnb_paths_witness :
  setup (E:=Toy.env) Toy.two_devices (Some "16-mixed") (Some "bnb.nf4")
        Toy.data Toy.val_data (Toy.world 0)
  = (Raise "ValueError", Toy.world 0) /\
  setup (E:=Toy.env) Toy.small (Some "bf16-true") (Some "bnb.nf4")
        Toy.data Toy.val_data (Toy.world 0)
  = (Raise "ValueError",
     set_log (EvPlugin "nf4" bfloat16 :: log (Toy.world 0)) (Toy.world 0)).
Proof.
  split.
  - destruct (setup_bnb_paths (E:=Toy.env) Toy.two_devices "bnb.nf4"
                Toy.data Toy.val_data (Toy.world 0) eq_refl)
      as [_ [Hmixed _]].
    apply Hmixed. reflexivity.
  - destruct (setup_bnb_paths (E:=Toy.env) Toy.small "bnb.nf4"
                Toy.data Toy.val_data (Toy.world 0) eq_refl)
      as [_ [_ [_ [Hfab _]]]].
    apply (Hfab "bf16-true" bfloat16 tt);
      [reflexivity | reflexivity | reflexivity | simpl; lia].
Defined.


(** ** The lengths handed to the speed monitor *)

Section Lengths.

Context {E : Env}.
Variable h : HParams.

(** X14. [total_lengths], the sum of the widths of the batches the loop
    has trained on, is at most the number of passes times the longest
    training length, and from the first pass on at least that length:
    the first batch holds the longest example. *)
Theorem total_lengths_bounds (train_data val_data : list Example)
        (len longest_seq_ix : nat) :
  get_longest_seq_length train_data = Ok (len, longest_seq_ix) ->
  0 < micro_batch_size h ->
  forall (N : nat) (st : LoopState) (w w' : World),
    train_loop h train_data val_data longest_seq_ix N w = (Ok st, w') ->
    total_lengths st <= N * len /\
    (0 < N -> len <= total_lengths st).
Proof.
  intros Hlong Hmb. unfold train_loop, for_range.
  destruct (get_longest_seq_length_spec _ _ _ Hlong) as [Hvix _].
  induction N as [|N IH]; intros st w w' H.
  - simpl in H. prim_inv H. simpl. split; lia.
  - rewrite for_loop_snoc in H.
    destruct (for_loop 0 N _ _ w) as [[s1|e] w1] eqn:Hpre; [|discriminate].
    destruct (IH _ _ _ Hpre) as [Hup Hlow]. simpl in H.
    apply train_iter_ok in H. cbv zeta in H.
    destruct H as [[x y] [g [Hb [_ [_ [Htl _]]]]]].
    cbn [fst] in Htl.
    assert (Hov : valid_override train_data
                    (if N =? 0 then Some (Z.of_nat longest_seq_ix)
                     else None)).
    { destruct (N =? 0); [|exact I].
      split; [exact Hvix | exact (get_batch_override_fits h _ _ _ _ _ Hb)]. }
    destruct (get_batch_width h _ _ _ _ _ _ _ _ Hlong Hmb Hov Hb)
      as [_ [Hw Heq]].
    split; [lia|]. intros _.
    destruct N as [|N'].
    + specialize (Heq eq_refl). lia.
    + specialize (Hlow ltac:(lia)). lia.
Qed.

End Lengths.

(** Four passes over the toy data, whose longest example has length 9. *)
Lemma total_lengths_bounds_witness :
  exists st w',
    train_loop (E:=Toy.env) Toy.small Toy.data Toy.val_data 3 4 (Toy.world 0)
      = (Ok st, w') /\
    total_lengths st <= 36 /\ 9 <= total_lengths st.
Proof.
  destruct (train_loop (E:=Toy.env) Toy.small Toy.data Toy.val_data 3 4
              (Toy.world 0)) as [[st|e] w'] eqn:H.
  - exists st, w'. split; [reflexivity|].
    assert (Hm : 0 < micro_batch_size Toy.small) by (simpl; lia).
    assert (Hn : 0 < 4) by lia.
    destruct (total_lengths_bounds (E:=Toy.env) Toy.small Toy.data
                Toy.val_data 9 3 eq_refl Hm 4 st (Toy.world 0) w' H)
      as [Hup Hlow].
    split; [exact Hup | exact (Hlow Hn)].
  - cannot_raise H.
Defined.

(** ** The model across [train] *)

Section ModelState.

Context {E : Env}.
Variable h : HParams.

(** No pass changes the model's [max_seq_length]. *)
Lemma train_iter_max_seq_length (train_data val_data : list Example)
      (longest_seq_ix iter_num : nat) (st : LoopState) :
  preserves (keeps (fun w => max_seq_length (model w)))
            (train_iter h train_data val_data longest_seq_ix iter_num st).
Proof.
  unfold train_iter. unfold_blocks.
  repeat first
    [ frame_struct ltac:(apply keeps_refl) ltac:(apply keeps_trans)
    | apply validate_keeps; reflexivity
    | keeps_prim ].
Qed.

(** The blocks of a pass other than the evaluation leave the two flags of
    the model alone. *)
Lemma blocks_keep_flags {X} (f : Model -> X) :
  (forall g m, f (set_grad g m) = f m) ->
  (forall p m, f (set_params p m) = f m) ->
  (forall sc, preserves (keeps (fun w => f (model w)))
                (warmup_update h sc)) /\
  (forall data o, preserves (keeps (fun w => f (model w)))
                    (call_get_batch h data o)) /\
  (forall x y acc, preserves (keeps (fun w => f (model w)))
                     (forward_backward h x y acc)) /\
  (forall acc sc, preserves (keeps (fun w => f (model w)))
                    (optimizer_update acc sc)) /\
  (forall i sc, preserves (keeps (fun w => f (model w)))
                  (log_progress h i sc)) /\
  (forall acc i sc, preserves (keeps (fun w => f (model w)))
                      (periodic_save h acc i sc)).
Proof.
  intros Hg Hp.
  repeat split; intros; unfold_blocks;
    repeat first
      [ frame_struct ltac:(apply keeps_refl) ltac:(apply keeps_trans)
      | intros w r w' H; apply modify_model_inv in H as [_ ->]; apply Hg
      | intros w r w' H; apply apply_step_inv in H as [_ ->]; apply Hp
      | keeps_prim ].
Qed.

(** The flags of the model after a completed pass. *)
Lemma train_iter_flags {X} (f : Model -> X)
      (train_data val_data : list Example)
      (longest_seq_ix iter_num : nat) (st st' : LoopState) (w w' : World) :
  (forall g m, f (set_grad g m) = f m) ->
  (forall p m, f (set_params p m) = f m) ->
  train_iter h train_data val_data longest_seq_ix iter_num st w = (Ok st', w') ->
  if ((iter_num + 1) mod gradient_accumulation_iters h =? 0)
     && (step_count st' mod eval_interval h =? 0)
  then exists v u u',
         validate h val_data u = (Ok v, u') /\ f (model w') = f (model u')
  else f (model w') = f (model w).
Proof.
  intros Hg Hp H.
  destruct (train_iter_path h _ _ _ _ _ _ _ _ H)
    as [b [loss [r [w1 [w2 [w3 [w4 [w5 [w6
         [H1 [H2 [H3 [H4 [H5 [H6 [H7 [H8 _]]]]]]]]]]]]]]]]].
  apply py_mod_inv in H3 as [_ ->].
  destruct (blocks_keep_flags f Hg Hp) as [B1 [B2 [B3 [B4 [B5 B6]]]]].
  apply B1 in H1. apply B2 in H2. apply B3 in H4. apply B4 in H5.
  apply B5 in H6. apply B6 in H8. unfold keeps in *. cbn in H6.
  apply periodic_eval_ok in H7 as [_ H7].
  rewrite negb_involutive in H7.
  destruct (((iter_num + 1) mod gradient_accumulation_iters h =? 0)
            && (step_count st' mod eval_interval h =? 0)).
  - destruct H7 as [v [w7 [Hv ->]]]. exists v, w5, w7.
    split; [exact Hv|]. rewrite H8. reflexivity.
  - subst w6. congruence.
Qed.

Lemma for_loop_invariant {St} (I : World -> Prop)
      (body : nat -> St -> M St) :
  (forall i s w s' w', body i s w = (Ok s', w') -> I w -> I w') ->
  forall n start s w s' w',
    for_loop start n body s w = (Ok s', w') -> I w -> I w'.
Proof.
  intros Hb. induction n as [|n IH]; intros start s w s' w' H Hw.
  - apply ret_inv in H as [_ ->]. exact Hw.
  - change (for_loop start (S n) body s w)
      with (bind (body start s)
                 (fun s1 => for_loop (S start) n body s1) w) in H.
    apply bind_inv in H as [[e [_ Hr]] | [s1 [w1 [H1 H]]]]; [discriminate|].
    exact (IH _ _ _ _ _ H (Hb _ _ _ _ _ H1 Hw)).
Qed.

(** X15. No pass of the loop changes the model's [max_seq_length], which
    [train] has set to the longest training length; a completed pass
    that finds the model in training mode and without key-value cache
    leaves it so, whether it evaluates or not; and a [train] that returns
    leaves the model in training mode, without cache and with that
    [max_seq_length], whatever mode it found: the sanity check has
    switched it to training mode before the first pass. *)
Theorem train_model_state (train_data val_data : list Example) :
  (forall longest_seq_ix iter_num st w r w',
      train_iter h train_data val_data longest_seq_ix iter_num st w = (r, w') ->
      max_seq_length (model w') = max_seq_length (model w)) /\
  (forall longest_seq_ix iter_num st w st' w',
      train_iter h train_data val_data longest_seq_ix iter_num st w
        = (Ok st', w') ->
      training (model w) = true -> kv_cache (model w) = false ->
      training (model w') = true /\ kv_cache (model w') = false) /\
  (forall w w',
      train h train_data val_data w = (Ok tt, w') ->
      exists len ix,
        get_longest_seq_length train_data = Ok (len, ix) /\
        max_seq_length (model w') = len /\
        training (model w') = true /\
        kv_cache (model w') = false).
Proof.
  assert (Pass : forall longest_seq_ix iter_num st w st' w',
      train_iter h train_data val_data longest_seq_ix iter_num st w
        = (Ok st', w') ->
      training (model w) = true /\ kv_cache (model w) = false ->
      training (model w') = true /\ kv_cache (model w') = false).
  { intros lix i st w st' w' H [Ht Hk].
    pose proof (train_iter_flags training _ _ _ _ _ _ _ _
                  ltac:(reflexivity) ltac:(reflexivity) H) as Ft.
    pose proof (train_iter_flags kv_cache _ _ _ _ _ _ _ _
                  ltac:(reflexivity) ltac:(reflexivity) H) as Fk.
    destruct (((i + 1) mod gradient_accumulation_iters h =? 0)
              && (step_count st' mod eval_interval h =? 0)).
    - destruct Ft as [v [u [u' [Hv ->]]]].
      destruct Fk as [v2 [u2 [u2' [Hv2 ->]]]].
      split.
      + exact (validate_training h _ _ _ _ Hv).
      + apply validate_inv in Hv2 as [u3 [Hv2 ->]].
        exact (validate_body_kv h _ _ _ _ Hv2).
    - split; congruence. }
  split; [|split].
  - intros lix i st w r w' H.
    exact (train_iter_max_seq_length _ _ _ _ _ _ _ _ H).
  - intros lix i st w st' w' H Ht Hk. exact (Pass _ _ _ _ _ _ H (conj Ht Hk)).
  - intros w w' H. unfold train in H.
    apply bind_inv in H as [[e [_ Hr]] | [[len ix] [w0 [Hl H]]]];
      [discriminate|].
    apply lift_inv in Hl as [Hl ->]. cbv zeta in H. cbn [fst snd] in H.
    exec H.
    apply bind_inv in H as [[e [_ Hr]] | [v [w1 [Hv H]]]]; [discriminate|].
    exec H.
    apply bind_inv in H as [[e [_ Hr]] | [st [w2 [Hloop H]]]];
      [discriminate|].
    apply ret_inv in H as [_ ->].
    exists len, ix. split; [now symmetry|].
    pose proof (validate_training h _ _ _ _ Hv) as Ht. cbn in Ht.
    destruct (validate_frame h _ _ _ _ Hv) as [_ [_ [_ [Hm _]]]].
    cbn in Hm.
    assert (Hk : kv_cache (model w1) = false).
    { apply validate_inv in Hv as [u [Hv ->]].
      exact (validate_body_kv h _ _ _ _ Hv). }
    unfold train_loop, for_range in Hloop.
    split.
    + assert (Hkeep : preserves (keeps (fun w => max_seq_length (model w)))
                        (for_loop 0 (max_iters h)
                           (train_iter h train_data val_data ix)
                           {| step_count := 0; total_lengths := 0 |})).
      { apply preserves_for_loop; [apply keeps_refl | apply keeps_trans|].
        intros i s. apply train_iter_max_seq_length. }
      apply Hkeep in Hloop. unfold keeps in Hloop. cbn in Hloop.
      congruence.
    + apply (for_loop_invariant
               (fun w => training (model w) = true /\
                         kv_cache (model w) = false)
               _ (Pass ix) _ _ _ _ _ _ Hloop).
      split; [exact Ht | exact Hk].
Qed.

End ModelState.

(** In evaluation mode and with a cache: [train] returns with the model in
    training mode, the cache cleared and [max_seq_length] at 9. *)
Lemma train_model_state_witness :
  exists w',
    train (E:=Toy.env) Toy.small Toy.data Toy.val_data
          (@Build_World Toy.env 0%Z (@Build_Model Toy.env false true 16 tt 0)
             (@Build_Optimizer Toy.env [0x1.999999999999ap-4%float] 0)
                 false [])
      = (Ok tt, w') /\
    max_seq_length (model w') = 9 /\
    training (model w') = true /\
    kv_cache (model w') = false.
Proof.
  destruct (train (E:=Toy.env) Toy.small Toy.data Toy.val_data
              (@Build_World Toy.env 0%Z
                 (@Build_Model Toy.env false true 16 tt 0)
                 (@Build_Optimizer Toy.env [0x1.999999999999ap-4%float] 0)
                 false []))
    as [[[]|e] w'] eqn:H.
  - exists w'. split; [reflexivity|].
    destruct (proj2 (proj2 (train_model_state (E:=Toy.env) Toy.small
                              Toy.data Toy.val_data)) _ w' H)
      as [len [ix [Hl [Hm [Ht Hk]]]]].
    vm_compute in Hl. injection Hl as <- _.
    split; [exact Hm|]. split; [exact Ht | exact Hk].
  - cannot_raise H.
Defined.

(** ** The shipped constants *)

Section Shipped.

Context {E : Env}.



End Shipped.


(** ** The passes that checkpoint and evaluate *)

Section DuePasses.

Context {E : Env}.
Variable h : HParams.






End DuePasses.


(** ** Training without validation data *)

Section EmptyValidation.

Context {E : Env}.
Variable h : HParams.

(** X18. With no validation example and at least one evaluation batch
    to draw, [train] ends in its sanity check with the [RuntimeError] of
    the index draw, and so does [main], which then writes no final
    checkpoint: no training batch has been drawn and no optimizer step
    taken, the generator has not moved, and the model is left in
    evaluation mode with its [max_seq_length] already set to the longest
    training length. *)
Theorem train_empty_validation (train_data : list Example)
        (len ix : nat) (w : World) :
  get_longest_seq_length train_data = Ok (len, ix) ->
  0 < eval_iters h ->
  (exists w',
      train h train_data [] w = (Raise "RuntimeError", w') /\
      gen w' = gen w /\ optimizer w' = optimizer w /\
      params (model w') = params (model w) /\
      grad (model w') = grad (model w) /\
      max_seq_length (model w') = len /\
      training (model w') = false /\
      log w' = EvGetBatch None :: EvEval :: EvPrint "Validating ..."
               :: log w) /\
  (forall fabric,
      exists w',
        main h fabric train_data [] w = (Raise "RuntimeError", w') /\
        count_ev is_final_save (log w') = count_ev is_final_save (log w) /\
        steps_in (log w') = steps_in (log w)).
Proof.
  intros Hlong Hpos.
  assert (T : forall u,
             train h train_data [] u =
               (Raise "RuntimeError",
                set_inference_mode (inference_mode u)
                  (set_log (EvGetBatch None :: EvEval
                            :: EvPrint "Validating ..." :: log u)
                     (set_model
                        (set_training false
                           (set_max_seq_length len (model u)))
                        (set_inference_mode true u))))).
  { intros u. unfold train. rewrite Hlong.
    unfold validate, validate_body, for_range.
    destruct (eval_iters h) as [|n]; [lia|]. reflexivity. }
  split.
  - eexists. split; [apply T|]. repeat split.
  - intros fabric. rewrite main_unfold, T.
    eexists. split; [reflexivity|]. split; reflexivity.
Qed.

End EmptyValidation.

(** The toy data without validation examples. *)
Lemma train_empty_validation_witness :
  fst (train (E:=Toy.env) Toy.small Toy.data [] (Toy.world 0))
    = Raise "RuntimeError".
Proof.
  assert (Hp : 0 < eval_iters Toy.small) by (simpl; lia).
  destruct (train_empty_validation (E:=Toy.env) Toy.small Toy.data 9 3
              (Toy.world 0) eq_refl Hp) as [[w' [H _]] _].
  now rewrite H.
Defined.
